(** * OpenMP runtime visualizer: event capture and annotation layer

    A shallow embedding of [src/runtime_visualizer_utils.h] and
    [src/visualizer_tool.c].  The C code talks to four pieces of its
    environment: the process environment ([getenv]), the monotonic clock
    ([clock_gettime]), the OpenMP runtime ([omp_get_thread_num], the
    callback registration obtained through [lookup]) and standard output
    ([printf]).  They are the fields of a [world] that every function
    threads through a small state monad; each interaction is also recorded,
    in order, in the world's list of [effects], so that "no output", "no
    timestamp query" and "before any event is emitted" are statements
    about that list. *)

From Stdlib Require Import ZArith List String Ascii Bool Lia SpecFloat DecimalString.
From stdpp Require Import gmap strings.

Open Scope Z_scope.

(** ** C library: formatted output *)

Module CLib.

(** The line feed that ends every format string of the source. *)
Definition LF : string := String "010"%char EmptyString.

(** Decimal rendering of an integer, as the conversions of [printf] do. *)
Definition dec (z : Z) : string := NilZero.string_of_int (Z.to_int z).

(** Values of the C integer types are kept as [Z]; passing one to a
    parameter of a [w]-bit type reads it modulo [2^w]. *)
Definition wrap_unsigned (w z : Z) : Z := z mod 2 ^ w.
Definition wrap_signed (w z : Z) : Z := (z + 2 ^ (w - 1)) mod 2 ^ w - 2 ^ (w - 1).

(** *** IEEE-754 binary64

    A [double] is a [spec_float] at precision 53 and maximal exponent
    1024; the operations are those of the Standard Library's
    specification of binary64. *)

Definition double : Type := spec_float.
Definition prec : Z := 53.
Definition emax : Z := 1024.

Definition double_of_long (z : Z) : double := binary_normalize prec emax z 0 false.
Definition dmul : double → double → double := SFmul prec emax.
Definition ddiv : double → double → double := SFdiv prec emax.
Definition dadd : double → double → double := SFadd prec emax.

(** The literals [1000000.0] and [1000.0]. *)
Definition d1000000 : double := Eval vm_compute in double_of_long 1000000.
Definition d1000 : double := Eval vm_compute in double_of_long 1000.

Definition is_finite (x : double) : bool :=
  match x with
  | S754_zero _ | S754_finite _ _ _ => true
  | S754_infinity _ | S754_nan => false
  end.

(** *** The [%.3f] conversion

    The exact binary value is rounded to the nearest multiple of
    [1/1000], ties to even, and printed as integer part, point and three
    digits. *)

Definition rne_div (a b : Z) : Z :=
  let q := a / b in
  match 2 * (a mod b) ?= b with
  | Lt => q
  | Gt => q + 1
  | Eq => if Z.even q then q else q + 1
  end.

Definition thousandths (m : positive) (e : Z) : Z :=
  if 0 <=? e then Z.pos m * 1000 * 2 ^ e else rne_div (Z.pos m * 1000) (2 ^ (- e)).

Definition pad3 (k : Z) : string :=
  dec (k / 100) +:+ dec (k / 10 mod 10) +:+ dec (k mod 10).

Definition sign_str (s : bool) : string := if s then "-" else "".

Definition fixed3 (x : double) : string :=
  match x with
  | S754_nan => "nan"
  | S754_infinity s => sign_str s +:+ "inf"
  | S754_zero s => sign_str s +:+ "0.000"
  | S754_finite s m e =>
      let n := thousandths m e in
      sign_str s +:+ dec (n / 1000) +:+ "." +:+ pad3 (n mod 1000)
  end.

(** *** [printf]

    The arguments of a call, tagged with the C type they are passed at. *)
Inductive parg : Type :=
  | Int (z : Z)            (* int *)
  | UInt (z : Z)           (* unsigned int *)
  | ULong (z : Z)          (* unsigned long, uint64_t *)
  | Double (d : double)    (* double *)
  | Str (s : string).      (* const char*: the bytes before the terminator *)

(** One conversion specification (the text between [%] and the conversion
    letter, letter included) applied to the next argument.  A
    specification the source never uses, or one that does not fit its
    argument, is undefined behaviour in C; it prints nothing here. *)
Definition convert (spec : string) (args : list parg) : string * list parg :=
  if String.eqb spec "%" then ("%"%string, args) else
  match args with
  | [] => (EmptyString, [])
  | a :: rest =>
      (match a with
       | Int z => if String.eqb spec "d" then dec (wrap_signed 32 z) else EmptyString
       | UInt z => if String.eqb spec "u" then dec (wrap_unsigned 32 z) else EmptyString
       | ULong z => if String.eqb spec "lu" then dec (wrap_unsigned 64 z) else EmptyString
       | Double d => if String.eqb spec ".3f" then fixed3 d else EmptyString
       | Str s => if String.eqb spec "s" then s else EmptyString
       end, rest)
  end.

Definition conversion_letter (c : ascii) : bool :=
  existsb (Ascii.eqb c) ["d"; "u"; "s"; "f"; "%"]%char.

(** The format string is read left to right; [spec] holds the part of a
    conversion specification read so far. *)
Fixpoint sprintf_go (spec : option string) (fmt : string) (args : list parg) : string :=
  match fmt with
  | EmptyString => EmptyString
  | String c rest =>
      match spec with
      | None =>
          if Ascii.eqb c "%" then sprintf_go (Some EmptyString) rest args
          else String c (sprintf_go None rest args)
      | Some sp =>
          let sp' := sp +:+ String c EmptyString in
          if conversion_letter c then
            let '(out, args') := convert sp' args in
            out +:+ sprintf_go None rest args'
          else sprintf_go (Some sp') rest args
      end
  end.

Definition sprintf (fmt : string) (args : list parg) : string :=
  sprintf_go None fmt args.

End CLib.
Export CLib.

Example sprintf_work :
  sprintf ("[OMPT] Thread %d WORK %s at %.3f ms (type: %s, count: %lu)" +:+ LF)
          [Int 3; Str "START"; Double (ddiv (double_of_long 1234567) d1000);
           Str "loop"; ULong 100]
  = "[OMPT] Thread 3 WORK START at 1234.567 ms (type: loop, count: 100)" +:+ LF.
Proof. vm_compute. reflexivity. Qed.

(** ** The world around the tool *)

(** [struct timespec], as filled in by [clock_gettime]. *)
Record timespec : Type := Timespec { tv_sec : Z; tv_nsec : Z }.

(** The five handlers of [visualizer_tool.c], as the function pointers
    handed to the runtime's registration function. *)
Inductive callback : Type :=
  | cb_parallel_begin
  | cb_parallel_end
  | cb_work
  | cb_implicit_task
  | cb_sync_region.

(** What the process does to its environment, in program order. *)
Inductive effect : Type :=
  | Getenv (name : string)     (* a call of getenv *)
  | ClockGettime               (* a call of clock_gettime(CLOCK_MONOTONIC, _) *)
  | Stdout (bytes : string).   (* the bytes one printf call writes *)

Record world : Type := World {
  environ : gmap string string;          (* the process environment *)
  monotonic_clock : nat → timespec;      (* the n-th reading of the clock *)
  thread_num : Z;                        (* omp_get_thread_num() on the calling worker *)
  callback_table : gmap Z callback;      (* the runtime's registered callbacks *)
  ompt_loaded : bool;                    (* bool ompt_loaded = false; *)
  first_call : bool;                     (* static bool first_call = true; *)
  effects : list effect                  (* oldest first *)
}.

Definition is_clock_read (e : effect) : bool :=
  match e with ClockGettime => true | _ => false end.
Definition is_getenv (e : effect) : bool :=
  match e with Getenv _ => true | _ => false end.

(** Number of timestamp queries and of environment look-ups so far. *)
Definition clock_reads (w : world) : nat := List.length (List.filter is_clock_read (effects w)).
Definition env_lookups (w : world) : nat := List.length (List.filter is_getenv (effects w)).

(** Everything written to standard output so far, as one byte string. *)
Fixpoint written (es : list effect) : string :=
  match es with
  | [] => EmptyString
  | Stdout s :: es' => s +:+ written es'
  | _ :: es' => written es'
  end.
Definition stdout (w : world) : string := written (effects w).

Definition emit (e : effect) (w : world) : world :=
  World (environ w) (monotonic_clock w) (thread_num w) (callback_table w)
        (ompt_loaded w) (first_call w) (effects w ++ [e]).
Definition with_ompt_loaded (b : bool) (w : world) : world :=
  World (environ w) (monotonic_clock w) (thread_num w) (callback_table w)
        b (first_call w) (effects w).
Definition with_first_call (b : bool) (w : world) : world :=
  World (environ w) (monotonic_clock w) (thread_num w) (callback_table w)
        (ompt_loaded w) b (effects w).
Definition with_environ (env : gmap string string) (w : world) : world :=
  World env (monotonic_clock w) (thread_num w) (callback_table w)
        (ompt_loaded w) (first_call w) (effects w).
Definition with_thread_num (t : Z) (w : world) : world :=
  World (environ w) (monotonic_clock w) t (callback_table w)
        (ompt_loaded w) (first_call w) (effects w).
Definition with_callback_table (tbl : gmap Z callback) (w : world) : world :=
  World (environ w) (monotonic_clock w) (thread_num w) tbl
        (ompt_loaded w) (first_call w) (effects w).

(** ** The state monad of C statements *)

Definition M (A : Type) : Type := world → A * world.

Definition ret {A : Type} (a : A) : M A := λ w, (a, w).
Definition bind {A B : Type} (m : M A) (k : A → M B) : M B :=
  λ w, let '(a, w') := m w in k a w'.

Notation "'let*' x ':=' m 'in' k" := (bind m (λ x, k))
  (at level 10, x name, m at level 100, k at level 200).
Notation "m ';;;' k" := (bind m (λ _, k))
  (at level 100, k at level 200, right associativity).

(** Run a statement for its final world. *)
Definition exec {A : Type} (m : M A) (w : world) : world := snd (m w).

Definition getenv (name : string) : M (option string) :=
  λ w, (environ w !! name, emit (Getenv name) w).
Definition clock_gettime : M timespec :=
  λ w, (monotonic_clock w (clock_reads w), emit ClockGettime w).
Definition omp_get_thread_num : M Z :=
  λ w, (thread_num w, w).
Definition printf (fmt : string) (args : list parg) : M unit :=
  λ w, (tt, emit (Stdout (sprintf fmt args)) w).

Definition load_ompt_loaded : M bool := λ w, (ompt_loaded w, w).
Definition store_ompt_loaded (b : bool) : M unit := λ w, (tt, with_ompt_loaded b w).
Definition load_first_call : M bool := λ w, (first_call w, w).
Definition store_first_call (b : bool) : M unit := λ w, (tt, with_first_call b w).

(** ** runtime_visualizer_utils.h *)

Definition check_ompt_loaded : M unit :=
  let* ompt_tool_libraries := getenv "OMP_TOOL_LIBRARIES" in
  match ompt_tool_libraries with
  | Some _ => store_ompt_loaded true
  | None => store_ompt_loaded false
  end.

(** [ts.tv_sec * 1000000.0 + ts.tv_nsec / 1000.0]: microseconds. *)
Definition timestamp_of (ts : timespec) : double :=
  dadd (dmul (double_of_long (tv_sec ts)) d1000000)
       (ddiv (double_of_long (tv_nsec ts)) d1000).

Definition get_timestamp : M double :=
  let* ts := clock_gettime in
  ret (timestamp_of ts).

Definition ompt_annotate (annotation : string) : M unit :=
  let* fc := load_first_call in
  (if fc then check_ompt_loaded ;;; store_first_call false else ret tt) ;;;
  let* loaded := load_ompt_loaded in
  if negb loaded then ret tt
  else
    let* timestamp := get_timestamp in
    let* thread_id := omp_get_thread_num in
    printf ("[OMPT_annotation] Thread %d Annotation at %.3f ms: %s" +:+ LF)
           [Int thread_id; Double (ddiv timestamp d1000); Str annotation].

Definition ompt_mark_roi_start : M unit := ompt_annotate "ROI_START".
Definition ompt_mark_roi_end : M unit := ompt_annotate "ROI_END".

(** ** The constants of omp-tools.h

    The header of the OpenMP runtime is not part of the repository; the
    enumerators the tool compares against and registers for are
    parameters of the development. *)
Class omp_tools : Type := {
  ompt_scope_begin : Z;
  ompt_work_loop : Z;
  ompt_work_sections : Z;
  ompt_work_single_executor : Z;
  ompt_work_single_other : Z;
  ompt_work_workshare : Z;
  ompt_work_distribute : Z;
  ompt_work_taskloop : Z;
  ompt_sync_region_barrier : Z;
  ompt_sync_region_barrier_implicit : Z;
  ompt_sync_region_barrier_explicit : Z;
  ompt_sync_region_barrier_implementation : Z;
  ompt_sync_region_taskwait : Z;
  ompt_sync_region_taskgroup : Z;
  ompt_sync_region_reduction : Z;
  ompt_callback_parallel_begin : Z;
  ompt_callback_parallel_end : Z;
  ompt_callback_implicit_task : Z;
  ompt_callback_work : Z;
  ompt_callback_sync_region : Z
}.

(** The values of the OpenMP 5.0 header, for concrete runs. *)
Definition openmp_5_0 : omp_tools := {|
  ompt_scope_begin := 1;
  ompt_work_loop := 1;
  ompt_work_sections := 2;
  ompt_work_single_executor := 3;
  ompt_work_single_other := 4;
  ompt_work_workshare := 5;
  ompt_work_distribute := 6;
  ompt_work_taskloop := 7;
  ompt_sync_region_barrier := 1;
  ompt_sync_region_barrier_implicit := 2;
  ompt_sync_region_barrier_explicit := 3;
  ompt_sync_region_barrier_implementation := 4;
  ompt_sync_region_taskwait := 5;
  ompt_sync_region_taskgroup := 6;
  ompt_sync_region_reduction := 7;
  ompt_callback_parallel_begin := 3;
  ompt_callback_parallel_end := 4;
  ompt_callback_implicit_task := 7;
  ompt_callback_work := 20;
  ompt_callback_sync_region := 23
|}.

(** ** visualizer_tool.c

    Parameters a function never reads (the [ompt_data_t] pointers, the
    frame, the flags, the return address, [thread_num], the device
    number and the tool data of [initializer]) are left out. *)
Section Tool.
Context `{OT : omp_tools}.

Definition on_ompt_callback_parallel_begin (requested_parallelism : Z) : M unit :=
  let* timestamp := get_timestamp in
  let* thread_id := omp_get_thread_num in
  printf ("[OMPT] Thread %d PARALLEL BEGIN at %.3f ms (requested threads: %u)" +:+ LF)
         [Int thread_id; Double (ddiv timestamp d1000); UInt requested_parallelism].

Definition on_ompt_callback_parallel_end : M unit :=
  let* timestamp := get_timestamp in
  let* thread_id := omp_get_thread_num in
  printf ("[OMPT] Thread %d PARALLEL END at %.3f ms" +:+ LF)
         [Int thread_id; Double (ddiv timestamp d1000)].

Definition work_type_str (work_type : Z) : string :=
  if work_type =? ompt_work_loop then "loop"
  else if work_type =? ompt_work_sections then "sections"
  else if work_type =? ompt_work_single_executor then "single"
  else if work_type =? ompt_work_single_other then "single_other"
  else if work_type =? ompt_work_workshare then "workshare"
  else if work_type =? ompt_work_distribute then "distribute"
  else if work_type =? ompt_work_taskloop then "taskloop"
  else "unknown".

Definition on_ompt_callback_work (work_type endpoint count : Z) : M unit :=
  let* timestamp := get_timestamp in
  let* thread_id := omp_get_thread_num in
  let event_type : string := if endpoint =? ompt_scope_begin then "START" else "END" in
  printf ("[OMPT] Thread %d WORK %s at %.3f ms (type: %s, count: %lu)" +:+ LF)
         [Int thread_id; Str event_type; Double (ddiv timestamp d1000);
          Str (work_type_str work_type); ULong count].

Definition on_ompt_callback_implicit_task (endpoint team_size : Z) : M unit :=
  let* timestamp := get_timestamp in
  let* thread_id := omp_get_thread_num in
  let event_type : string :=
    if endpoint =? ompt_scope_begin then "TASK START" else "TASK FINISH" in
  printf ("[OMPT] Thread %d %s at %.3f ms (team size: %u)" +:+ LF)
         [Int thread_id; Str event_type; Double (ddiv timestamp d1000); UInt team_size].

Definition sync_type_str (kind : Z) : string :=
  if kind =? ompt_sync_region_barrier then "barrier"
  else if kind =? ompt_sync_region_barrier_implicit then "implicit_barrier"
  else if kind =? ompt_sync_region_barrier_explicit then "explicit_barrier"
  else if kind =? ompt_sync_region_barrier_implementation then "implementation_barrier"
  else if kind =? ompt_sync_region_taskwait then "taskwait"
  else if kind =? ompt_sync_region_taskgroup then "taskgroup"
  else if kind =? ompt_sync_region_reduction then "reduction"
  else "unknown".

Definition on_ompt_callback_sync_region (kind endpoint : Z) : M unit :=
  let* timestamp := get_timestamp in
  let* thread_id := omp_get_thread_num in
  let event_type : string := if endpoint =? ompt_scope_begin then "ENTER" else "EXIT" in
  printf ("[OMPT] Thread %d %s %s at %.3f ms" +:+ LF)
         [Int thread_id; Str event_type; Str (sync_type_str kind);
          Double (ddiv timestamp d1000)].

(** The runtime's [ompt_set_callback], when [lookup] resolves it: any
    statement of the runtime, returning an [ompt_set_result_t]. *)
Definition ompt_set_callback_t : Type := Z → callback → M Z.

Definition initializer (lookup : string → option ompt_set_callback_t) : M Z :=
  printf ("OMPT Tool Initialized" +:+ LF) [] ;;;
  match lookup "ompt_set_callback" with
  | Some ompt_set_callback =>
      ompt_set_callback ompt_callback_parallel_begin cb_parallel_begin ;;;
      ompt_set_callback ompt_callback_parallel_end cb_parallel_end ;;;
      ompt_set_callback ompt_callback_work cb_work ;;;
      ompt_set_callback ompt_callback_implicit_task cb_implicit_task ;;;
      ompt_set_callback ompt_callback_sync_region cb_sync_region ;;;
      printf ("OMPT callbacks registered successfully" +:+ LF) []
  | None =>
      printf ("Warning: Could not register OMPT callbacks" +:+ LF) []
  end ;;;
  ret 1.

Definition finalizer : M unit :=
  printf ("OMPT Tool Finalized" +:+ LF) [].

End Tool.

(** ** The entry point

    The types of the two entry points of a tool, as the runtime calls
    them, and [ompt_start_tool_result_t]; a null function pointer is
    [None]. *)
Definition ompt_initialize_t : Type := (string → option ompt_set_callback_t) → M Z.
Definition ompt_finalize_t : Type := M unit.

Record ompt_start_tool_result_t : Type := StartToolResult {
  initialize : option ompt_initialize_t;
  finalize : option ompt_finalize_t;
  tool_data : Z
}.

(** What [ompt_start_tool] may return: a null pointer, or the address of
    its static [result]. *)
Inductive result_pointer : Type := null | address_of_result.

Section StartTool.
Context `{OT : omp_tools}.

(** The state of the function is the content of its static [result]; the
    three assignments are made one after the other. *)
Definition ompt_start_tool (omp_version : Z) (runtime_version : string)
    (result : ompt_start_tool_result_t) : result_pointer * ompt_start_tool_result_t :=
  let result := StartToolResult (Some initializer) (finalize result) (tool_data result) in
  let result := StartToolResult (initialize result) (Some finalizer) (tool_data result) in
  let result := StartToolResult (initialize result) (finalize result) 0 in
  (address_of_result, result).

End StartTool.

(** A runtime whose registration function stores the handler in its table
    and answers [ompt_set_always] (5). *)
Definition runtime_set_callback : ompt_set_callback_t :=
  λ event cb w, (5, with_callback_table (<[event := cb]> (callback_table w)) w).

Definition runtime_lookup (name : string) : option ompt_set_callback_t :=
  if String.eqb name "ompt_set_callback" then Some runtime_set_callback else None.

(** A process at start-up: globals at their initialisers, nothing done. *)
Definition boot (env : gmap string string) (clock : nat → timespec) : world :=
  World env clock 0 ∅ false true [].

Definition tick_clock (n : nat) : timespec := Timespec (Z.of_nat n) 250000.

Example annotate_when_loaded :
  stdout (exec (ompt_annotate "ROI_START")
               (boot {[ "OMP_TOOL_LIBRARIES"%string := "./libtool.so"%string ]} tick_clock))
  = "[OMPT_annotation] Thread 0 Annotation at 0.250 ms: ROI_START" +:+ LF.
Proof. vm_compute. reflexivity. Qed.

(** ** Runs of a process

    What the application and the runtime may do, one call after the other:
    the annotation interface, the five handlers, and changes of the
    environment between calls. *)
Inductive call : Type :=
  | Annotate (annotation : string)
  | MarkRoiStart
  | MarkRoiEnd
  | ParallelBegin (requested_parallelism : Z)
  | ParallelEnd
  | Work (work_type endpoint count : Z)
  | ImplicitTask (endpoint team_size : Z)
  | SyncRegion (kind endpoint : Z)
  | Setenv (name value : string)
  | Unsetenv (name : string).

Definition setenv (name value : string) : M unit :=
  λ w, (tt, with_environ (<[name := value]> (environ w)) w).
Definition unsetenv (name : string) : M unit :=
  λ w, (tt, with_environ (delete name (environ w)) w).

Definition is_annotation (c : call) : bool :=
  match c with Annotate _ | MarkRoiStart | MarkRoiEnd => true | _ => false end.
Definition is_lifecycle (c : call) : bool :=
  match c with
  | ParallelBegin _ | ParallelEnd | Work _ _ _ | ImplicitTask _ _ | SyncRegion _ _ => true
  | _ => false
  end.

Section Runs.
Context `{OT : omp_tools}.

Definition perform (c : call) : M unit :=
  match c with
  | Annotate a => ompt_annotate a
  | MarkRoiStart => ompt_mark_roi_start
  | MarkRoiEnd => ompt_mark_roi_end
  | ParallelBegin n => on_ompt_callback_parallel_begin n
  | ParallelEnd => on_ompt_callback_parallel_end
  | Work t e n => on_ompt_callback_work t e n
  | ImplicitTask e n => on_ompt_callback_implicit_task e n
  | SyncRegion k e => on_ompt_callback_sync_region k e
  | Setenv n v => setenv n v
  | Unsetenv n => unsetenv n
  end.

(** One step: the call [c] made on the worker whose number is [t], from
    its first statement to its return. *)
Definition step (w : world) (tc : Z * call) : world :=
  exec (perform (snd tc)) (with_thread_num (fst tc) w).

(** A run is a serial schedule: its calls do not overlap, each one
    returns before the next is made, on the same worker or on another.
    Calls that overlap on several workers are run by [interleave]
    below. *)
Definition run (cs : list (Z * call)) (w : world) : world := fold_left step cs w.

End Runs.

(** The runtime's side of the tool protocol: it calls [ompt_start_tool];
    when the answer is not null it calls the [initialize] entry and keeps
    the tool when that returns non-zero; it then delivers the events of
    the program and calls the [finalize] entry at shutdown.  The value
    tells whether the tool was kept. *)
Section Session.
Context `{OT : omp_tools}.

Definition session (omp_version : Z) (runtime_version : string)
    (lookup : string → option ompt_set_callback_t) (events : list (Z * call))
    (result : ompt_start_tool_result_t) : M bool :=
  match ompt_start_tool omp_version runtime_version result with
  | (null, _) => ret false
  | (address_of_result, result) =>
      match initialize result, finalize result with
      | Some tool_initialize, Some tool_finalize =>
          let* status := tool_initialize lookup in
          if status =? 0 then ret false
          else (λ w, (tt, run events w)) ;;; tool_finalize ;;; ret true
      | _, _ => ret false
      end
  end.

End Session.

(** ** Workers that run at the same time

    The runtime calls the handlers on the worker that meets the event,
    the application calls the annotation interface on the worker that
    runs the annotated code, and workers run at the same time, with no
    synchronisation in the tool.  What a call does to what the workers
    share (the two flags, the environment, the clock, the output) it
    does one access at a time, and accesses of other workers may fall
    between any two of them: between [clock_gettime] (inside
    [get_timestamp]) and [printf], while the timestamp waits in a local
    variable, and between the tests and assignments of the flags in
    [ompt_annotate]. *)

Section Reports.
Context `{OT : omp_tools}.

(** The last two statements of [ompt_annotate]. *)
Definition annotation_report (annotation : string) (timestamp : double) : M unit :=
  let* thread_id := omp_get_thread_num in
  printf ("[OMPT_annotation] Thread %d Annotation at %.3f ms: %s" +:+ LF)
         [Int thread_id; Double (ddiv timestamp d1000); Str annotation].

(** What is left of a call once [get_timestamp] has returned
    [timestamp]. *)
Definition report (c : call) (timestamp : double) : M unit :=
  match c with
  | Annotate annotation => annotation_report annotation timestamp
  | MarkRoiStart => annotation_report "ROI_START" timestamp
  | MarkRoiEnd => annotation_report "ROI_END" timestamp
  | ParallelBegin requested_parallelism =>
      let* thread_id := omp_get_thread_num in
      printf ("[OMPT] Thread %d PARALLEL BEGIN at %.3f ms (requested threads: %u)" +:+ LF)
             [Int thread_id; Double (ddiv timestamp d1000); UInt requested_parallelism]
  | ParallelEnd =>
      let* thread_id := omp_get_thread_num in
      printf ("[OMPT] Thread %d PARALLEL END at %.3f ms" +:+ LF)
             [Int thread_id; Double (ddiv timestamp d1000)]
  | Work work_type endpoint count =>
      let* thread_id := omp_get_thread_num in
      let event_type : string := if endpoint =? ompt_scope_begin then "START" else "END" in
      printf ("[OMPT] Thread %d WORK %s at %.3f ms (type: %s, count: %lu)" +:+ LF)
             [Int thread_id; Str event_type; Double (ddiv timestamp d1000);
              Str (work_type_str work_type); ULong count]
  | ImplicitTask endpoint team_size =>
      let* thread_id := omp_get_thread_num in
      let event_type : string :=
        if endpoint =? ompt_scope_begin then "TASK START" else "TASK FINISH" in
      printf ("[OMPT] Thread %d %s at %.3f ms (team size: %u)" +:+ LF)
             [Int thread_id; Str event_type; Double (ddiv timestamp d1000); UInt team_size]
  | SyncRegion kind endpoint =>
      let* thread_id := omp_get_thread_num in
      let event_type : string := if endpoint =? ompt_scope_begin then "ENTER" else "EXIT" in
      printf ("[OMPT] Thread %d %s %s at %.3f ms" +:+ LF)
             [Int thread_id; Str event_type; Str (sync_type_str kind);
              Double (ddiv timestamp d1000)]
  | Setenv _ _ | Unsetenv _ => ret tt
  end.

End Reports.

(** Where a worker is inside a call: what it does next. *)
Inductive stage : Type :=
  | Checking                                 (* first_call was set: getenv(...) *)
  | Found (ompt_tool_libraries : option string)  (* ompt_loaded = true or = false *)
  | Latching                                 (* first_call = false *)
  | Testing                                  (* if (!ompt_loaded) return *)
  | Reading                                  (* get_timestamp() *)
  | Holding (timestamp : double).            (* printf(...) *)

(** A worker: the calls it has still to make, each with the thread
    number it has at that call, and, while it is inside a call, that
    call and the stage it has reached. *)
Record worker : Type := Worker {
  inside : option (Z * call * stage);
  ahead : list (Z * call)
}.

(** The workers, the world they share, and the history of the world with
    the worker that made each entry. *)
Record machine : Type := Machine {
  workers : list worker;
  shared : world;
  trace : list (nat * effect)
}.

Section Machine.
Context `{OT : omp_tools}.

(** [m] as the worker whose thread number is [t] runs it. *)
Definition on {A : Type} (t : Z) (m : M A) : M A := λ w, m (with_thread_num t w).

(** The next access of a worker to the shared world, and the worker
    after it.  A handler begins with [get_timestamp]; [ompt_annotate]
    begins with the test of [first_call]; a change of the environment is
    one access. *)
Definition next (x : worker) : M worker :=
  match x with
  | Worker (Some (t, c, s)) rest =>
      let at_stage (s' : stage) := Worker (Some (t, c, s')) rest in
      on t
        match s with
        | Checking =>
            let* ompt_tool_libraries := getenv "OMP_TOOL_LIBRARIES" in
            ret (at_stage (Found ompt_tool_libraries))
        | Found ompt_tool_libraries =>
            match ompt_tool_libraries with
            | Some _ => store_ompt_loaded true
            | None => store_ompt_loaded false
            end ;;;
            ret (at_stage Latching)
        | Latching =>
            store_first_call false ;;;
            ret (at_stage Testing)
        | Testing =>
            let* loaded := load_ompt_loaded in
            ret (if negb loaded then Worker None rest else at_stage Reading)
        | Reading =>
            let* timestamp := get_timestamp in
            ret (at_stage (Holding timestamp))
        | Holding timestamp =>
            report c timestamp ;;;
            ret (Worker None rest)
        end
  | Worker None ((t, c) :: rest) =>
      let at_stage (s' : stage) := Worker (Some (t, c, s')) rest in
      on t
        match c with
        | Annotate _ | MarkRoiStart | MarkRoiEnd =>
            let* fc := load_first_call in
            ret (if fc then at_stage Checking else at_stage Testing)
        | Setenv name value =>
            setenv name value ;;;
            ret (Worker None rest)
        | Unsetenv name =>
            unsetenv name ;;;
            ret (Worker None rest)
        | _ =>
            let* timestamp := get_timestamp in
            ret (at_stage (Holding timestamp))
        end
  | Worker None [] => ret x
  end.

(** What [w'] has in its history beyond [w]. *)
Definition news (w w' : world) : list effect :=
  drop (List.length (effects w)) (effects w').

(** Worker [i] takes a turn: its next access. *)
Definition turn (i : nat) (m : machine) : machine :=
  match workers m !! i with
  | Some x =>
      let '(x', w) := next x (shared m) in
      Machine (<[i := x']> (workers m)) w
              (trace m ++ List.map (pair i) (news (shared m) w))
  | None => m
  end.

(** The workers take turns as the schedule says. *)
Definition interleave (schedule : list nat) (m : machine) : machine :=
  fold_left (λ m i, turn i m) schedule m.

Definition start (programs : list (list (Z * call))) (w : world) : machine :=
  Machine (List.map (Worker None) programs) w [].

(** One worker alone: [k] accesses, one after the other. *)
Fixpoint alone (k : nat) (x : worker) : M worker :=
  match k with
  | O => ret x
  | S k => let* x' := next x in alone k x'
  end.

End Machine.

(** The activation state a call of the annotation interface will see:
    the presence of the variable if the check is still to come, the
    latched value otherwise. *)
Definition env_present (w : world) : bool :=
  bool_decide (is_Some (environ w !! "OMP_TOOL_LIBRARIES"%string)).
Definition activation (w : world) : bool :=
  if first_call w then env_present w else ompt_loaded w.

(** * Output text *)

Definition all_chars (P : ascii → bool) (s : string) : bool :=
  forallb P (list_ascii_of_string s).

Definition is_digit (c : ascii) : bool := (Ascii.leb "0" c && Ascii.leb c "9")%char.
Definition not_lf (c : ascii) : bool := negb (Ascii.eqb c "010").
Definition plain_char (c : ascii) : bool := is_digit c || Ascii.eqb c "-".

(** A string without line feed. *)
Definition lf_free (s : string) : bool := all_chars not_lf s.

(** A non-empty string of decimal digits. *)
Definition digits (s : string) : bool :=
  all_chars is_digit s && negb (String.eqb s EmptyString).

(** One line of output: the first line feed is the last byte. *)
Fixpoint one_line (s : string) : bool :=
  match s with
  | EmptyString => false
  | String c rest => if Ascii.eqb c "010" then String.eqb rest EmptyString else one_line rest
  end.

(** [needle] occurs in [hay]. *)
Definition contains (needle hay : string) : Prop :=
  ∃ pre post, hay = pre +:+ needle +:+ post.

(** A number with an integer part, a point and three decimals. *)
Definition is_fixed3 (s : string) : Prop :=
  ∃ ip fp, s = ip +:+ "." +:+ fp ∧ digits ip = true ∧
           all_chars is_digit fp = true ∧ String.length fp = 3%nat.

Section StringFacts.

Lemma append_cons (x : ascii) (a b : string) : String x a +:+ b = String x (a +:+ b).
Proof. reflexivity. Qed.

Lemma append_assoc (a b c : string) : (a +:+ b) +:+ c = a +:+ b +:+ c.
Proof.
  induction a as [|x a IH]; [reflexivity|]. rewrite !append_cons. now rewrite IH.
Qed.

Lemma append_nil_r (a : string) : a +:+ "" = a.
Proof.
  induction a as [|x a IH]; [reflexivity|]. rewrite append_cons. now rewrite IH.
Qed.

Lemma all_chars_app P (a b : string) :
  all_chars P (a +:+ b) = all_chars P a && all_chars P b.
Proof.
  unfold all_chars. induction a as [|x a IH]; [reflexivity|].
  rewrite append_cons. simpl. rewrite IH. now rewrite andb_assoc.
Qed.

Lemma all_chars_impl (P Q : ascii → bool) (s : string) :
  (∀ c, P c = true → Q c = true) → all_chars P s = true → all_chars Q s = true.
Proof.
  intros HPQ. unfold all_chars. induction s as [|x s IH]; simpl; [easy|].
  intros [Hx Hs]%andb_prop. rewrite (HPQ _ Hx). simpl. auto.
Qed.

Lemma plain_not_lf c : plain_char c = true → not_lf c = true.
Proof. destruct c as [[] [] [] [] [] [] [] []]; vm_compute; congruence. Qed.

Lemma digit_plain c : is_digit c = true → plain_char c = true.
Proof. unfold plain_char. now intros ->. Qed.

Lemma lf_free_app (a b : string) : lf_free (a +:+ b) = lf_free a && lf_free b.
Proof. apply all_chars_app. Qed.

Lemma one_line_intro (body : string) : lf_free body = true → one_line (body +:+ LF) = true.
Proof.
  induction body as [|x body IH]; [reflexivity|].
  unfold lf_free, all_chars. simpl. intros [Hx Hb]%andb_prop.
  unfold not_lf in Hx. apply negb_true_iff in Hx.
  rewrite Hx. now apply IH.
Qed.

Lemma contains_here (needle post : string) : contains needle (needle +:+ post).
Proof. now exists EmptyString, post. Qed.

Lemma contains_skip (pre needle hay : string) :
  contains needle hay → contains needle (pre +:+ hay).
Proof.
  intros (a & b & ->). exists (pre +:+ a), b. symmetry. apply append_assoc.
Qed.

(** *** Decimal numbers *)

Lemma string_of_uint_digits (d : Decimal.uint) :
  all_chars is_digit (NilEmpty.string_of_uint d) = true.
Proof. induction d; simpl; auto. Qed.

Lemma nilzero_uint_digits (d : Decimal.uint) :
  digits (NilZero.string_of_uint d) = true.
Proof.
  unfold digits. destruct d; simpl; try reflexivity;
    rewrite andb_true_r; apply string_of_uint_digits.
Qed.

Lemma dec_nonneg (z : Z) : 0 ≤ z → digits (dec z) = true.
Proof.
  intros Hz. unfold dec. destruct z as [|p|p]; [reflexivity| |lia].
  apply nilzero_uint_digits.
Qed.

Lemma dec_plain (z : Z) : all_chars plain_char (dec z) = true.
Proof.
  destruct z as [|p|p].
  - reflexivity.
  - apply (all_chars_impl is_digit); [apply digit_plain|].
    pose proof (dec_nonneg (Z.pos p) ltac:(lia)) as H.
    now apply andb_prop in H.
  - unfold dec. simpl.
    pose proof (nilzero_uint_digits (Pos.to_uint p)) as [H _]%andb_prop.
    unfold NilZero.string_of_int. 
    change (all_chars plain_char (String "-" (NilZero.string_of_uint (Pos.to_uint p))) = true).
    unfold all_chars. simpl.
    apply (all_chars_impl is_digit); [apply digit_plain| exact H].
Qed.

Lemma dec_lf_free (z : Z) : lf_free (dec z) = true.
Proof. apply (all_chars_impl plain_char); [apply plain_not_lf | apply dec_plain]. Qed.

Lemma dec_one_digit (d : Z) :
  0 ≤ d < 10 → ∃ c, dec d = String c EmptyString ∧ is_digit c = true.
Proof.
  intros Hd.
  assert (d = 0 ∨ d = 1 ∨ d = 2 ∨ d = 3 ∨ d = 4 ∨ d = 5 ∨ d = 6 ∨ d = 7 ∨ d = 8 ∨ d = 9)
    as H by lia.
  repeat destruct H as [-> | H]; try subst d; eexists; split; reflexivity.
Qed.

Lemma pad3_digits (k : Z) :
  0 ≤ k < 1000 → all_chars is_digit (pad3 k) = true ∧ String.length (pad3 k) = 3%nat.
Proof.
  intros Hk. unfold pad3.
  destruct (dec_one_digit (k / 100)) as (a & -> & Ha).
  { split; [apply Z.div_pos; lia | apply Z.div_lt_upper_bound; lia]. }
  destruct (dec_one_digit (k / 10 mod 10)) as (b & -> & Hb).
  { apply Z.mod_pos_bound. lia. }
  destruct (dec_one_digit (k mod 10)) as (c & -> & Hc).
  { apply Z.mod_pos_bound. lia. }
  unfold all_chars. simpl. now rewrite Ha, Hb, Hc.
Qed.

End StringFacts.

(** * Symbolic execution of the source *)

(** The text of a record: prefix, worker, event, the reading [ts] of the
    clock printed in milliseconds, and what follows the unit. *)
Definition ms_field (ts : timespec) : string := fixed3 (ddiv (timestamp_of ts) d1000).

Definition record (prefix : string) (thread_id : Z) (event : string)
    (ts : timespec) (tail : string) : string :=
  "[" +:+ prefix +:+ "] Thread " +:+ dec (wrap_signed 32 thread_id) +:+ " " +:+ event
      +:+ " at " +:+ ms_field ts +:+ " ms" +:+ tail +:+ LF.

(** The reading the next call of [clock_gettime] returns. *)
Definition now (w : world) : timespec := monotonic_clock w (clock_reads w).

Section Effects.

Lemma written_app (es fs : list effect) : written (es ++ fs) = written es +:+ written fs.
Proof.
  induction es as [|[] es IH]; simpl; try assumption; [reflexivity|].
  rewrite IH. symmetry. apply append_assoc.
Qed.

Lemma stdout_emit_out (s : string) (w : world) : stdout (emit (Stdout s) w) = stdout w +:+ s.
Proof. unfold stdout. simpl. rewrite written_app. simpl. now rewrite append_nil_r. Qed.

Lemma stdout_emit_clock (w : world) : stdout (emit ClockGettime w) = stdout w.
Proof. unfold stdout. simpl. rewrite written_app. simpl. now rewrite append_nil_r. Qed.

Lemma stdout_emit_getenv (n : string) (w : world) : stdout (emit (Getenv n) w) = stdout w.
Proof. unfold stdout. simpl. rewrite written_app. simpl. now rewrite append_nil_r. Qed.

Lemma clock_reads_emit (e : effect) (w : world) :
  clock_reads (emit e w) = (clock_reads w + (if is_clock_read e then 1 else 0))%nat.
Proof.
  unfold clock_reads. simpl. rewrite List.filter_app, List.length_app. simpl.
  now destruct (is_clock_read e).
Qed.

Lemma env_lookups_emit (e : effect) (w : world) :
  env_lookups (emit e w) = (env_lookups w + (if is_getenv e then 1 else 0))%nat.
Proof.
  unfold env_lookups. simpl. rewrite List.filter_app, List.length_app. simpl.
  now destruct (is_getenv e).
Qed.

Lemma effects_emit2 (e f : effect) (w : world) :
  effects (emit f (emit e w)) = effects w ++ [e; f].
Proof. simpl. now rewrite <- List.app_assoc. Qed.

End Effects.

(** Both sides of an equation between texts are brought to the same
    right-nested concatenation. *)
Ltac same_text := unfold record; rewrite ?append_assoc; reflexivity.

Section Execution.
Context `{OT : omp_tools}.

Lemma env_present_eq (w : world) :
  env_present w =
  match environ w !! "OMP_TOOL_LIBRARIES"%string with Some _ => true | None => false end.
Proof.
  unfold env_present. destruct (environ w !! "OMP_TOOL_LIBRARIES"%string).
  - apply bool_decide_eq_true_2. eauto.
  - apply bool_decide_eq_false_2. intros [? ?]. congruence.
Qed.

Lemma check_ompt_loaded_eq (w : world) :
  check_ompt_loaded w =
  (tt, with_ompt_loaded (env_present w) (emit (Getenv "OMP_TOOL_LIBRARIES") w)).
Proof.
  rewrite env_present_eq. unfold check_ompt_loaded, bind, getenv.
  now destruct (environ w !! "OMP_TOOL_LIBRARIES"%string).
Qed.

Lemma get_timestamp_eq (w : world) :
  get_timestamp w = (timestamp_of (now w), emit ClockGettime w).
Proof. reflexivity. Qed.

Lemma parallel_begin_eq (n : Z) (w : world) :
  exec (on_ompt_callback_parallel_begin n) w =
  emit (Stdout (record "OMPT" (thread_num w) "PARALLEL BEGIN" (now w)
                  (" (requested threads: " +:+ dec (wrap_unsigned 32 n) +:+ ")")))
       (emit ClockGettime w).
Proof. same_text. Qed.

Lemma parallel_end_eq (w : world) :
  exec on_ompt_callback_parallel_end w =
  emit (Stdout (record "OMPT" (thread_num w) "PARALLEL END" (now w) "")) (emit ClockGettime w).
Proof. reflexivity. Qed.

Lemma work_eq (work_type endpoint count : Z) (w : world) :
  exec (on_ompt_callback_work work_type endpoint count) w =
  emit (Stdout (record "OMPT" (thread_num w)
                  ("WORK " +:+ (if endpoint =? ompt_scope_begin then "START" else "END"))
                  (now w)
                  (" (type: " +:+ work_type_str work_type +:+ ", count: "
                     +:+ dec (wrap_unsigned 64 count) +:+ ")")))
       (emit ClockGettime w).
Proof.
  unfold on_ompt_callback_work. destruct (endpoint =? ompt_scope_begin); same_text.
Qed.

Lemma implicit_task_eq (endpoint team_size : Z) (w : world) :
  exec (on_ompt_callback_implicit_task endpoint team_size) w =
  emit (Stdout (record "OMPT" (thread_num w)
                  (if endpoint =? ompt_scope_begin then "TASK START" else "TASK FINISH")
                  (now w)
                  (" (team size: " +:+ dec (wrap_unsigned 32 team_size) +:+ ")")))
       (emit ClockGettime w).
Proof.
  unfold on_ompt_callback_implicit_task. destruct (endpoint =? ompt_scope_begin); same_text.
Qed.

Lemma sync_region_eq (kind endpoint : Z) (w : world) :
  exec (on_ompt_callback_sync_region kind endpoint) w =
  emit (Stdout (record "OMPT" (thread_num w)
                  ((if endpoint =? ompt_scope_begin then "ENTER" else "EXIT")
                     +:+ " " +:+ sync_type_str kind)
                  (now w) ""))
       (emit ClockGettime w).
Proof.
  unfold on_ompt_callback_sync_region. destruct (endpoint =? ompt_scope_begin); same_text.
Qed.

(** The first-call block of [ompt_annotate]: the check and the latch. *)
Definition latch (w : world) : world :=
  if first_call w
  then with_first_call false
         (with_ompt_loaded (env_present w) (emit (Getenv "OMP_TOOL_LIBRARIES") w))
  else w.

Lemma ompt_annotate_eq (annotation : string) (w : world) :
  exec (ompt_annotate annotation) w =
  if ompt_loaded (latch w)
  then emit (Stdout (record "OMPT_annotation" (thread_num w) "Annotation" (now (latch w))
                       (": " +:+ annotation)))
            (emit ClockGettime (latch w))
  else latch w.
Proof.
  unfold ompt_annotate, exec, bind, load_first_call, latch.
  destruct (first_call w) eqn:Hfc.
  - rewrite check_ompt_loaded_eq. unfold store_first_call, load_ompt_loaded. cbn [snd fst].
    destruct (env_present w); cbn -[record sprintf]; [same_text | reflexivity].
  - unfold ret, load_ompt_loaded.
    destruct (ompt_loaded w); cbn -[record sprintf]; [same_text | reflexivity].
Qed.

Lemma latch_ompt_loaded (w : world) : ompt_loaded (latch w) = activation w.
Proof. unfold latch, activation. now destruct (first_call w). Qed.

Lemma latch_first_call (w : world) : first_call (latch w) = false.
Proof. unfold latch. now destruct (first_call w) eqn:E. Qed.

Lemma latch_environ (w : world) : environ (latch w) = environ w.
Proof. unfold latch. now destruct (first_call w). Qed.

Lemma latch_effects (w : world) :
  effects (latch w) =
  effects w ++ (if first_call w then [Getenv "OMP_TOOL_LIBRARIES"] else []).
Proof. unfold latch. destruct (first_call w); simpl; [reflexivity | now rewrite List.app_nil_r]. Qed.

Lemma latch_stdout (w : world) : stdout (latch w) = stdout w.
Proof. unfold latch. destruct (first_call w); [apply stdout_emit_getenv | reflexivity]. Qed.

Lemma latch_clock_reads (w : world) : clock_reads (latch w) = clock_reads w.
Proof.
  unfold latch. destruct (first_call w); [|reflexivity].
  change (clock_reads (emit (Getenv "OMP_TOOL_LIBRARIES") w) = clock_reads w).
  rewrite clock_reads_emit. simpl. lia.
Qed.

Lemma latch_now (w : world) : now (latch w) = now w.
Proof.
  unfold now. rewrite latch_clock_reads. unfold latch. now destruct (first_call w).
Qed.

End Execution.

(** * Range of the timestamp arithmetic

    The operations of binary64 are followed through their rounding to
    bound the magnitude of a result: the timestamps computed from a
    reading of the clock are finite and not negative. *)

Section Bounds.

Lemma digits2_pos_size (p : positive) : digits2_pos p = Pos.size p.
Proof. induction p; simpl; congruence. Qed.

Lemma Zdigits2_log2 (m : Z) : 0 < m → Zdigits2 m = Z.log2 m + 1.
Proof.
  destruct m as [|p|p]; try lia. intros _. simpl. rewrite digits2_pos_size.
  destruct p; simpl; lia.
Qed.

Lemma Zdigits2_nonneg (m : Z) : 0 ≤ Zdigits2 m.
Proof. destruct m; simpl; lia. Qed.

Lemma Zdigits2_pos (m : Z) : 0 < m → 0 < Zdigits2 m.
Proof. destruct m; simpl; lia. Qed.

Lemma Zdigits2_le (m n : Z) : 0 < m → (Zdigits2 m ≤ n ↔ m < 2 ^ n).
Proof.
  intros Hm. rewrite Zdigits2_log2 by assumption.
  rewrite Z.log2_lt_pow2 by assumption. lia.
Qed.

Lemma Zdigits2_lower (m : Z) : 0 < m → 2 ^ (Zdigits2 m - 1) ≤ m.
Proof.
  intros Hm. rewrite Zdigits2_log2 by assumption.
  replace (Z.log2 m + 1 - 1) with (Z.log2 m) by lia.
  now apply Z.log2_spec.
Qed.

Lemma Zdigits2_mono (a b : Z) : 0 ≤ a ≤ b → Zdigits2 a ≤ Zdigits2 b.
Proof.
  intros [Ha Hab]. destruct (Z.eq_dec a 0) as [->|Hne]; [apply Zdigits2_nonneg|].
  rewrite !Zdigits2_log2 by lia. pose proof (Z.log2_le_mono a b Hab). lia.
Qed.

Lemma Zdigits2_succ (a : Z) : 0 ≤ a → Zdigits2 (a + 1) ≤ Zdigits2 a + 1.
Proof.
  intros Ha. destruct (Z.eq_dec a 0) as [->|Hne]; [simpl; lia|].
  rewrite !Zdigits2_log2 by lia. pose proof (Z.log2_succ_le a). unfold Z.succ in *. lia.
Qed.

Lemma shr_1_digits (r : shr_record) :
  0 ≤ shr_m r →
  0 ≤ shr_m (shr_1 r) ∧ Zdigits2 (shr_m (shr_1 r)) = Z.max 0 (Zdigits2 (shr_m r) - 1).
Proof.
  destruct r as [m r s]. simpl. intros Hm.
  destruct m as [|[p|p|]|p]; simpl; try lia.
Qed.

Lemma iter_pos_shift {A} (f : A → A) (P : Z → A → Prop) :
  (∀ k x, P k x → P (k + 1) (f x)) →
  ∀ p k x, P k x → P (k + Z.pos p) (SpecFloat.iter_pos f p x).
Proof.
  intros Hf. induction p as [p IH|p IH|]; intros k x Hx; simpl.
  - rewrite Pos2Z.inj_xI. replace (k + (2 * Z.pos p + 1)) with (k + 1 + Z.pos p + Z.pos p) by lia.
    auto.
  - rewrite Pos2Z.inj_xO. replace (k + 2 * Z.pos p) with (k + Z.pos p + Z.pos p) by lia. auto.
  - auto.
Qed.

Lemma shr_digits (r : shr_record) (e n : Z) :
  0 ≤ shr_m r →
  0 ≤ shr_m (fst (shr r e n)) ∧ snd (shr r e n) = e + Z.max 0 n ∧
  Zdigits2 (shr_m (fst (shr r e n))) = Z.max 0 (Zdigits2 (shr_m r) - Z.max 0 n).
Proof.
  intros Hr. destruct n as [|p|p]; simpl.
  - pose proof (Zdigits2_nonneg (shr_m r)). lia.
  - pose proof (iter_pos_shift shr_1
      (λ k x, 0 ≤ shr_m x ∧ Zdigits2 (shr_m x) = Z.max 0 (Zdigits2 (shr_m r) - k))) as H.
    destruct (H ltac:(intros k x [H0 H1]; destruct (shr_1_digits x H0); lia) p 0 r) as [H0 H1].
    { pose proof (Zdigits2_nonneg (shr_m r)). lia. }
    simpl in H1. split; [assumption|]. split; [lia|]. rewrite H1. lia.
  - pose proof (Zdigits2_nonneg (shr_m r)). lia.
Qed.

Lemma shr_m_of_loc m l : shr_m (shr_record_of_loc m l) = m.
Proof. destruct l as [|[]]; reflexivity. Qed.

Lemma round_nearest_even_bounds m l : m ≤ round_nearest_even m l ≤ m + 1.
Proof. destruct l as [|[]]; simpl; try lia. destruct (Z.even m); lia. Qed.

(** Non-negative finite doubles below [2^B]. *)
Definition below (B : Z) (x : double) : Prop :=
  match x with
  | S754_zero s => s = false
  | S754_finite s m e => s = false ∧ Z.pos (digits2_pos m) + e ≤ B ∧ e ≤ emax - prec
  | _ => False
  end.

Lemma binary_round_aux_below (m e : Z) (l : location) (B : Z) :
  0 ≤ m → Zdigits2 m + e ≤ B → e ≤ emax - prec → -1074 ≤ B ≤ 1023 →
  below (B + 1) (binary_round_aux prec emax false m e l).
Proof.
  intros Hm HB He HBr. unfold binary_round_aux, shr_fexp.
  set (n1 := fexp prec emax (Zdigits2 m + e) - e).
  pose proof (shr_digits (shr_record_of_loc m l) e n1) as H1.
  rewrite shr_m_of_loc in H1. specialize (H1 Hm).
  destruct (shr (shr_record_of_loc m l) e n1) as [mrs' e']. simpl in H1.
  destruct H1 as (Hm' & He' & Hd').
  set (m1 := round_nearest_even (shr_m mrs') (loc_of_shr_record mrs')).
  pose proof (round_nearest_even_bounds (shr_m mrs') (loc_of_shr_record mrs')) as Hm1.
  fold m1 in Hm1.
  set (n2 := fexp prec emax (Zdigits2 m1 + e') - e').
  pose proof (shr_digits (shr_record_of_loc m1 loc_Exact) e' n2) as H2.
  rewrite shr_m_of_loc in H2. specialize (H2 ltac:(lia)).
  destruct (shr (shr_record_of_loc m1 loc_Exact) e' n2) as [mrs'' e'']. simpl in H2.
  destruct H2 as (Hm'' & He'' & Hd'').
  assert (Zdigits2 m1 ≤ Zdigits2 (shr_m mrs') + 1) as Hd1.
  { etransitivity; [apply (Zdigits2_mono m1 (shr_m mrs' + 1)); lia | apply Zdigits2_succ; lia]. }
  pose proof (Zdigits2_nonneg m1) as Hd1'.
  pose proof (Zdigits2_nonneg m) as HD.
  subst n1 n2. unfold fexp, emin, prec, emax in *.
  destruct (shr_m mrs'') as [|p|p] eqn:Ep; simpl; [reflexivity | | lia].
  change (Z.pos (digits2_pos p)) with (Zdigits2 (Z.pos p)) in *.
  assert (0 < Zdigits2 (Z.pos p)) by (apply Zdigits2_pos; lia).
  destruct (e'' <=? 1024 - 53) eqn:Ele.
  - simpl. split; [reflexivity|]. apply Z.leb_le in Ele.
    change (Z.pos (digits2_pos p)) with (Zdigits2 (Z.pos p)). unfold emax, prec. split; lia.
  - apply Z.leb_gt in Ele. simpl. lia.
Qed.


Lemma below_mono (B B' : Z) (x : spec_float) : B ≤ B' → below B x → below B' x.
Proof. destruct x; simpl; auto. intros ? (? & ? & ?). repeat split; auto; lia. Qed.

Lemma Zdigits2_upper (m : Z) : 0 ≤ m → m < 2 ^ Zdigits2 m.
Proof.
  intros Hm. destruct (Z.eq_dec m 0) as [->|Hne]; [reflexivity|].
  apply Zdigits2_le; lia.
Qed.

Lemma digits2_pos_shift (m d : positive) :
  Z.pos (digits2_pos (Pos.iter xO m d)) = Z.pos (digits2_pos m) + Z.pos d.
Proof.
  induction d as [|d IH] using Pos.peano_ind.
  - simpl. lia.
  - rewrite Pos.iter_succ. simpl. lia.
Qed.

Lemma shl_align_digits (mx : positive) (ex ex' : Z) :
  snd (shl_align mx ex ex') = Z.min ex ex' ∧
  Z.pos (digits2_pos (fst (shl_align mx ex ex'))) + snd (shl_align mx ex ex')
  = Z.pos (digits2_pos mx) + ex.
Proof.
  unfold shl_align. destruct (ex' - ex) as [|d|d] eqn:E; simpl; try lia.
  rewrite digits2_pos_shift. lia.
Qed.

Lemma binary_round_below (m : positive) (e B : Z) :
  Z.pos (digits2_pos m) + e ≤ B → -1074 ≤ B ≤ 1023 →
  below (B + 1) (binary_round prec emax false m e).
Proof.
  intros HB HBr. unfold binary_round.
  pose proof (shl_align_digits m e (fexp prec emax (Z.pos (digits2_pos m) + e))) as [H1 H2].
  destruct (shl_align m e _) as [mz ez]. simpl in H1, H2.
  apply binary_round_aux_below; simpl; unfold fexp, emin, emax, prec in *; lia.
Qed.

Lemma binary_normalize_below (m e B : Z) :
  0 ≤ m → Zdigits2 m + e ≤ B → -1074 ≤ B ≤ 1023 →
  below (B + 1) (binary_normalize prec emax m e false).
Proof.
  intros Hm HB HBr. destruct m as [|p|p]; simpl; [reflexivity| |lia].
  now apply binary_round_below.
Qed.

Lemma Zdigits2_mul (a b : Z) : 0 < a → 0 < b → Zdigits2 (a * b) ≤ Zdigits2 a + Zdigits2 b.
Proof.
  intros Ha Hb. apply Zdigits2_le; [lia|].
  pose proof (Zdigits2_upper a ltac:(lia)). pose proof (Zdigits2_upper b ltac:(lia)).
  rewrite Z.pow_add_r by apply Zdigits2_nonneg. nia.
Qed.

Lemma Zdigits2_add (a b : Z) :
  0 < a → 0 < b → Zdigits2 (a + b) ≤ Z.max (Zdigits2 a) (Zdigits2 b) + 1.
Proof.
  intros Ha Hb. apply Zdigits2_le; [lia|].
  pose proof (Zdigits2_upper a ltac:(lia)). pose proof (Zdigits2_upper b ltac:(lia)).
  pose proof (Zdigits2_nonneg a). pose proof (Zdigits2_nonneg b).
  rewrite Z.pow_add_r, Z.pow_1_r by lia.
  assert (2 ^ Zdigits2 a ≤ 2 ^ Z.max (Zdigits2 a) (Zdigits2 b)) by (apply Z.pow_le_mono_r; lia).
  assert (2 ^ Zdigits2 b ≤ 2 ^ Z.max (Zdigits2 a) (Zdigits2 b)) by (apply Z.pow_le_mono_r; lia).
  lia.
Qed.

Lemma SFmul_below (x : spec_float) (my : positive) (ey Bx By : Z) :
  below Bx x → Z.pos (digits2_pos my) + ey ≤ By → ey ≤ 0 → -1074 ≤ Bx + By ≤ 1023 →
  below (Bx + By + 1) (SFmul prec emax x (S754_finite false my ey)).
Proof.
  intros Hx Hy Hey HB. destruct x as [s| | |s mx ex]; simpl in Hx; try contradiction.
  - subst s. reflexivity.
  - destruct Hx as (-> & Hdx & Hex). simpl.
    apply binary_round_aux_below; unfold emax, prec in *; try lia.
    pose proof (Zdigits2_mul (Z.pos mx) (Z.pos my) ltac:(lia) ltac:(lia)) as H.
    simpl in H. simpl. lia.
Qed.

Lemma SFadd_below (x y : spec_float) (B : Z) :
  below B x → below B y → -1074 ≤ B + 1 ≤ 1023 →
  below (B + 2) (SFadd prec emax x y).
Proof.
  intros Hx Hy HB.
  destruct x as [sx| | |sx mx ex]; simpl in Hx; try contradiction;
  destruct y as [sy| | |sy my ey]; simpl in Hy; try contradiction.
  - subst. reflexivity.
  - simpl. destruct Hy as (-> & ? & ?). simpl. repeat split; auto; lia.
  - simpl. destruct Hx as (-> & ? & ?). simpl. repeat split; auto; lia.
  - destruct Hx as (-> & Hdx & Hex). destruct Hy as (-> & Hdy & Hey).
    unfold SFadd, cond_Zopp.
    pose proof (shl_align_digits mx ex (Z.min ex ey)) as [Hx1 Hx2].
    pose proof (shl_align_digits my ey (Z.min ex ey)) as [Hy1 Hy2].
    destruct (shl_align mx ex (Z.min ex ey)) as [ax ezx].
    destruct (shl_align my ey (Z.min ex ey)) as [ay ezy].
    simpl in *.
    replace (B + 2) with (B + 1 + 1) by lia.
    apply binary_round_below; try lia.
    pose proof (Zdigits2_add (Z.pos ax) (Z.pos ay) ltac:(lia) ltac:(lia)) as H.
    simpl in H. change IntDef.Z.min with Z.min in *. lia.
Qed.


Lemma SFdiv_below (x : spec_float) (my : positive) (ey Bx Ly : Z) :
  below Bx x → Ly ≤ Z.pos (digits2_pos my) + ey →
  -1074 ≤ Bx - Ly + 1 ≤ 1023 →
  below (Bx - Ly + 2) (SFdiv prec emax x (S754_finite false my ey)).
Proof.
  intros Hx Hy HB. destruct x as [s| | |s mx ex]; simpl in Hx; try contradiction.
  - subst s. reflexivity.
  - destruct Hx as (-> & Hdx & Hex).
    unfold SFdiv, SFdiv_core_binary.
    set (d1 := Zdigits2 (Z.pos mx)). set (d2 := Zdigits2 (Z.pos my)).
    set (e' := Z.min (fexp prec emax (d1 + ex - (d2 + ey))) (ex - ey)).
    set (s := ex - ey - e').
    set (m' := match s with Z.pos _ => Z.shiftl (Z.pos mx) s | 0 => Z.pos mx | Z.neg _ => 0 end).
    assert (0 ≤ s) as Hs by (subst s e'; lia).
    assert (m' = Z.pos mx * 2 ^ s) as Hm'.
    { subst m'. destruct s as [|p|p] eqn:Es; [lia | | lia].
      rewrite Z.shiftl_mul_pow2 by lia. reflexivity. }
    assert (Z.div_eucl m' (Z.pos my) = (m' / Z.pos my, m' mod Z.pos my)) as Hde.
    { unfold Z.div, Z.modulo. now destruct (Z.div_eucl m' (Z.pos my)). }
    rewrite Hde. set (q := m' / Z.pos my).
    assert (0 ≤ q) as Hq by (apply Z.div_pos; lia).
    replace (Bx - Ly + 2) with (Bx - Ly + 1 + 1) by lia.
    assert (d1 + ex ≤ Bx) as Hd1 by exact Hdx.
    assert (Ly ≤ d2 + ey) as Hd2 by exact Hy.
    assert (0 < d1) as Hd1p by (apply Zdigits2_pos; lia).
    assert (0 < d2) as Hd2p by (apply Zdigits2_pos; lia).
    apply binary_round_aux_below; try assumption.
    + destruct (Z.eq_dec q 0) as [Hq0|Hq0].
      * rewrite Hq0. simpl. subst e'. unfold fexp, emin, emax, prec. lia.
      * assert (Zdigits2 q ≤ d1 + s - d2 + 1); [|subst s; lia].
        assert (q * Z.pos my ≤ m') as Hqm.
        { subst q. rewrite Z.mul_comm. apply Z.mul_div_le. lia. }
        pose proof (Zdigits2_upper (Z.pos mx) ltac:(lia)) as Hu. fold d1 in Hu.
        pose proof (Zdigits2_lower (Z.pos my) ltac:(lia)) as Hl. fold d2 in Hl.
        assert (m' < 2 ^ (d1 + s)) as Hm'u.
        { rewrite Hm', Z.pow_add_r by lia. apply Z.mul_lt_mono_pos_r; [apply Z.pow_pos_nonneg; lia | exact Hu]. }
        destruct (Z_lt_le_dec (d1 + s - d2 + 1) 0) as [Hneg|Hnn].
        { exfalso. assert (2 ^ (d1 + s) ≤ 2 ^ (d2 - 1)) by (apply Z.pow_le_mono_r; lia). nia. }
        apply Zdigits2_le; [lia|].
        destruct (Z_lt_le_dec q (2 ^ (d1 + s - d2 + 1))) as [|Hge]; [assumption|exfalso].
        assert (2 ^ (d1 + s) = 2 ^ (d1 + s - d2 + 1) * 2 ^ (d2 - 1)) as Hsplit.
        { rewrite <- Z.pow_add_r by lia. f_equal. lia. }
        assert (0 < 2 ^ (d2 - 1)) by (apply Z.pow_pos_nonneg; lia).
        nia.
    + subst e'. unfold fexp, emin, emax, prec. lia.
Qed.

Lemma double_of_long_below (z n : Z) :
  0 ≤ z < 2 ^ n → 0 ≤ n ≤ 1023 → below (n + 1) (double_of_long z).
Proof.
  intros Hz Hn. apply binary_normalize_below; [lia | | lia].
  destruct (Z.eq_dec z 0) as [->|]; [simpl; lia|].
  rewrite Z.add_0_r. apply Zdigits2_le; lia.
Qed.

End Bounds.

(** What [clock_gettime] stores: seconds that fit a [time_t], and
    nanoseconds below one second. *)
Definition valid_timespec (ts : timespec) : Prop :=
  0 ≤ tv_sec ts < 2 ^ 63 ∧ 0 ≤ tv_nsec ts < 10 ^ 9.

Section Timestamps.

Lemma timestamp_of_below (ts : timespec) :
  valid_timespec ts → below 87 (timestamp_of ts).
Proof.
  intros [Hs Hn]. unfold timestamp_of, dadd, dmul, ddiv, d1000000, d1000.
  replace 87 with (85 + 2) by lia.
  apply SFadd_below; [| |lia].
  - replace 85 with (64 + 20 + 1) by lia.
    apply SFmul_below; [|simpl; lia|lia|lia].
    apply (double_of_long_below (tv_sec ts) 63); lia.
  - apply (below_mono (31 - 10 + 2)); [lia|].
    apply SFdiv_below; [|simpl; lia|lia].
    apply (double_of_long_below (tv_nsec ts) 30); lia.
Qed.

Lemma milliseconds_below (ts : timespec) :
  valid_timespec ts → below 79 (ddiv (timestamp_of ts) d1000).
Proof.
  intros Hts. unfold ddiv, d1000.
  replace 79 with (87 - 10 + 2) by lia.
  apply SFdiv_below; [now apply timestamp_of_below | simpl; lia | lia].
Qed.

Lemma below_is_finite (B : Z) (x : double) : below B x → is_finite x = true.
Proof. destruct x; simpl; tauto. Qed.

Lemma rne_div_nonneg (a b : Z) : 0 ≤ a → 0 < b → 0 ≤ rne_div a b.
Proof.
  intros Ha Hb. unfold rne_div.
  assert (0 ≤ a / b) by (apply Z.div_pos; lia).
  destruct (2 * (a mod b) ?= b); [destruct (Z.even (a / b))| |]; lia.
Qed.

Lemma thousandths_nonneg (m : positive) (e : Z) : 0 ≤ thousandths m e.
Proof.
  unfold thousandths. destruct (0 <=? e) eqn:E.
  - apply Z.leb_le in E. apply Z.mul_nonneg_nonneg; [lia | apply Z.pow_nonneg; lia].
  - apply Z.leb_gt in E. apply rne_div_nonneg; [lia | apply Z.pow_pos_nonneg; lia].
Qed.

Lemma fixed3_below (B : Z) (x : double) : below B x → is_fixed3 (fixed3 x).
Proof.
  destruct x as [s| | |s m e]; simpl; try tauto.
  - intros ->. now exists "0"%string, "000"%string.
  - intros (-> & _ & _).
    pose proof (thousandths_nonneg m e) as Hn.
    exists (dec (thousandths m e / 1000)), (pad3 (thousandths m e mod 1000)).
    destruct (pad3_digits (thousandths m e mod 1000)) as [Hp Hl].
    { apply Z.mod_pos_bound. lia. }
    repeat split; try assumption.
    apply dec_nonneg. apply Z.div_pos; lia.
Qed.

Lemma fixed3_lf_free (x : double) : lf_free (fixed3 x) = true.
Proof.
  destruct x as [s|s| |s m e]; try (destruct s; reflexivity); [reflexivity|].
  unfold fixed3. rewrite !lf_free_app.
  destruct (pad3_digits (thousandths m e mod 1000)) as [Hp _].
  { apply Z.mod_pos_bound. lia. }
  rewrite dec_lf_free.
  rewrite (all_chars_impl is_digit not_lf _ (λ c H, plain_not_lf c (digit_plain c H)) Hp
           : lf_free (pad3 _) = true).
  now destruct s.
Qed.

(** The timestamp field of a record is a number of milliseconds with three
    decimals, whatever valid reading the clock returned. *)
Lemma ms_field_fixed3 (ts : timespec) : valid_timespec ts → is_fixed3 (ms_field ts).
Proof. intros H. apply (fixed3_below 79). now apply milliseconds_below. Qed.

Lemma ms_field_lf_free (ts : timespec) : lf_free (ms_field ts) = true.
Proof. apply fixed3_lf_free. Qed.

End Timestamps.

Example ms_field_example : ms_field (Timespec 12 345678999) = "12345.679"%string.
Proof. vm_compute. reflexivity. Qed.

(** * Rounding to nearest in binary64

    The operations of [timestamp_of] are followed exactly.  A positive
    rational [N/D * 2^e] is handed to [binary_round_aux] as the quotient
    [N / D] with the location of the remainder; shifting right keeps
    that description with a doubled denominator, so that the mantissa
    returned is [N / (D * 2^k)] rounded to nearest, ties to even.  That
    rounding is monotone, and it returns exactly the values that have at
    most 53 significant bits. *)

Section Rounding.

(** Where the fraction [r/D] lies: zero, below, at or above one half. *)
Definition loc_of (r D : Z) : location :=
  if r =? 0 then loc_Exact else loc_Inexact (2 * r ?= D).

Definition located (N D : Z) : shr_record :=
  shr_record_of_loc (N / D) (loc_of (N mod D) D).

Lemma div_mod_double (N D : Z) :
  0 ≤ N → 0 < D →
  N / (2 * D) = N / D / 2 ∧ N mod (2 * D) = N mod D + (N / D mod 2) * D.
Proof.
  intros HN HD.
  pose proof (Z.div_mod N D ltac:(lia)) as H1.
  pose proof (Z.mod_pos_bound N D HD) as H2.
  pose proof (Z.div_mod (N / D) 2 ltac:(lia)) as H3.
  pose proof (Z.mod_pos_bound (N / D) 2 ltac:(lia)) as H4.
  assert (N = (2 * D) * (N / D / 2) + (N mod D + (N / D mod 2) * D)) as E by nia.
  assert (0 ≤ N mod D + (N / D mod 2) * D < 2 * D) as B by nia.
  split.
  - symmetry. eapply Z.div_unique_pos; eassumption.
  - symmetry. eapply Z.mod_unique_pos; eassumption.
Qed.

Lemma shr_1_located (N D : Z) : 0 ≤ N → 0 < D → shr_1 (located N D) = located N (2 * D).
Proof.
  intros HN HD. unfold located.
  destruct (div_mod_double N D HN HD) as [Edq Er]. rewrite Edq, Er.
  pose proof (Z.mod_pos_bound N D HD) as Hr.
  assert (0 ≤ N / D) as Hq by (apply Z.div_pos; lia).
  set (q := N / D) in *. set (r := N mod D) in *.
  assert (shr_1 (shr_record_of_loc q (loc_of r D)) =
          Build_shr_record (q / 2) (Z.odd q) (negb (r =? 0))) as ->.
  { rewrite <- Z.div2_div. unfold loc_of. destruct (Z.eqb_spec r 0) as [->|Hr0].
    - simpl. destruct q as [|[p|p|]|p]; try lia; reflexivity.
    - destruct (2 * r ?= D); simpl; destruct q as [|[p|p|]|p]; try lia; reflexivity. }
  assert (q mod 2 = if Z.odd q then 1 else 0) as Hpar.
  { rewrite Zmod_odd. reflexivity. }
  rewrite Hpar. unfold loc_of.
  destruct (Z.odd q); destruct (Z.eqb_spec r 0) as [Hr0|Hr0].
  - assert ((r + 1 * D =? 0) = false) as -> by (apply Z.eqb_neq; lia).
    assert ((2 * (r + 1 * D) ?= 2 * D) = Eq) as -> by (apply Z.compare_eq_iff; lia).
    reflexivity.
  - assert ((r + 1 * D =? 0) = false) as -> by (apply Z.eqb_neq; lia).
    assert ((2 * (r + 1 * D) ?= 2 * D) = Gt) as -> by (apply Z.compare_gt_iff; lia).
    reflexivity.
  - assert ((r + 0 * D =? 0) = true) as -> by (apply Z.eqb_eq; lia).
    reflexivity.
  - assert ((r + 0 * D =? 0) = false) as -> by (apply Z.eqb_neq; lia).
    assert ((2 * (r + 0 * D) ?= 2 * D) = Lt) as -> by (apply Z.compare_lt_iff; lia).
    reflexivity.
Qed.

Lemma iter_shr_1_located (N D : Z) (p : positive) :
  0 ≤ N → 0 < D → SpecFloat.iter_pos shr_1 p (located N D) = located N (D * 2 ^ Z.pos p).
Proof.
  intros HN HD.
  pose proof (iter_pos_shift shr_1 (λ k x, 0 ≤ k ∧ x = located N (D * 2 ^ k))) as H.
  destruct (H ltac:(intros k x [Hk ->]; split; [lia|];
                     rewrite shr_1_located, Z.pow_add_r by (try apply Z.mul_pos_pos; try apply Z.pow_pos_nonneg; lia);
                     f_equal; lia) p 0 (located N D)) as [_ E].
  { split; [lia|]. f_equal. lia. }
  exact E.
Qed.

Definition nearest (N D : Z) : Z := round_nearest_even (N / D) (loc_of (N mod D) D).

Lemma loc_of_shr_record_of_loc (m : Z) (l : location) :
  loc_of_shr_record (shr_record_of_loc m l) = l.
Proof. destruct l as [|[]]; reflexivity. Qed.

Lemma shr_located (N D e k : Z) :
  0 ≤ N → 0 < D → 0 ≤ k → shr (located N D) e k = (located N (D * 2 ^ k), e + k).
Proof.
  intros HN HD Hk. destruct k as [|p|p]; [| |lia].
  - simpl. rewrite Z.mul_1_r, Z.add_0_r. reflexivity.
  - simpl. rewrite iter_shr_1_located by assumption. reflexivity.
Qed.

Definition renormalize (m E : Z) : spec_float :=
  if m <? 2 ^ 53 then S754_finite false (Z.to_pos m) E
  else S754_finite false (Z.to_pos (2 ^ 52)) (E + 1).

Lemma Zdigits2_eq (m d : Z) : 0 < d → 2 ^ (d - 1) ≤ m < 2 ^ d → Zdigits2 m = d.
Proof.
  intros Hd [Hl Hu].
  assert (0 < m) by (pose proof (Z.pow_pos_nonneg 2 (d - 1)); lia).
  rewrite Zdigits2_log2 by assumption.
  assert (Z.log2 m = d - 1); [|lia].
  apply Z.log2_unique; [lia|]. replace (Z.succ (d - 1)) with d by lia. lia.
Qed.

Lemma binary_round_aux_normal (N D e : Z) :
  0 ≤ N → 0 < D → 53 ≤ Zdigits2 (N / D) →
  -1000 ≤ Zdigits2 (N / D) + e - 53 ≤ 900 →
  let k := Zdigits2 (N / D) - 53 in
  binary_round_aux prec emax false (N / D) e (loc_of (N mod D) D)
    = renormalize (nearest N (D * 2 ^ k)) (e + k) ∧
  2 ^ 52 ≤ nearest N (D * 2 ^ k) ≤ 2 ^ 53.
Proof.
  intros HN HD Hd HE k.
  assert (0 ≤ k) as Hk by (subst k; lia).
  assert (0 < 2 ^ k) as Hpk by (apply Z.pow_pos_nonneg; lia).
  assert (0 < N / D) as Hq.
  { pose proof (Z.div_pos N D HN HD) as H0.
    destruct (N / D) as [|p|p] eqn:E; simpl in Hd; lia. }
  assert (2 ^ 52 ≤ N / (D * 2 ^ k) < 2 ^ 53) as Hm'.
  { rewrite <- Z.div_div by lia.
    pose proof (Zdigits2_lower (N / D) Hq) as Hl.
    pose proof (Zdigits2_upper (N / D) ltac:(lia)) as Hu.
    replace (Zdigits2 (N / D) - 1) with (52 + k) in Hl by (subst k; lia).
    replace (Zdigits2 (N / D)) with (53 + k) in Hu by (subst k; lia).
    rewrite Z.pow_add_r in Hl, Hu by lia.
    split.
    - apply Z.div_le_lower_bound; lia.
    - apply Z.div_lt_upper_bound; lia. }
  assert (2 ^ 52 ≤ nearest N (D * 2 ^ k) ≤ 2 ^ 53) as Hm1.
  { unfold nearest.
    pose proof (round_nearest_even_bounds (N / (D * 2 ^ k))
                  (loc_of (N mod (D * 2 ^ k)) (D * 2 ^ k))). lia. }
  split; [|exact Hm1].
  unfold binary_round_aux, shr_fexp.
  assert (fexp prec emax (Zdigits2 (N / D) + e) - e = k) as ->.
  { unfold fexp, emin, prec, emax. subst k. lia. }
  change (shr_record_of_loc (N / D) (loc_of (N mod D) D)) with (located N D).
  rewrite shr_located by assumption.
  assert (round_nearest_even (shr_m (located N (D * 2 ^ k)))
            (loc_of_shr_record (located N (D * 2 ^ k))) = nearest N (D * 2 ^ k)) as ->.
  { unfold located. now rewrite shr_m_of_loc, loc_of_shr_record_of_loc. }
  set (m1 := nearest N (D * 2 ^ k)) in *.
  unfold renormalize. destruct (Z.ltb_spec m1 (2 ^ 53)) as [Hlt|Hge].
  - assert (Zdigits2 m1 = 53) as Hd1 by (apply Zdigits2_eq; lia).
    rewrite Hd1.
    assert (fexp prec emax (53 + (e + k)) - (e + k) = 0) as ->.
    { unfold fexp, emin, prec, emax. subst k. lia. }
    simpl. destruct m1 as [|p|p] eqn:Em; try lia.
    assert ((e + k <=? emax - prec) = true) as ->.
    { apply Z.leb_le. unfold emax, prec. subst k. lia. }
    reflexivity.
  - assert (m1 = 2 ^ 53) as -> by lia.
    assert (fexp prec emax (Zdigits2 (2 ^ 53) + (e + k)) - (e + k) = 1) as ->.
    { change (Zdigits2 (2 ^ 53)) with 54. unfold fexp, emin, prec, emax. subst k. lia. }
    simpl.
    assert ((e + k + 1 <=? emax - prec) = true) as ->.
    { apply Z.leb_le. unfold emax, prec. subst k. lia. }
    reflexivity.
Qed.


(** Values, in units of [2^-scale]. *)
Definition scale : Z := 4000.

Definition value (x : spec_float) : Z :=
  match x with
  | S754_finite _ m e => Z.pos m * 2 ^ (e + scale)
  | _ => 0
  end.

(** Zero, or a normal number that is not negative. *)
Definition normal (x : spec_float) : Prop :=
  match x with
  | S754_zero s => s = false
  | S754_finite s m e => s = false ∧ Zdigits2 (Z.pos m) = 53 ∧ -1000 ≤ e ≤ 901
  | _ => False
  end.

Lemma renormalize_value (m E : Z) :
  2 ^ 52 ≤ m ≤ 2 ^ 53 → -1000 ≤ E ≤ 900 →
  normal (renormalize m E) ∧ value (renormalize m E) = m * 2 ^ (E + scale).
Proof.
  intros Hm HE. unfold renormalize. destruct (Z.ltb_spec m (2 ^ 53)) as [Hlt|Hge].
  - destruct m as [|p|p]; try lia. simpl Z.to_pos. split; [|reflexivity].
    split; [reflexivity|]. split; [apply Zdigits2_eq; lia | lia].
  - assert (m = 2 ^ 53) as -> by lia. split.
    + split; [reflexivity|]. split; [reflexivity | lia].
    + unfold value. change (Z.pos (Z.to_pos (2 ^ 52))) with (2 ^ 52).
      replace (E + 1 + scale) with (1 + (E + scale)) by lia.
      rewrite Z.pow_add_r by (unfold scale; lia). change (2 ^ 53) with (2 ^ 52 * 2 ^ 1). lia.
Qed.

Lemma value_nonneg (x : spec_float) : 0 ≤ value x.
Proof.
  destruct x; simpl; lia.
Qed.

Lemma mantissa_bounds (m : positive) :
  Zdigits2 (Z.pos m) = 53 → 2 ^ 52 ≤ Z.pos m < 2 ^ 53.
Proof.
  intros H. pose proof (Zdigits2_lower (Z.pos m) ltac:(lia)) as Hl.
  pose proof (Zdigits2_upper (Z.pos m) ltac:(lia)) as Hu.
  rewrite H in Hl, Hu. simpl in Hl. lia.
Qed.

Lemma SFleb_value (x y : spec_float) :
  normal x → normal y → value x ≤ value y → SFleb x y = true.
Proof.
  intros Hx Hy Hv.
  destruct x as [sx| | |sx mx ex]; simpl in Hx; try contradiction;
  destruct y as [sy| | |sy my ey]; simpl in Hy; try contradiction.
  - reflexivity.
  - destruct Hy as (-> & _). reflexivity.
  - destruct Hx as (-> & Hd & He). exfalso. unfold value in Hv.
    assert (0 < Z.pos mx * 2 ^ (ex + scale)); [|lia].
    apply Z.mul_pos_pos; [lia | apply Z.pow_pos_nonneg; unfold scale; lia].
  - destruct Hx as (-> & Hdx & Hex). destruct Hy as (-> & Hdy & Hey).
    apply mantissa_bounds in Hdx, Hdy. unfold value in Hv.
    unfold SFleb, SFcompare.
    destruct (Z.compare_spec ex ey) as [Heq|Hlt|Hgt].
    + subst ey. rewrite Pos.compare_cont_spec. simpl.
      assert (Z.pos mx ≤ Z.pos my) as Hm.
      { apply Z.mul_le_mono_pos_r in Hv; [exact Hv|]. apply Z.pow_pos_nonneg; unfold scale; lia. }
      destruct (Pos.compare_spec mx my); try reflexivity. lia.
    + reflexivity.
    + exfalso.
      assert (2 ^ (ey + scale) * 2 ≤ 2 ^ (ex + scale)) as Hp.
      { replace (ex + scale) with ((ey + scale) + (ex - ey)) by lia.
        rewrite (Z.pow_add_r 2 (ey + scale) (ex - ey)) by (unfold scale; lia).
        assert (2 ^ 1 ≤ 2 ^ (ex - ey)) by (apply Z.pow_le_mono_r; lia).
        assert (0 < 2 ^ (ey + scale)) by (apply Z.pow_pos_nonneg; unfold scale; lia).
        nia. }
      assert (0 < 2 ^ (ey + scale)) by (apply Z.pow_pos_nonneg; unfold scale; lia).
      nia.
Qed.

Lemma div_floor_mono (N1 D1 N2 D2 : Z) :
  0 ≤ N1 → 0 < D1 → 0 < D2 → N1 * D2 ≤ N2 * D1 → N1 / D1 ≤ N2 / D2.
Proof.
  intros HN1 HD1 HD2 H.
  pose proof (Z.div_mod N1 D1 ltac:(lia)). pose proof (Z.mod_pos_bound N1 D1 HD1).
  pose proof (Z.div_mod N2 D2 ltac:(lia)). pose proof (Z.mod_pos_bound N2 D2 HD2).
  assert (0 ≤ N1 / D1) by (apply Z.div_pos; lia).
  destruct (Z_lt_le_dec (N2 / D2) (N1 / D1)) as [Hlt|]; [exfalso|assumption].
  assert (N2 / D2 + 1 ≤ N1 / D1) by lia.
  assert (N2 * D1 < (N2 / D2 + 1) * D2 * D1) by nia.
  assert ((N2 / D2 + 1) * D2 * D1 ≤ N1 / D1 * D1 * D2) by nia.
  nia.
Qed.

Lemma nearest_mono (N1 D1 N2 D2 : Z) :
  0 ≤ N1 → 0 < D1 → 0 < D2 → N1 * D2 ≤ N2 * D1 → nearest N1 D1 ≤ nearest N2 D2.
Proof.
  intros HN1 HD1 HD2 H.
  pose proof (div_floor_mono N1 D1 N2 D2 HN1 HD1 HD2 H) as Hq.
  pose proof (Z.div_mod N1 D1 ltac:(lia)) as E1. pose proof (Z.mod_pos_bound N1 D1 HD1) as B1.
  pose proof (Z.div_mod N2 D2 ltac:(lia)) as E2. pose proof (Z.mod_pos_bound N2 D2 HD2) as B2.
  unfold nearest.
  pose proof (round_nearest_even_bounds (N1 / D1) (loc_of (N1 mod D1) D1)) as R1.
  pose proof (round_nearest_even_bounds (N2 / D2) (loc_of (N2 mod D2) D2)) as R2.
  destruct (Z_lt_le_dec (N1 / D1) (N2 / D2)) as [Hlt|Hge]; [lia|].
  assert (N1 / D1 = N2 / D2) as Eq' by lia.
  set (q := N2 / D2) in *. set (r1 := N1 mod D1) in *. set (r2 := N2 mod D2) in *.
  rewrite Eq' in *.
  assert (r1 * D2 ≤ r2 * D1) as Hr by nia.
  unfold loc_of, round_nearest_even.
  destruct (Z.eqb_spec r1 0) as [Hr1|Hr1]; destruct (Z.eqb_spec r2 0) as [Hr2|Hr2];
    try destruct (Z.compare_spec (2 * r1) D1); try destruct (Z.compare_spec (2 * r2) D2);
    try destruct (Z.even q); try lia; exfalso; nia.
Qed.

(** The value the rounding of [N/D * 2^e] returns. *)
Definition rounded (N D e : Z) : Z :=
  let k := Zdigits2 (N / D) - 53 in nearest N (D * 2 ^ k) * 2 ^ (e + k + scale).

(** What is asked of a located quotient before it is rounded: at least
    53 digits, and a result in the normal range. *)
Definition roundable (N D e : Z) : Prop :=
  0 ≤ N ∧ 0 < D ∧ 53 ≤ Zdigits2 (N / D) ∧ -1000 ≤ Zdigits2 (N / D) + e - 53 ≤ 900 ∧
  -3000 ≤ e.

Lemma binary_round_aux_value (N D e : Z) :
  roundable N D e →
  normal (binary_round_aux prec emax false (N / D) e (loc_of (N mod D) D)) ∧
  value (binary_round_aux prec emax false (N / D) e (loc_of (N mod D) D)) = rounded N D e.
Proof.
  intros (HN & HD & Hd & HE & He).
  destruct (binary_round_aux_normal N D e HN HD Hd HE) as [-> Hm].
  unfold rounded. apply renormalize_value; lia.
Qed.

Lemma nearest_bounds (N D : Z) :
  0 ≤ N → 0 < D → 53 ≤ Zdigits2 (N / D) →
  2 ^ 52 ≤ nearest N (D * 2 ^ (Zdigits2 (N / D) - 53)) ≤ 2 ^ 53.
Proof.
  intros HN HD Hd.
  assert (0 < N / D) as Hq.
  { pose proof (Z.div_pos N D HN HD) as H0.
    destruct (N / D) as [|p|p] eqn:E; simpl in Hd; lia. }
  set (k := Zdigits2 (N / D) - 53).
  assert (0 < 2 ^ k) as Hpk by (apply Z.pow_pos_nonneg; lia).
  assert (2 ^ 52 ≤ N / (D * 2 ^ k) < 2 ^ 53) as Hm'.
  { rewrite <- Z.div_div by lia.
    pose proof (Zdigits2_lower (N / D) Hq) as Hl.
    pose proof (Zdigits2_upper (N / D) ltac:(lia)) as Hu.
    replace (Zdigits2 (N / D) - 1) with (52 + k) in Hl by (subst k; lia).
    replace (Zdigits2 (N / D)) with (53 + k) in Hu by (subst k; lia).
    rewrite Z.pow_add_r in Hl, Hu by lia.
    split.
    - apply Z.div_le_lower_bound; lia.
    - apply Z.div_lt_upper_bound; lia. }
  unfold nearest.
  pose proof (round_nearest_even_bounds (N / (D * 2 ^ k))
                (loc_of (N mod (D * 2 ^ k)) (D * 2 ^ k))). lia.
Qed.

Lemma pow2_lt_inv (a b : Z) : 0 ≤ b → 2 ^ a < 2 ^ b → a < b.
Proof. intros Hb. apply Z.pow_lt_mono_r_iff; lia. Qed.

(** The magnitude of a located quotient grows with its value. *)
Lemma magnitude_mono (N1 D1 e1 N2 D2 e2 : Z) :
  roundable N1 D1 e1 → roundable N2 D2 e2 →
  N1 * 2 ^ (e1 + scale) * D2 ≤ N2 * 2 ^ (e2 + scale) * D1 →
  Zdigits2 (N1 / D1) + e1 ≤ Zdigits2 (N2 / D2) + e2.
Proof.
  intros (HN1 & HD1 & Hd1 & HE1 & He1) (HN2 & HD2 & Hd2 & HE2 & He2) H.
  assert (0 < N1 / D1) as Hq1.
  { pose proof (Z.div_pos N1 D1 HN1 HD1). destruct (N1 / D1) eqn:E; simpl in Hd1; lia. }
  assert (0 < N2 / D2) as Hq2.
  { pose proof (Z.div_pos N2 D2 HN2 HD2). destruct (N2 / D2) eqn:E; simpl in Hd2; lia. }
  set (d1 := Zdigits2 (N1 / D1)) in *. set (d2 := Zdigits2 (N2 / D2)) in *.
  pose proof (Zdigits2_lower (N1 / D1) Hq1) as Hl. fold d1 in Hl.
  pose proof (Zdigits2_upper (N2 / D2) ltac:(lia)) as Hu. fold d2 in Hu.
  pose proof (Z.div_mod N1 D1 ltac:(lia)). pose proof (Z.mod_pos_bound N1 D1 HD1).
  pose proof (Z.div_mod N2 D2 ltac:(lia)). pose proof (Z.mod_pos_bound N2 D2 HD2).
  assert (2 ^ (d1 - 1) * D1 ≤ N1) as Hlow by nia.
  assert (N2 < 2 ^ d2 * D2) as Hup by nia.
  set (A1 := 2 ^ (e1 + scale)) in *. set (A2 := 2 ^ (e2 + scale)) in *.
  assert (0 < A1) by (apply Z.pow_pos_nonneg; unfold scale; lia).
  assert (0 < A2) by (apply Z.pow_pos_nonneg; unfold scale; lia).
  assert (2 ^ (d1 - 1) * A1 < 2 ^ d2 * A2) as Hpow.
  { assert (2 ^ (d1 - 1) * A1 * (D1 * D2) < 2 ^ d2 * A2 * (D1 * D2)) as Hc.
    { assert (2 ^ (d1 - 1) * D1 * A1 * D2 ≤ N1 * A1 * D2).
      { apply Z.mul_le_mono_nonneg_r; [lia|]. apply Z.mul_le_mono_nonneg_r; lia. }
      assert (N2 * A2 * D1 < 2 ^ d2 * D2 * A2 * D1).
      { apply Z.mul_lt_mono_pos_r; [lia|]. apply Z.mul_lt_mono_pos_r; lia. }
      lia. }
    apply Z.mul_lt_mono_pos_r in Hc; [exact Hc | nia]. }
  subst A1 A2. rewrite <- !Z.pow_add_r in Hpow by (unfold scale; lia).
  apply pow2_lt_inv in Hpow; [lia | unfold scale; lia].
Qed.

(** Rounding is monotone. *)
Lemma rounded_mono (N1 D1 e1 N2 D2 e2 : Z) :
  roundable N1 D1 e1 → roundable N2 D2 e2 →
  N1 * 2 ^ (e1 + scale) * D2 ≤ N2 * 2 ^ (e2 + scale) * D1 →
  rounded N1 D1 e1 ≤ rounded N2 D2 e2.
Proof.
  intros R1 R2 H.
  pose proof (magnitude_mono _ _ _ _ _ _ R1 R2 H) as Hmag.
  destruct R1 as (HN1 & HD1 & Hd1 & HE1 & He1). destruct R2 as (HN2 & HD2 & Hd2 & HE2 & He2).
  pose proof (nearest_bounds N1 D1 HN1 HD1 Hd1) as B1.
  pose proof (nearest_bounds N2 D2 HN2 HD2 Hd2) as B2.
  unfold rounded.
  set (k1 := Zdigits2 (N1 / D1) - 53) in *. set (k2 := Zdigits2 (N2 / D2) - 53) in *.
  assert (0 ≤ k1) by (subst k1; lia). assert (0 ≤ k2) by (subst k2; lia).
  assert (0 < 2 ^ k1) by (apply Z.pow_pos_nonneg; lia).
  assert (0 < 2 ^ k2) by (apply Z.pow_pos_nonneg; lia).
  destruct (Z.eq_dec (e1 + k1) (e2 + k2)) as [Heq|Hne].
  - rewrite Heq.
    apply Z.mul_le_mono_nonneg_r; [apply Z.pow_nonneg; lia|].
    apply nearest_mono; try lia.
    set (W := 2 ^ (e2 + k2 + scale)).
    assert (0 < W) by (apply Z.pow_pos_nonneg; unfold scale; subst k2; lia).
    assert (2 ^ (e1 + scale) * 2 ^ k1 = W) as W1.
    { rewrite <- Z.pow_add_r by (unfold scale; lia). subst W. f_equal. lia. }
    assert (2 ^ (e2 + scale) * 2 ^ k2 = W) as W2.
    { rewrite <- Z.pow_add_r by (unfold scale; lia). subst W. f_equal. lia. }
    assert (N1 * (D2 * 2 ^ k2) * W ≤ N2 * (D1 * 2 ^ k1) * W) as Hc.
    { assert (N1 * (D2 * 2 ^ k2) * W = N1 * 2 ^ (e1 + scale) * D2 * (2 ^ k1 * 2 ^ k2)) as ->
        by (rewrite <- W1; ring).
      assert (N2 * (D1 * 2 ^ k1) * W = N2 * 2 ^ (e2 + scale) * D1 * (2 ^ k1 * 2 ^ k2)) as ->
        by (rewrite <- W2; ring).
      apply Z.mul_le_mono_nonneg_r; lia. }
    apply Z.mul_le_mono_pos_r in Hc; assumption.
  - assert (e1 + k1 + 1 ≤ e2 + k2) as Hlt by (subst k1 k2; lia).
    assert (2 ^ 53 * 2 ^ (e1 + k1 + scale) ≤ 2 ^ 52 * 2 ^ (e2 + k2 + scale)) as Hp.
    { replace (e2 + k2 + scale) with ((e1 + k1 + scale) + (e2 + k2 - e1 - k1)) by lia.
      rewrite (Z.pow_add_r 2 (e1 + k1 + scale)) by (unfold scale; lia).
      assert (2 ^ 1 ≤ 2 ^ (e2 + k2 - e1 - k1)) by (apply Z.pow_le_mono_r; lia).
      assert (0 < 2 ^ (e1 + k1 + scale)) by (apply Z.pow_pos_nonneg; unfold scale; lia).
      change (2 ^ 53) with (2 ^ 52 * 2 ^ 1). nia. }
    assert (0 < 2 ^ (e1 + k1 + scale)) by (apply Z.pow_pos_nonneg; unfold scale; lia).
    assert (0 < 2 ^ (e2 + k2 + scale)) by (apply Z.pow_pos_nonneg; unfold scale; lia).
    nia.
Qed.

Lemma roundable_exact_form (N e : Z) :
  binary_round_aux prec emax false N e loc_Exact
  = binary_round_aux prec emax false (N / 1) e (loc_of (N mod 1) 1).
Proof. now rewrite Z.div_1_r, Z.mod_1_r. Qed.

Lemma binary_round_aux_exact_value (N e : Z) :
  roundable N 1 e →
  normal (binary_round_aux prec emax false N e loc_Exact) ∧
  value (binary_round_aux prec emax false N e loc_Exact) = rounded N 1 e.
Proof. intros H. rewrite roundable_exact_form. now apply binary_round_aux_value. Qed.

(** A value with at most 53 significant bits is returned unchanged. *)
Lemma rounded_exact (N e M : Z) :
  roundable N 1 e → 0 < M < 2 ^ 53 → N * 2 ^ (e + scale) = M * 2 ^ scale →
  rounded N 1 e = M * 2 ^ scale.
Proof.
  intros (HN & _ & Hd & HE & He) HM HV. rewrite Z.div_1_r in Hd, HE.
  assert (0 < N) as HN0 by (destruct N; simpl in Hd; lia).
  pose proof (Zdigits2_lower N HN0) as Hl. pose proof (Zdigits2_upper N HN) as Hu.
  unfold rounded. rewrite Z.div_1_r, Z.mul_1_l.
  set (k := Zdigits2 N - 53) in *.
  assert (0 ≤ k) as Hk by (subst k; lia).
  assert (0 < 2 ^ k) as Hpk by (apply Z.pow_pos_nonneg; lia).
  assert (0 < 2 ^ (e + scale)) as HpeK by (apply Z.pow_pos_nonneg; unfold scale; lia).
  assert (0 < 2 ^ scale) as HpK by (apply Z.pow_pos_nonneg; unfold scale; lia).
  (* the exponent is small enough for the bits shifted out to be zeros *)
  assert (e + k ≤ 0) as Hek.
  { destruct (Z_lt_le_dec 0 (e + k)) as [Hpos|]; [exfalso|assumption].
    assert (2 ^ (52 + k) ≤ N) as HlN by (replace (52 + k) with (Zdigits2 N - 1) by (subst k; lia); exact Hl).
    assert (2 ^ (52 + k) * 2 ^ (e + scale) ≤ M * 2 ^ scale) as H1.
    { rewrite <- HV. apply Z.mul_le_mono_nonneg_r; lia. }
    rewrite <- Z.pow_add_r in H1 by (unfold scale; lia).
    assert (2 ^ (53 + scale) ≤ 2 ^ (52 + k + (e + scale))) as H2 by (apply Z.pow_le_mono_r; lia).
    rewrite (Z.pow_add_r 2 53 scale) in H2 by (unfold scale; lia). nia. }
  assert (N = M * 2 ^ (- e)) as EN.
  { assert (2 ^ scale = 2 ^ (e + scale) * 2 ^ (- e)) as EK.
    { rewrite <- Z.pow_add_r by (unfold scale; lia). f_equal. lia. }
    rewrite EK in HV. rewrite Z.mul_assoc, (Z.mul_comm M), <- Z.mul_assoc, (Z.mul_comm (2 ^ (e + scale))) in HV.
    apply Z.mul_reg_r in HV; lia. }
  assert (2 ^ (- e) = 2 ^ (- e - k) * 2 ^ k) as Esplit.
  { rewrite <- Z.pow_add_r by lia. f_equal. lia. }
  assert (N = M * 2 ^ (- e - k) * 2 ^ k) as EN' by (rewrite EN, Esplit; ring).
  assert (N mod 2 ^ k = 0) as Hmod by (rewrite EN'; apply Z.mod_mul; lia).
  assert (N / 2 ^ k = M * 2 ^ (- e - k)) as Hdiv by (rewrite EN' at 1; apply Z.div_mul; lia).
  unfold nearest. rewrite Hmod, Hdiv. simpl round_nearest_even.
  rewrite <- Z.mul_assoc, <- Z.pow_add_r by (unfold scale; lia). do 2 f_equal. lia.
Qed.

(** The same for a value [M * 2^j] with [M] on at most 53 bits. *)
Lemma rounded_exact_shifted (N e M j : Z) :
  roundable N 1 e → roundable N 1 (e - j) → 0 < M < 2 ^ 53 → 0 ≤ j →
  N * 2 ^ (e + scale) = M * 2 ^ j * 2 ^ scale →
  rounded N 1 e = M * 2 ^ j * 2 ^ scale.
Proof.
  intros R R' HM Hj HV. pose proof R' as (HN & HD & Hd & HE & He).
  assert (0 < 2 ^ j) as Hpj by (apply Z.pow_pos_nonneg; lia).
  assert (2 ^ (e + scale) = 2 ^ (e - j + scale) * 2 ^ j) as Ee.
  { rewrite <- Z.pow_add_r by (unfold scale; lia). f_equal. lia. }
  assert (rounded N 1 (e - j) = M * 2 ^ scale) as E.
  { apply rounded_exact; [exact R' | exact HM|].
    rewrite Ee in HV.
    replace (N * (2 ^ (e - j + scale) * 2 ^ j)) with (N * 2 ^ (e - j + scale) * 2 ^ j) in HV
      by ring.
    replace (M * 2 ^ j * 2 ^ scale) with (M * 2 ^ scale * 2 ^ j) in HV by ring.
    apply Z.mul_reg_r in HV; lia. }
  unfold rounded in *. cbv zeta in *. rewrite Z.div_1_r in *.
  set (k := Zdigits2 N - 53) in *.
  assert (2 ^ (e + k + scale) = 2 ^ (e - j + k + scale) * 2 ^ j) as Ek.
  { rewrite <- Z.pow_add_r by (unfold scale; lia). f_equal. lia. }
  rewrite Ek, Z.mul_assoc, E. ring.
Qed.

Lemma pos_iter_xO (m d : positive) : Z.pos (Pos.iter xO m d) = Z.pos m * 2 ^ Z.pos d.
Proof.
  induction d as [|d IH] using Pos.peano_ind.
  - simpl. lia.
  - rewrite Pos.iter_succ, Pos2Z.inj_xO, IH, Pos2Z.inj_succ, Z.pow_succ_r by lia. ring.
Qed.

Lemma shl_align_value (mx : positive) (ex ex' : Z) :
  Z.pos (fst (shl_align mx ex ex'))
  = Z.pos mx * 2 ^ (ex - snd (shl_align mx ex ex')).
Proof.
  unfold shl_align. destruct (ex' - ex) as [|d|d] eqn:E; simpl.
  - rewrite Z.sub_diag. simpl. lia.
  - rewrite Z.sub_diag. simpl. lia.
  - rewrite pos_iter_xO. f_equal. f_equal. lia.
Qed.

(** Conversion of an integer below [2^53] is exact. *)
Lemma double_of_long_value (n : Z) :
  0 ≤ n < 2 ^ 53 → normal (double_of_long n) ∧ value (double_of_long n) = n * 2 ^ scale.
Proof.
  intros Hn. destruct n as [|p|p]; [split; reflexivity| |lia].
  unfold double_of_long, binary_normalize, binary_round.
  pose proof (shl_align_digits p 0 (fexp prec emax (Z.pos (digits2_pos p) + 0))) as [Hs Hd].
  pose proof (shl_align_value p 0 (fexp prec emax (Z.pos (digits2_pos p) + 0))) as Hv.
  destruct (shl_align p 0 _) as [mz ez]. simpl fst in *. simpl snd in *.
  assert (Zdigits2 (Z.pos p) ≤ 53) as Hdp by (apply Zdigits2_le; lia).
  pose proof (Zdigits2_pos (Z.pos p) ltac:(lia)) as Hdp0.
  change (Z.pos (digits2_pos p)) with (Zdigits2 (Z.pos p)) in *.
  change (Z.pos (digits2_pos mz)) with (Zdigits2 (Z.pos mz)) in *.
  unfold fexp, emin, prec, emax in Hs.
  assert (ez = Zdigits2 (Z.pos p) - 53) as Eez by lia.
  assert (roundable (Z.pos mz) 1 ez) as R.
  { unfold roundable. rewrite Z.div_1_r. lia. }
  destruct (binary_round_aux_exact_value _ _ R) as [Hnf HV]. split; [exact Hnf|].
  rewrite HV. apply rounded_exact; [exact R | lia|].
  rewrite Hv. replace (0 - ez) with (- ez) by lia.
  rewrite <- Z.mul_assoc, <- Z.pow_add_r by (unfold scale; lia). do 2 f_equal. lia.
Qed.

Lemma Zdigits2_ge (m d : Z) : 0 ≤ m → 2 ^ (d - 1) ≤ m → d ≤ Zdigits2 m.
Proof.
  intros Hm H. pose proof (Zdigits2_upper m Hm) as Hu. pose proof (Zdigits2_nonneg m).
  destruct (Z_lt_le_dec (Zdigits2 m) d) as [Hlt|]; [exfalso|assumption].
  assert (2 ^ Zdigits2 m ≤ 2 ^ (d - 1)) by (apply Z.pow_le_mono_r; lia). lia.
Qed.

(** The exponent of a normal number, from bounds on its value. *)
Lemma exponent_upper (m : positive) (e a : Z) :
  normal (S754_finite false m e) → 0 ≤ a → value (S754_finite false m e) < 2 ^ a * 2 ^ scale →
  e + 52 < a.
Proof.
  intros (_ & Hd & He) Ha HV. apply mantissa_bounds in Hd. unfold value in HV.
  assert (0 < 2 ^ (e + scale)) by (apply Z.pow_pos_nonneg; unfold scale; lia).
  assert (2 ^ 52 * 2 ^ (e + scale) < 2 ^ a * 2 ^ scale) as H1 by nia.
  rewrite <- !Z.pow_add_r in H1 by (unfold scale; lia).
  apply pow2_lt_inv in H1; unfold scale in *; lia.
Qed.

Lemma exponent_lower (m : positive) (e a : Z) :
  normal (S754_finite false m e) → 0 ≤ a → 2 ^ a * 2 ^ scale ≤ value (S754_finite false m e) →
  a < e + 53.
Proof.
  intros (_ & Hd & He) Ha HV. apply mantissa_bounds in Hd. unfold value in HV.
  assert (0 < 2 ^ (e + scale)) by (apply Z.pow_pos_nonneg; unfold scale; lia).
  assert (2 ^ a * 2 ^ scale < 2 ^ 53 * 2 ^ (e + scale)) as H1 by nia.
  rewrite <- !Z.pow_add_r in H1 by (unfold scale; lia).
  apply pow2_lt_inv in H1; unfold scale in *; lia.
Qed.

Lemma value_d1000000 : value d1000000 = 1000000 * 2 ^ scale.
Proof. vm_compute. reflexivity. Qed.

(** Multiplication by 1000000.0 is exact below [2^59]: the product is a
    multiple of 64, and a double holds 53 bits. *)
Lemma dmul_exact (x : double) (v : Z) :
  normal x → value x = v * 2 ^ scale → 0 ≤ v → v * 1000000 < 2 ^ 59 →
  normal (dmul x d1000000) ∧ value (dmul x d1000000) = v * 1000000 * 2 ^ scale.
Proof.
  intros Hx HV Hv Hb.
  assert (0 < 2 ^ scale) as HpK by (apply Z.pow_pos_nonneg; unfold scale; lia).
  destruct x as [s| | |s mx ex]; simpl in Hx; try contradiction.
  - subst s. simpl in HV. assert (v = 0) as -> by nia. split; reflexivity.
  - pose proof Hx as (-> & Hd & He).
    assert (0 < v) as Hv0.
    { unfold value in HV. assert (0 < Z.pos mx * 2 ^ (ex + scale)); [|nia].
      apply Z.mul_pos_pos; [lia | apply Z.pow_pos_nonneg; unfold scale; lia]. }
    assert (ex + 52 < 40) as Hex.
    { apply (exponent_upper mx ex 40 Hx); [lia|]. rewrite HV.
      apply Z.mul_lt_mono_pos_r; [exact HpK | lia]. }
    apply mantissa_bounds in Hd.
    unfold dmul, d1000000, SFmul. cbn [xorb].
    set (mc := 8589934592000000%positive).
    assert (Z.pos (mx * mc) = Z.pos mx * Z.pos mc) as EN by reflexivity.
    assert (105 ≤ Zdigits2 (Z.pos mx * Z.pos mc)) as Hlo.
    { apply Zdigits2_ge; [lia|]. subst mc. change (2 ^ (105 - 1)) with (2 ^ 52 * 2 ^ 52). nia. }
    assert (Zdigits2 (Z.pos mx * Z.pos mc) ≤ 106) as Hhi.
    { apply Zdigits2_le; [lia|]. subst mc. change (2 ^ 106) with (2 ^ 53 * 2 ^ 53). nia. }
    assert (roundable (Z.pos (mx * mc)) 1 (ex + -33)) as R.
    { unfold roundable. rewrite Z.div_1_r, EN. lia. }
    assert (roundable (Z.pos (mx * mc)) 1 (ex + -33 - 6)) as R'.
    { unfold roundable. rewrite Z.div_1_r, EN. lia. }
    destruct (binary_round_aux_exact_value _ _ R) as [Hnf HVr]. split; [exact Hnf|].
    rewrite HVr.
    replace (v * 1000000 * 2 ^ scale) with (v * 15625 * 2 ^ 6 * 2 ^ scale)
      by (change (2 ^ 6) with 64; ring).
    apply rounded_exact_shifted; [exact R | exact R' | lia | lia |].
    rewrite EN. unfold value in HV.
    assert (2 ^ (ex + scale) = 2 ^ 33 * 2 ^ (ex + -33 + scale)) as Ep.
    { rewrite <- Z.pow_add_r by (unfold scale; lia). f_equal. lia. }
    rewrite Ep in HV. subst mc. change 8589934592000000 with (1000000 * 2 ^ 33).
    change (2 ^ 6) with 64. nia.
Qed.

(** The mantissa of 1000.0. *)
Definition C1000 : Z := 8796093022208000.

Lemma div_eucl_div_mod (a b : Z) : Z.div_eucl a b = (a / b, a mod b).
Proof. unfold Z.div, Z.modulo. now destruct (Z.div_eucl a b). Qed.

(** Division by 1000.0 rounds the quotient of the mantissas. *)
Lemma ddiv_value (mx : positive) (ex : Z) :
  normal (S754_finite false mx ex) → -900 ≤ ex ≤ 800 →
  roundable (Z.pos mx * 2 ^ 53) C1000 (ex - 10) ∧
  normal (ddiv (S754_finite false mx ex) d1000) ∧
  value (ddiv (S754_finite false mx ex) d1000) = rounded (Z.pos mx * 2 ^ 53) C1000 (ex - 10).
Proof.
  intros Hx Hex. pose proof Hx as (_ & Hd & _). pose proof (mantissa_bounds mx Hd) as Hm.
  assert (roundable (Z.pos mx * 2 ^ 53) C1000 (ex - 10)) as R.
  { unfold roundable, C1000.
    assert (2 ^ 52 ≤ Z.pos mx * 2 ^ 53 / 8796093022208000).
    { apply Z.div_le_lower_bound; lia. }
    assert (Z.pos mx * 2 ^ 53 / 8796093022208000 < 2 ^ 54).
    { apply Z.div_lt_upper_bound; lia. }
    assert (53 ≤ Zdigits2 (Z.pos mx * 2 ^ 53 / 8796093022208000)).
    { apply Zdigits2_ge; [lia|]. simpl. lia. }
    assert (Zdigits2 (Z.pos mx * 2 ^ 53 / 8796093022208000) ≤ 54).
    { apply Zdigits2_le; lia. }
    lia. }
  split; [exact R|].
  assert (ddiv (S754_finite false mx ex) d1000 =
          binary_round_aux prec emax false (Z.pos mx * 2 ^ 53 / C1000) (ex - 10)
            (loc_of ((Z.pos mx * 2 ^ 53) mod C1000) C1000)) as ->.
  { unfold ddiv, d1000, SFdiv, SFdiv_core_binary. cbn [xorb].
    change (Zdigits2 (Z.pos mx)) with (Z.pos (digits2_pos mx)).
    change (Z.pos (digits2_pos mx)) with (Zdigits2 (Z.pos mx)). rewrite Hd.
    change (Zdigits2 8796093022208000) with 53.
    change IntDef.Z.min with Z.min.
    assert (Z.min (fexp prec emax (53 + ex - (53 + -43))) (ex - -43) = ex - 10) as ->.
    { unfold fexp, emin, prec, emax. lia. }
    replace (ex - -43 - (ex - 10)) with 53 by lia.
    rewrite Z.shiftl_mul_pow2 by lia.
    rewrite div_eucl_div_mod.
    unfold new_location. change (Z.even 8796093022208000) with true. cbv iota.
    unfold new_location_even, loc_of, C1000. reflexivity. }
  now apply binary_round_aux_value.
Qed.

(** Addition rounds the exact sum. *)
Lemma dadd_value (mx my : positive) (ex ey : Z) :
  normal (S754_finite false mx ex) → normal (S754_finite false my ey) →
  ex ≤ 800 → ey ≤ 800 →
  ∃ N e, roundable N 1 e ∧
         N * 2 ^ (e + scale) = value (S754_finite false mx ex) + value (S754_finite false my ey) ∧
         normal (dadd (S754_finite false mx ex) (S754_finite false my ey)) ∧
         value (dadd (S754_finite false mx ex) (S754_finite false my ey)) = rounded N 1 e.
Proof.
  intros Hx Hy Hex Hey.
  pose proof Hx as (_ & Hdx & Hex'). pose proof Hy as (_ & Hdy & Hey').
  pose proof (mantissa_bounds mx Hdx) as Hmx. pose proof (mantissa_bounds my Hdy) as Hmy.
  set (ez := Z.min ex ey).
  pose proof (shl_align_digits mx ex ez) as [Sx1 _].
  pose proof (shl_align_digits my ey ez) as [Sy1 _].
  pose proof (shl_align_value mx ex ez) as Vx.
  pose proof (shl_align_value my ey ez) as Vy.
  rewrite Sx1 in Vx. rewrite Sy1 in Vy.
  replace (Z.min ex ez) with ez in Vx by (subst ez; lia).
  replace (Z.min ey ez) with ez in Vy by (subst ez; lia).
  set (a := fst (shl_align mx ex ez)) in *. set (b := fst (shl_align my ey ez)) in *.
  assert (0 < 2 ^ (ex - ez)) by (apply Z.pow_pos_nonneg; subst ez; lia).
  assert (0 < 2 ^ (ey - ez)) by (apply Z.pow_pos_nonneg; subst ez; lia).
  assert (1 ≤ 2 ^ (ex - ez) ∧ 1 ≤ 2 ^ (ey - ez)) as [Hpx Hpy] by lia.
  assert (2 ^ 52 ≤ Z.pos (a + b)) as Hlow by (rewrite Pos2Z.inj_add; nia).
  assert (53 ≤ Zdigits2 (Z.pos (a + b))) as Hd by (apply Zdigits2_ge; [lia | exact Hlow]).
  assert (Zdigits2 (Z.pos (a + b)) + ez ≤ 855) as Hup.
  { assert (Zdigits2 (Z.pos (a + b)) ≤ 855 - ez); [|lia].
    apply Zdigits2_le; [lia|].
    assert (Z.pos a < 2 ^ (53 + (ex - ez))).
    { rewrite Vx, Z.pow_add_r by (subst ez; lia). nia. }
    assert (Z.pos b < 2 ^ (53 + (ey - ez))).
    { rewrite Vy, Z.pow_add_r by (subst ez; lia). nia. }
    assert (2 ^ (53 + (ex - ez)) ≤ 2 ^ (854 - ez)) by (apply Z.pow_le_mono_r; subst ez; lia).
    assert (2 ^ (53 + (ey - ez)) ≤ 2 ^ (854 - ez)) by (apply Z.pow_le_mono_r; subst ez; lia).
    replace (855 - ez) with (1 + (854 - ez)) by lia.
    rewrite Z.pow_add_r by (subst ez; lia). rewrite Pos2Z.inj_add. lia. }
  assert (roundable (Z.pos (a + b)) 1 ez) as R.
  { unfold roundable. rewrite Z.div_1_r. subst ez. lia. }
  exists (Z.pos (a + b)), ez. split; [exact R|]. split.
  - rewrite Pos2Z.inj_add, Vx, Vy. unfold value.
    rewrite Z.mul_add_distr_r, <- !Z.mul_assoc, <- !Z.pow_add_r by (unfold scale; subst ez; lia).
    f_equal; do 2 f_equal; lia.
  - assert (dadd (S754_finite false mx ex) (S754_finite false my ey)
            = binary_round_aux prec emax false (Z.pos (a + b)) ez loc_Exact) as ->.
    { unfold dadd, SFadd, cond_Zopp. change IntDef.Z.min with Z.min. fold ez. fold a. fold b.
      change (Z.pos a + Z.pos b) with (Z.pos (a + b)).
      unfold binary_normalize, binary_round.
      assert (shl_align (a + b) ez (fexp prec emax (Z.pos (digits2_pos (a + b)) + ez))
              = ((a + b)%positive, ez)) as ->; [|reflexivity].
      unfold shl_align.
      change (Z.pos (digits2_pos (a + b))) with (Zdigits2 (Z.pos (a + b))).
      destruct (fexp prec emax (Zdigits2 (Z.pos (a + b)) + ez) - ez) as [|d|d] eqn:E;
        try reflexivity.
      exfalso. unfold fexp, emin, prec, emax in E. lia. }
    now apply binary_round_aux_exact_value.
Qed.

Lemma rounded_canonical (m : positive) (e : Z) :
  Zdigits2 (Z.pos m) = 53 → rounded (Z.pos m) 1 e = Z.pos m * 2 ^ (e + scale).
Proof.
  intros Hd. unfold rounded, nearest. rewrite Z.div_1_r, Hd. simpl (53 - 53).
  rewrite Z.mul_1_l. change (2 ^ 0) with 1. rewrite Z.div_1_r, Z.mod_1_r.
  simpl round_nearest_even. do 2 f_equal. lia.
Qed.

(** A sum of two numbers that are zero or normal: either both are zero,
    or the result is the rounding of the exact sum. *)
Lemma dadd_rounds (x y : double) :
  normal x → normal y → value x < 2 ^ 800 * 2 ^ scale → value y < 2 ^ 800 * 2 ^ scale →
  normal (dadd x y) ∧
  ((value x + value y = 0 ∧ value (dadd x y) = 0) ∨
   ∃ N e, roundable N 1 e ∧ N * 2 ^ (e + scale) = value x + value y ∧ value (dadd x y) = rounded N 1 e).
Proof.
  intros Hx Hy Bx By.
  destruct x as [sx| | |sx mx ex]; unfold normal in Hx; try contradiction;
  destruct y as [sy| | |sy my ey]; unfold normal in Hy; try contradiction.
  - subst. split; [reflexivity|]. left. split; reflexivity.
  - pose proof Hy as (-> & Hd & He). subst sx.
    pose proof (exponent_upper my ey 800 Hy ltac:(lia) By) as Hey.
    split; [exact Hy|]. right. exists (Z.pos my), ey. split.
    + unfold roundable. rewrite Z.div_1_r. lia.
    + split; [reflexivity|]. symmetry. now apply rounded_canonical.
  - pose proof Hx as (-> & Hd & He). subst sy.
    pose proof (exponent_upper mx ex 800 Hx ltac:(lia) Bx) as Hex.
    split; [exact Hx|]. right. exists (Z.pos mx), ex. split.
    + unfold roundable. rewrite Z.div_1_r. lia.
    + split; [simpl; lia|]. symmetry. now apply rounded_canonical.
  - pose proof Hx as (-> & _). pose proof Hy as (-> & _).
    pose proof (exponent_upper mx ex 800 Hx ltac:(lia) Bx) as Hex.
    pose proof (exponent_upper my ey 800 Hy ltac:(lia) By) as Hey.
    destruct (dadd_value mx my ex ey Hx Hy ltac:(lia) ltac:(lia)) as (N & e & R & E & Hnf & HV).
    split; [exact Hnf|]. right. exists N, e. auto.
Qed.

Lemma roundable_pos (N D e : Z) : roundable N D e → 0 < N * 2 ^ (e + scale).
Proof.
  intros (HN & HD & Hd & _ & He).
  assert (0 < N).
  { destruct (Z.eq_dec N 0) as [->|]; [|lia]. rewrite Z.div_0_l in Hd by lia. simpl in Hd. lia. }
  apply Z.mul_pos_pos; [lia | apply Z.pow_pos_nonneg; unfold scale; lia].
Qed.

(** The two summands of [timestamp_of]. *)
Definition seconds_part (s : Z) : double := dmul (double_of_long s) d1000000.
Definition nanoseconds_part (n : Z) : double := ddiv (double_of_long n) d1000.

Lemma seconds_part_value (s : Z) :
  0 ≤ s → s * 1000000 < 2 ^ 59 →
  normal (seconds_part s) ∧ value (seconds_part s) = s * 1000000 * 2 ^ scale.
Proof.
  intros Hs Hb. destruct (double_of_long_value s ltac:(lia)) as [Hnf HV].
  now apply dmul_exact.
Qed.

Lemma nanoseconds_part_rounds (n : Z) :
  0 < n < 2 ^ 53 →
  normal (nanoseconds_part n) ∧
  ∃ N e, roundable N C1000 e ∧ N * 2 ^ (e + scale) = n * 2 ^ 43 * 2 ^ scale ∧
         value (nanoseconds_part n) = rounded N C1000 e.
Proof.
  intros Hn. destruct (double_of_long_value n ltac:(lia)) as [Hnf HV].
  assert (0 < 2 ^ scale) as HpK by (apply Z.pow_pos_nonneg; unfold scale; lia).
  unfold nanoseconds_part.
  destruct (double_of_long n) as [s| | |s mx ex]; unfold normal in Hnf; try contradiction.
  - simpl in HV. nia.
  - pose proof Hnf as (-> & Hd & He).
    assert (ex + 52 < 53) as Hup.
    { apply (exponent_upper mx ex 53 Hnf); [lia|]. rewrite HV. nia. }
    assert (0 < ex + 53) as Hlo.
    { apply (exponent_lower mx ex 0 Hnf); [lia|]. rewrite HV. simpl (2 ^ 0). nia. }
    destruct (ddiv_value mx ex Hnf ltac:(lia)) as (R & Hnfq & HVq).
    split; [exact Hnfq|]. exists (Z.pos mx * 2 ^ 53), (ex - 10).
    split; [exact R|]. split; [|exact HVq].
    unfold value in HV. replace (n * 2 ^ 43 * 2 ^ scale) with (n * 2 ^ scale * 2 ^ 43) by ring.
    rewrite <- HV.
    assert (2 ^ (ex - 10 + scale) * 2 ^ 10 = 2 ^ (ex + scale)) as Ep.
    { rewrite <- Z.pow_add_r by (unfold scale; lia). f_equal. lia. }
    rewrite <- Ep. change (2 ^ 53) with (2 ^ 43 * 2 ^ 10). ring.
Qed.

Lemma nanoseconds_part_zero : nanoseconds_part 0 = S754_zero false.
Proof. reflexivity. Qed.

Lemma nanoseconds_part_normal (n : Z) : 0 ≤ n < 2 ^ 53 → normal (nanoseconds_part n).
Proof.
  intros Hn. destruct (Z.eq_dec n 0) as [->|]; [reflexivity|].
  apply nanoseconds_part_rounds. lia.
Qed.

Lemma nanoseconds_part_mono (n1 n2 : Z) :
  0 ≤ n1 ≤ n2 → n2 < 2 ^ 53 → value (nanoseconds_part n1) ≤ value (nanoseconds_part n2).
Proof.
  intros H12 H2. destruct (Z.eq_dec n1 0) as [->|Hne].
  - rewrite nanoseconds_part_zero. simpl. apply value_nonneg.
  - destruct (nanoseconds_part_rounds n1 ltac:(lia)) as (_ & N1 & e1 & R1 & E1 & ->).
    destruct (nanoseconds_part_rounds n2 ltac:(lia)) as (_ & N2 & e2 & R2 & E2 & ->).
    apply rounded_mono; try assumption. rewrite E1, E2.
    assert (0 < 2 ^ scale) by (apply Z.pow_pos_nonneg; unfold scale; lia).
    unfold C1000. nia.
Qed.

Lemma nanoseconds_part_upper (n : Z) :
  0 ≤ n < 10 ^ 9 → value (nanoseconds_part n) ≤ 1000000 * 2 ^ scale.
Proof.
  intros Hn.
  assert (value (nanoseconds_part (10 ^ 9)) = 1000000 * 2 ^ scale) as <- by (vm_compute; reflexivity).
  apply nanoseconds_part_mono; lia.
Qed.

(** Order of two readings of the clock. *)
Definition timespec_le (a b : timespec) : Prop :=
  tv_sec a < tv_sec b ∨ (tv_sec a = tv_sec b ∧ tv_nsec a ≤ tv_nsec b).

(** A reading whose microseconds fit the 53 bits of a double: less than
    [2^53] microseconds, about 285 years. *)
Definition exact_microseconds (ts : timespec) : Prop :=
  0 ≤ tv_sec ts ∧ tv_sec ts * 1000000 < 2 ^ 53 ∧ 0 ≤ tv_nsec ts < 10 ^ 9.

Lemma timestamp_of_parts (ts : timespec) :
  timestamp_of ts = dadd (seconds_part (tv_sec ts)) (nanoseconds_part (tv_nsec ts)).
Proof. reflexivity. Qed.

(** A reading of a clock that has run for less than [2^59] microseconds,
    some 18000 years; the product [tv_sec * 1000000.0] is exact there. *)
Definition in_clock_range (ts : timespec) : Prop :=
  0 ≤ tv_sec ts ∧ tv_sec ts * 1000000 < 2 ^ 59 ∧ 0 ≤ tv_nsec ts < 10 ^ 9.

Lemma exact_in_clock_range (ts : timespec) : exact_microseconds ts → in_clock_range ts.
Proof. unfold exact_microseconds, in_clock_range. lia. Qed.

(** Every reading of a clock that counts nanoseconds in 64 bits is in
    that range. *)
Lemma nanosecond_counter_in_clock_range (ts : timespec) :
  0 ≤ tv_sec ts → 0 ≤ tv_nsec ts < 10 ^ 9 → tv_sec ts * 10 ^ 9 + tv_nsec ts < 2 ^ 63 →
  in_clock_range ts.
Proof. unfold in_clock_range. lia. Qed.

Lemma timestamp_of_rounds_in_range (ts : timespec) :
  in_clock_range ts →
  normal (timestamp_of ts) ∧
  let X := tv_sec ts * 1000000 * 2 ^ scale + value (nanoseconds_part (tv_nsec ts)) in
  (X = 0 ∧ value (timestamp_of ts) = 0) ∨
  ∃ N e, roundable N 1 e ∧ N * 2 ^ (e + scale) = X ∧ value (timestamp_of ts) = rounded N 1 e.
Proof.
  intros (Hs & Hb & Hn).
  destruct (seconds_part_value (tv_sec ts) Hs Hb) as [HnfP HVP].
  pose proof (nanoseconds_part_normal (tv_nsec ts) ltac:(lia)) as HnfQ.
  pose proof (nanoseconds_part_upper (tv_nsec ts) Hn) as HQ.
  assert (0 < 2 ^ scale) as HpK by (apply Z.pow_pos_nonneg; unfold scale; lia).
  assert (2 ^ 60 * 2 ^ scale ≤ 2 ^ 800 * 2 ^ scale) as Hbig.
  { apply Z.mul_le_mono_nonneg_r; [lia|]. apply Z.pow_le_mono_r; lia. }
  rewrite timestamp_of_parts, <- HVP.
  apply dadd_rounds; try assumption.
  - rewrite HVP. nia.
  - nia.
Qed.

Lemma timestamp_of_rounds (ts : timespec) :
  exact_microseconds ts →
  normal (timestamp_of ts) ∧
  let X := tv_sec ts * 1000000 * 2 ^ scale + value (nanoseconds_part (tv_nsec ts)) in
  (X = 0 ∧ value (timestamp_of ts) = 0) ∨
  ∃ N e, roundable N 1 e ∧ N * 2 ^ (e + scale) = X ∧ value (timestamp_of ts) = rounded N 1 e.
Proof. intros H. apply timestamp_of_rounds_in_range. now apply exact_in_clock_range. Qed.

(** On readings in that range [timestamp_of] is monotone. *)
Lemma timestamp_of_mono_in_range (a b : timespec) :
  in_clock_range a → in_clock_range b → timespec_le a b →
  SFleb (timestamp_of a) (timestamp_of b) = true.
Proof.
  intros Ha Hb Hab.
  destruct (timestamp_of_rounds_in_range a Ha) as [Hnfa Hra].
  destruct (timestamp_of_rounds_in_range b Hb) as [Hnfb Hrb].
  apply SFleb_value; try assumption.
  assert (0 < 2 ^ scale) as HpK by (apply Z.pow_pos_nonneg; unfold scale; lia).
  assert (tv_sec a * 1000000 * 2 ^ scale + value (nanoseconds_part (tv_nsec a))
          ≤ tv_sec b * 1000000 * 2 ^ scale + value (nanoseconds_part (tv_nsec b))) as HX.
  { destruct Ha as (Hsa & Hba & Hna). destruct Hb as (Hsb & Hbb & Hnb).
    destruct Hab as [Hlt|[Heq Hle]].
    - pose proof (nanoseconds_part_upper (tv_nsec a) Hna).
      pose proof (value_nonneg (nanoseconds_part (tv_nsec b))). nia.
    - rewrite Heq. apply Z.add_le_mono_l. apply nanoseconds_part_mono; lia. }
  cbv zeta in Hra, Hrb.
  destruct Hra as [[_ ->]|(N1 & e1 & R1 & E1 & ->)]; [apply value_nonneg|].
  destruct Hrb as [[X0 _]|(N2 & e2 & R2 & E2 & ->)].
  - exfalso. pose proof (roundable_pos _ _ _ R1). lia.
  - apply rounded_mono; try assumption. lia.
Qed.

Lemma timestamp_of_mono (a b : timespec) :
  exact_microseconds a → exact_microseconds b → timespec_le a b →
  SFleb (timestamp_of a) (timestamp_of b) = true.
Proof. intros Ha Hb. apply timestamp_of_mono_in_range; now apply exact_in_clock_range. Qed.

End Rounding.

(** * What a call does to the output and to the clock *)

(** The call wrote nothing and did not query the clock. *)
Definition silent {A : Type} (m : M A) (w : world) : Prop :=
  stdout (exec m w) = stdout w ∧ clock_reads (exec m w) = clock_reads w.

(** The call queried the clock once and then wrote one line, and did
    nothing else that is recorded. *)
Definition emits_one_line {A : Type} (m : M A) (w : world) : Prop :=
  ∃ line, one_line line = true ∧
          effects (exec m w) = effects w ++ [ClockGettime; Stdout line].

Section Lines.
Context `{OT : omp_tools}.

Lemma one_line_label (pre label : string) :
  lf_free pre = true → one_line (pre +:+ label +:+ LF) = lf_free label.
Proof.
  intros Hpre. induction pre as [|x pre IH].
  - clear Hpre. change (one_line (label +:+ LF) = lf_free label).
    induction label as [|y label IH]; [reflexivity|].
    rewrite append_cons. unfold lf_free, all_chars, not_lf in *. simpl.
    destruct (Ascii.eqb y "010") eqn:Ey; simpl; [|exact IH].
    destruct label; reflexivity.
  - unfold lf_free, all_chars in Hpre. simpl in Hpre.
    apply andb_prop in Hpre as [Hx Hp]. apply negb_true_iff in Hx.
    rewrite append_cons. simpl. rewrite Hx. now apply IH.
Qed.

Lemma dir_lf_free (b : bool) (x y : string) :
  lf_free x = true → lf_free y = true → lf_free (if b then x else y) = true.
Proof. now destruct b. Qed.

Lemma work_type_str_lf_free (k : Z) : lf_free (work_type_str k) = true.
Proof. unfold work_type_str. repeat (destruct (_ =? _); [reflexivity|]). reflexivity. Qed.

Lemma sync_type_str_lf_free (k : Z) : lf_free (sync_type_str k) = true.
Proof. unfold sync_type_str. repeat (destruct (_ =? _); [reflexivity|]). reflexivity. Qed.

(** A record is one line as soon as its variable parts have no line feed. *)
Lemma record_one_line (prefix : string) (tid : Z) (event : string) (ts : timespec)
    (tail : string) :
  lf_free prefix = true → lf_free event = true →
  one_line (record prefix tid event ts tail) = lf_free tail.
Proof.
  intros Hp He. unfold record.
  replace ("[" +:+ prefix +:+ "] Thread " +:+ dec (wrap_signed 32 tid) +:+ " " +:+ event
             +:+ " at " +:+ ms_field ts +:+ " ms" +:+ tail +:+ LF)
    with (("[" +:+ prefix +:+ "] Thread " +:+ dec (wrap_signed 32 tid) +:+ " " +:+ event
             +:+ " at " +:+ ms_field ts +:+ " ms") +:+ tail +:+ LF)
    by (rewrite ?append_assoc; reflexivity).
  apply one_line_label.
  rewrite !lf_free_app, Hp, He, dec_lf_free, ms_field_lf_free. reflexivity.
Qed.

Lemma emits_one_line_intro {A : Type} (m : M A) (w : world) (line : string) :
  exec m w = emit (Stdout line) (emit ClockGettime w) → one_line line = true →
  emits_one_line m w.
Proof. intros E Hl. exists line. split; [assumption|]. rewrite E. apply effects_emit2. Qed.

Lemma parallel_begin_emits (n : Z) (w : world) :
  emits_one_line (on_ompt_callback_parallel_begin n) w.
Proof.
  eapply emits_one_line_intro; [apply parallel_begin_eq|].
  rewrite record_one_line by reflexivity. rewrite !lf_free_app, dec_lf_free. reflexivity.
Qed.

Lemma parallel_end_emits (w : world) : emits_one_line on_ompt_callback_parallel_end w.
Proof.
  eapply emits_one_line_intro; [apply parallel_end_eq|].
  now rewrite record_one_line.
Qed.

Lemma work_emits (work_type endpoint count : Z) (w : world) :
  emits_one_line (on_ompt_callback_work work_type endpoint count) w.
Proof.
  eapply emits_one_line_intro; [apply work_eq|].
  rewrite record_one_line; [|reflexivity|now destruct (endpoint =? _)].
  rewrite !lf_free_app, dec_lf_free, work_type_str_lf_free. reflexivity.
Qed.

Lemma implicit_task_emits (endpoint team_size : Z) (w : world) :
  emits_one_line (on_ompt_callback_implicit_task endpoint team_size) w.
Proof.
  eapply emits_one_line_intro; [apply implicit_task_eq|].
  rewrite record_one_line; [|reflexivity|now destruct (endpoint =? _)].
  rewrite !lf_free_app, dec_lf_free. reflexivity.
Qed.

Lemma sync_region_emits (kind endpoint : Z) (w : world) :
  emits_one_line (on_ompt_callback_sync_region kind endpoint) w.
Proof.
  eapply emits_one_line_intro; [apply sync_region_eq|].
  rewrite record_one_line; [reflexivity|reflexivity|].
  rewrite !lf_free_app, sync_type_str_lf_free. now destruct (endpoint =? _).
Qed.

Lemma ompt_annotate_disabled (annotation : string) (w : world) :
  activation w = false → exec (ompt_annotate annotation) w = latch w.
Proof. intros H. now rewrite ompt_annotate_eq, latch_ompt_loaded, H. Qed.

Lemma ompt_annotate_silent (annotation : string) (w : world) :
  activation w = false → silent (ompt_annotate annotation) w.
Proof.
  intros H. unfold silent. rewrite (ompt_annotate_disabled _ _ H).
  split; [apply latch_stdout | apply latch_clock_reads].
Qed.

End Lines.

(** * Activation and the latch *)

(** A process started without the variable and one started with it. *)
Definition untraced : world := boot ∅ tick_clock.
Definition traced : world :=
  boot {[ "OMP_TOOL_LIBRARIES"%string := "libvisualizer_tool.so"%string ]} tick_clock.

(** The sentence "with activation disabled the operation writes nothing
    and does not query the clock", for one call in one world. *)
Definition silent_when_disabled `{OT : omp_tools} (c : call) (w : world) : Prop :=
  activation w = false → silent (perform c) w.

(** C1, counterexample.  In a process started without
    OMP_TOOL_LIBRARIES the parallel-begin handler queries the clock and
    writes its record all the same: the handlers of visualizer_tool.c
    never read [ompt_loaded]. *)
Lemma parallel_begin_not_silent :
  activation untraced = false ∧
  stdout (exec (on_ompt_callback_parallel_begin 4) untraced)
    = "[OMPT] Thread 0 PARALLEL BEGIN at 0.250 ms (requested threads: 4)" +:+ LF ∧
  clock_reads (exec (on_ompt_callback_parallel_begin 4) untraced) = 1%nat ∧
  ¬ @silent_when_disabled openmp_5_0 (ParallelBegin 4) untraced.
Proof.
  split; [reflexivity|]. split; [vm_compute; reflexivity|]. split; [vm_compute; reflexivity|].
  intros H. destruct (H eq_refl) as [Hout _]. vm_compute in Hout. discriminate Hout.
Qed.

(** C1, amended.  With activation disabled, [ompt_annotate] and its two
    wrappers write nothing and do not query the clock; each of the five
    lifecycle handlers still queries the clock once and writes one line. *)
Theorem disabled_annotation_silent_handlers_emit `{OT : omp_tools} (w : world) :
  activation w = false →
  (∀ annotation, silent (ompt_annotate annotation) w) ∧
  silent ompt_mark_roi_start w ∧
  silent ompt_mark_roi_end w ∧
  (∀ n, emits_one_line (on_ompt_callback_parallel_begin n) w) ∧
  emits_one_line on_ompt_callback_parallel_end w ∧
  (∀ work_type endpoint count,
     emits_one_line (on_ompt_callback_work work_type endpoint count) w) ∧
  (∀ endpoint team_size,
     emits_one_line (on_ompt_callback_implicit_task endpoint team_size) w) ∧
  (∀ kind endpoint, emits_one_line (on_ompt_callback_sync_region kind endpoint) w).
Proof.
  intros Hoff.
  refine (conj _ (conj _ (conj _ (conj _ (conj _ (conj _ (conj _ _))))))).
  - intros a. now apply ompt_annotate_silent.
  - now apply ompt_annotate_silent.
  - now apply ompt_annotate_silent.
  - intros n. apply parallel_begin_emits.
  - apply parallel_end_emits.
  - intros t e n. apply work_emits.
  - intros e n. apply implicit_task_emits.
  - intros k e. apply sync_region_emits.
Qed.

Lemma disabled_annotation_silent_handlers_emit_witness :
  activation untraced = false ∧
  silent ompt_mark_roi_start untraced ∧
  emits_one_line (@on_ompt_callback_work openmp_5_0 1 1 10) untraced.
Proof.
  split; [reflexivity|].
  destruct (@disabled_annotation_silent_handlers_emit openmp_5_0 untraced eq_refl)
    as (_ & Hroi & _ & _ & _ & Hwork & _).
  split; [exact Hroi | exact (Hwork 1 1 10)].
Defined.

(** ** Runs: when the check happens *)

Definition label_of (c : call) : string :=
  match c with
  | Annotate a => a
  | MarkRoiStart => "ROI_START"
  | MarkRoiEnd => "ROI_END"
  | _ => ""
  end.

(** A record written by [ompt_annotate]. *)
Definition is_annotation_record (s : string) : bool :=
  String.prefix "[OMPT_annotation]" s.
Definition any_record (s : string) : bool := true.

(** In the list of effects [es], every write selected by [P] comes after
    a look-up of the environment ([checked]: one was seen already). *)
Fixpoint after_check (P : string → bool) (checked : bool) (es : list effect) : bool :=
  match es with
  | [] => true
  | Getenv _ :: r => after_check P true r
  | ClockGettime :: r => after_check P checked r
  | Stdout s :: r => (checked || negb (P s)) && after_check P checked r
  end.

Definition no_annotation (cs : list (Z * call)) : bool :=
  forallb (λ tc, negb (is_annotation (snd tc))) cs.

Section Latch.
Context `{OT : omp_tools}.

Lemma perform_annotation (c : call) :
  is_annotation c = true → perform c = ompt_annotate (label_of c).
Proof. destruct c; try discriminate; reflexivity. Qed.

Lemma after_check_app P (checked : bool) (es fs : list effect) :
  after_check P checked (es ++ fs) =
  after_check P checked es && after_check P (checked || existsb is_getenv es) fs.
Proof.
  revert checked. induction es as [|[n| |s] es IH]; intros checked; simpl.
  - now rewrite orb_false_r.
  - rewrite IH. now rewrite orb_true_r.
  - apply IH.
  - rewrite IH. now rewrite andb_assoc.
Qed.

Lemma env_lookups_existsb (w : world) :
  existsb is_getenv (effects w) = negb (Nat.eqb (env_lookups w) 0).
Proof.
  unfold env_lookups. induction (effects w) as [|e es IH]; [reflexivity|].
  simpl. destruct (is_getenv e); simpl; [reflexivity | exact IH].
Qed.

Lemma step_lifecycle (t : Z) (c : call) (w : world) :
  is_lifecycle c = true →
  ∃ line, is_annotation_record line = false ∧
          step w (t, c) = emit (Stdout line) (emit ClockGettime (with_thread_num t w)).
Proof.
  destruct c; try discriminate; intros _; unfold step; cbn [snd fst perform].
  - rewrite parallel_begin_eq. eexists. split; [|reflexivity]. reflexivity.
  - rewrite parallel_end_eq. eexists. split; [|reflexivity]. reflexivity.
  - rewrite work_eq. eexists. split; [|reflexivity]. reflexivity.
  - rewrite implicit_task_eq. eexists. split; [|reflexivity]. reflexivity.
  - rewrite sync_region_eq. eexists. split; [|reflexivity]. reflexivity.
Qed.

Lemma call_kinds (c : call) :
  is_annotation c = true ∨ is_lifecycle c = true ∨
  (∃ n v, c = Setenv n v) ∨ (∃ n, c = Unsetenv n).
Proof. destruct c; simpl; eauto 6. Qed.

Lemma ompt_annotate_effects (annotation : string) (w : world) :
  ∃ line,
    is_annotation_record line = true ∧
    effects (exec (ompt_annotate annotation) w) =
    effects w ++ (if first_call w then [Getenv "OMP_TOOL_LIBRARIES"] else [])
              ++ (if activation w then [ClockGettime; Stdout line] else []).
Proof.
  eexists. split; [|rewrite ompt_annotate_eq, latch_ompt_loaded].
  2: { destruct (activation w).
       - rewrite effects_emit2, latch_effects, <- List.app_assoc. reflexivity.
       - rewrite latch_effects, List.app_nil_r. reflexivity. }
  reflexivity.
Qed.

Lemma ompt_annotate_flags (annotation : string) (w : world) :
  first_call (exec (ompt_annotate annotation) w) = false ∧
  ompt_loaded (exec (ompt_annotate annotation) w) = activation w ∧
  environ (exec (ompt_annotate annotation) w) = environ w.
Proof.
  rewrite ompt_annotate_eq, latch_ompt_loaded.
  destruct (activation w) eqn:E; cbn [first_call ompt_loaded environ emit];
    rewrite latch_first_call, latch_ompt_loaded, latch_environ; auto.
Qed.

Lemma ompt_annotate_env_lookups (annotation : string) (w : world) :
  env_lookups (exec (ompt_annotate annotation) w) =
  (env_lookups w + if first_call w then 1 else 0)%nat.
Proof.
  destruct (ompt_annotate_effects annotation w) as (line & _ & E).
  unfold env_lookups. rewrite E, !List.filter_app, !List.length_app.
  destruct (first_call w), (activation w); simpl; lia.
Qed.

(** A call that is not an annotation leaves the latch and the count of
    look-ups alone. *)
Lemma step_other (t : Z) (c : call) (w : world) :
  is_annotation c = false →
  first_call (step w (t, c)) = first_call w ∧
  ompt_loaded (step w (t, c)) = ompt_loaded w ∧
  env_lookups (step w (t, c)) = env_lookups w.
Proof.
  intros Hc. destruct (call_kinds c) as [H|[H|[(n & v & ->)|(n & ->)]]].
  - congruence.
  - destruct (step_lifecycle t c w H) as (line & _ & ->).
    rewrite !env_lookups_emit. simpl. repeat split. unfold env_lookups. simpl. lia.
  - repeat split.
  - repeat split.
Qed.

(** Once latched, no call changes the activation state or looks the
    variable up again. *)
Lemma step_latched (t : Z) (c : call) (w : world) :
  first_call w = false →
  first_call (step w (t, c)) = false ∧
  ompt_loaded (step w (t, c)) = ompt_loaded w ∧
  env_lookups (step w (t, c)) = env_lookups w.
Proof.
  intros Hfc. destruct (is_annotation c) eqn:Hc.
  - unfold step. cbn [fst snd]. rewrite (perform_annotation c Hc).
    destruct (ompt_annotate_flags (label_of c) (with_thread_num t w)) as (H1 & H2 & _).
    rewrite H1, H2, ompt_annotate_env_lookups. unfold activation. simpl. rewrite Hfc.
    repeat split. unfold env_lookups. simpl. lia.
  - destruct (step_other t c w Hc) as (H1 & H2 & H3). rewrite H1, H2, H3. auto.
Qed.

Lemma run_latched (cs : list (Z * call)) (w : world) :
  first_call w = false →
  first_call (run cs w) = false ∧
  ompt_loaded (run cs w) = ompt_loaded w ∧
  env_lookups (run cs w) = env_lookups w.
Proof.
  revert w. induction cs as [|[t c] cs IH]; intros w Hfc; [auto|].
  destruct (step_latched t c w Hfc) as (H1 & H2 & H3).
  destruct (IH (step w (t, c)) H1) as (I1 & I2 & I3).
  change (run ((t, c) :: cs) w) with (run cs (step w (t, c))).
  rewrite I1, I2, I3. auto.
Qed.

Lemma run_no_annotation (cs : list (Z * call)) (w : world) :
  no_annotation cs = true →
  first_call (run cs w) = first_call w ∧
  ompt_loaded (run cs w) = ompt_loaded w ∧
  env_lookups (run cs w) = env_lookups w.
Proof.
  revert w. induction cs as [|[t c] cs IH]; intros w Hcs; [auto|].
  simpl in Hcs. apply andb_prop in Hcs as [Hc Hcs]. apply negb_true_iff in Hc.
  destruct (step_other t c w Hc) as (H1 & H2 & H3).
  destruct (IH (step w (t, c)) Hcs) as (I1 & I2 & I3).
  change (run ((t, c) :: cs) w) with (run cs (step w (t, c))).
  rewrite I1, I2, I3. auto.
Qed.

(** Annotation records are written after the look-up, and a latched
    process has looked the variable up. *)
Definition guarded (w : world) : Prop :=
  after_check is_annotation_record false (effects w) = true ∧
  (first_call w = false → existsb is_getenv (effects w) = true).

Lemma guarded_step (t : Z) (c : call) (w : world) : guarded w → guarded (step w (t, c)).
Proof.
  intros [Ha Hg]. destruct (call_kinds c) as [H|[H|[(n & v & ->)|(n & ->)]]].
  - unfold step. cbn [fst snd]. rewrite (perform_annotation c H).
    destruct (ompt_annotate_effects (label_of c) (with_thread_num t w)) as (line & Hl & E).
    split.
    + rewrite E, !after_check_app. change (effects (with_thread_num t w)) with (effects w).
      rewrite Ha. change (first_call (with_thread_num t w)) with (first_call w).
      destruct (first_call w) eqn:Hfc.
      * simpl. destruct (activation _); simpl; [now rewrite orb_true_r | reflexivity].
      * rewrite (Hg eq_refl). destruct (activation _); reflexivity.
    + intros _. rewrite E, !existsb_app.
      change (effects (with_thread_num t w)) with (effects w).
      change (first_call (with_thread_num t w)) with (first_call w).
      destruct (first_call w) eqn:Hfc; [now rewrite orb_true_r | now rewrite (Hg eq_refl)].
  - destruct (step_lifecycle t c w H) as (line & Hl & ->).
    unfold guarded. rewrite effects_emit2.
    change (effects (with_thread_num t w)) with (effects w).
    split.
    + rewrite after_check_app, Ha. simpl. rewrite Hl. now rewrite orb_true_r.
    + intros Hfc. rewrite existsb_app, (Hg Hfc). reflexivity.
  - exact (conj Ha Hg).
  - exact (conj Ha Hg).
Qed.

Lemma guarded_run (cs : list (Z * call)) (w : world) : guarded w → guarded (run cs w).
Proof.
  revert w. induction cs as [|[t c] cs IH]; intros w Hw; [assumption|].
  change (run ((t, c) :: cs) w) with (run cs (step w (t, c))).
  apply IH. apply guarded_step. exact Hw.
Qed.

Lemma run_app (cs ds : list (Z * call)) (w : world) : run (cs ++ ds) w = run ds (run cs w).
Proof. apply fold_left_app. Qed.

End Latch.

(** C2, counterexample.  The runtime calls the parallel-begin handler in
    a traced process before the application has annotated anything: a
    record is written and the environment has not been looked up, so the
    activation state was not computed before that event. *)
Lemma event_before_check :
  let w := @run openmp_5_0 [(0, ParallelBegin 4)] traced in
  effects w =
    [ClockGettime;
     Stdout ("[OMPT] Thread 0 PARALLEL BEGIN at 0.250 ms (requested threads: 4)" +:+ LF)] ∧
  env_lookups w = 0%nat ∧
  first_call w = true ∧
  after_check any_record false (effects w) = false.
Proof. vm_compute. repeat split; reflexivity. Qed.

(** C2, amended.  In every run of a freshly started process whose first
    call of the annotation interface is [c], after any calls [pre] of the
    handlers and changes of the environment: the variable is not looked
    up before [c]; it is looked up exactly once in the whole run; the
    activation state is the presence of the variable at the time of [c]
    and the first-call flag stays cleared, whatever the calls [post] do,
    changes of the environment included; and every annotation record is
    written after the look-up.  (Records of the lifecycle handlers are
    not ordered after it.) *)
Theorem activation_checked_once_at_first_annotation `{OT : omp_tools}
    (pre post : list (Z * call)) (t : Z) (c : call)
    (env : gmap string string) (clock : nat → timespec) :
  is_annotation c = true →
  no_annotation pre = true →
  let w0 := boot env clock in
  let w := run (pre ++ (t, c) :: post) w0 in
  env_lookups (run pre w0) = 0%nat ∧
  env_lookups w = 1%nat ∧
  first_call w = false ∧
  ompt_loaded w = env_present (run pre w0) ∧
  after_check is_annotation_record false (effects w) = true.
Proof.
  intros Hc Hpre w0 w.
  destruct (run_no_annotation pre w0 Hpre) as (P1 & P2 & P3).
  set (w1 := run pre w0) in *.
  set (w2 := step w1 (t, c)).
  assert (w = run post w2) as Ew.
  { subst w w2 w1. rewrite run_app. reflexivity. }
  assert (first_call w2 = false ∧ ompt_loaded w2 = env_present w1 ∧
          env_lookups w2 = 1%nat) as (S1 & S2 & S3).
  { subst w2. unfold step. cbn [fst snd]. rewrite (perform_annotation c Hc).
    destruct (ompt_annotate_flags (label_of c) (with_thread_num t w1)) as (F1 & F2 & _).
    rewrite F1, F2, ompt_annotate_env_lookups.
    change (first_call (with_thread_num t w1)) with (first_call w1).
    change (env_lookups (with_thread_num t w1)) with (env_lookups w1).
    unfold activation.
    change (first_call (with_thread_num t w1)) with (first_call w1).
    rewrite P1, P3. auto. }
  destruct (run_latched post w2 S1) as (L1 & L2 & L3).
  refine (conj P3 (conj _ (conj _ (conj _ _)))).
  - rewrite Ew, L3. exact S3.
  - rewrite Ew. exact L1.
  - rewrite Ew, L2. exact S2.
  - assert (guarded w0) as G0 by (split; [reflexivity | discriminate]).
    subst w. exact (proj1 (guarded_run _ w0 G0)).
Qed.

Lemma activation_checked_once_at_first_annotation_witness :
  let pre := [(0, ParallelBegin 4); (1, Unsetenv "OMP_TOOL_LIBRARIES")] in
  let post := [(0, Setenv "OMP_TOOL_LIBRARIES" "x"); (2, Annotate "late"); (0, ParallelEnd)] in
  is_annotation MarkRoiStart = true ∧ no_annotation pre = true ∧
  env_lookups (@run openmp_5_0 (pre ++ (0, MarkRoiStart) :: post) traced) = 1%nat ∧
  ompt_loaded (@run openmp_5_0 (pre ++ (0, MarkRoiStart) :: post) traced) = false.
Proof.
  intros pre post. split; [reflexivity|]. split; [reflexivity|].
  destruct (@activation_checked_once_at_first_annotation openmp_5_0 pre post 0 MarkRoiStart
              {[ "OMP_TOOL_LIBRARIES"%string := "libvisualizer_tool.so"%string ]} tick_clock
              eq_refl eq_refl) as (_ & H1 & _ & H2 & _).
  split; [exact H1 | exact H2].
Defined.

(** * Attaching the tool *)

(** C4.  When [lookup] does not resolve "ompt_set_callback", [initializer]
    returns normally with status 1 and its whole effect is two lines on
    standard output, the second being the warning: the table of
    callbacks, the environment, the latch and the clock are untouched.
    Whatever [lookup] answers and whatever the registration function
    does, the status returned is 1, which is not 0. *)
Theorem initializer_without_registration `{OT : omp_tools}
    (lookup : string → option ompt_set_callback_t) (w : world) :
  lookup "ompt_set_callback"%string = None →
  initializer lookup w =
    (1, emit (Stdout ("Warning: Could not register OMPT callbacks" +:+ LF))
          (emit (Stdout ("OMPT Tool Initialized" +:+ LF)) w)) ∧
  callback_table (exec (initializer lookup) w) = callback_table w ∧
  stdout (exec (initializer lookup) w) =
    stdout w +:+ "OMPT Tool Initialized" +:+ LF
             +:+ "Warning: Could not register OMPT callbacks" +:+ LF ∧
  (∀ lookup' w', fst (initializer lookup' w') = 1 ∧ fst (initializer lookup' w') ≠ 0).
Proof.
  intros Hnone.
  assert (initializer lookup w =
    (1, emit (Stdout ("Warning: Could not register OMPT callbacks" +:+ LF))
          (emit (Stdout ("OMPT Tool Initialized" +:+ LF)) w))) as E.
  { unfold initializer, bind. rewrite Hnone. reflexivity. }
  refine (conj E (conj _ (conj _ _))).
  - unfold exec. rewrite E. reflexivity.
  - unfold exec. rewrite E. cbn [snd]. rewrite !stdout_emit_out.
    rewrite append_assoc. reflexivity.
  - intros lookup' w'.
    assert (fst (initializer lookup' w') = 1) as ->; [|split; [reflexivity | discriminate]].
    unfold initializer, bind, printf, ret.
    destruct (lookup' "ompt_set_callback"%string) as [f|]; [|reflexivity].
    repeat match goal with |- context [f ?e ?cb ?x] => destruct (f e cb x) end.
    reflexivity.
Qed.

Lemma initializer_without_registration_witness :
  (λ _ : string, @None ompt_set_callback_t) "ompt_set_callback"%string = None ∧
  @initializer openmp_5_0 (λ _, None) untraced =
    (1, emit (Stdout ("Warning: Could not register OMPT callbacks" +:+ LF))
          (emit (Stdout ("OMPT Tool Initialized" +:+ LF)) untraced)).
Proof.
  split; [reflexivity|].
  exact (proj1 (@initializer_without_registration openmp_5_0 (λ _, None) untraced eq_refl)).
Defined.

(** With the runtime's own registration function the five handlers end
    up in the table. *)
Example initializer_registers :
  let w := exec (@initializer openmp_5_0 runtime_lookup) untraced in
  callback_table w !! 3 = Some cb_parallel_begin ∧
  callback_table w !! 4 = Some cb_parallel_end ∧
  callback_table w !! 20 = Some cb_work ∧
  callback_table w !! 7 = Some cb_implicit_task ∧
  callback_table w !! 23 = Some cb_sync_region ∧
  stdout w = "OMPT Tool Initialized" +:+ LF
               +:+ "OMPT callbacks registered successfully" +:+ LF.
Proof. vm_compute. repeat split; reflexivity. Qed.

(** * Display names *)

Section Kinds.
Context `{OT : omp_tools}.

(** The work kinds and sync-region kinds the tool knows, with the name
    each is displayed under. *)
Definition work_names : list (Z * string) :=
  [ (ompt_work_loop, "loop"); (ompt_work_sections, "sections");
    (ompt_work_single_executor, "single"); (ompt_work_single_other, "single_other");
    (ompt_work_workshare, "workshare"); (ompt_work_distribute, "distribute");
    (ompt_work_taskloop, "taskloop") ]%string.

Definition sync_names : list (Z * string) :=
  [ (ompt_sync_region_barrier, "barrier");
    (ompt_sync_region_barrier_implicit, "implicit_barrier");
    (ompt_sync_region_barrier_explicit, "explicit_barrier");
    (ompt_sync_region_barrier_implementation, "implementation_barrier");
    (ompt_sync_region_taskwait, "taskwait"); (ompt_sync_region_taskgroup, "taskgroup");
    (ompt_sync_region_reduction, "reduction") ]%string.

(** The first entry of a table for a key, the reading of a chain of
    conditionals. *)
Fixpoint first_match (k : Z) (table : list (Z * string)) (default : string) : string :=
  match table with
  | [] => default
  | (k', name) :: rest => if k =? k' then name else first_match k rest default
  end.

Lemma work_type_str_table (k : Z) : work_type_str k = first_match k work_names "unknown".
Proof. reflexivity. Qed.

Lemma sync_type_str_table (k : Z) : sync_type_str k = first_match k sync_names "unknown".
Proof. reflexivity. Qed.

Lemma first_match_in (k : Z) (name default : string) (table : list (Z * string)) :
  List.NoDup (List.map fst table) → List.In (k, name) table →
  first_match k table default = name.
Proof.
  induction table as [|[k' n'] table IH]; simpl; [tauto|].
  intros Hnd [Heq|Hin].
  - injection Heq as -> ->. now rewrite Z.eqb_refl.
  - apply List.NoDup_cons_iff in Hnd as [Hk' Hnd].
    destruct (Z.eqb_spec k k') as [->|_]; [|now apply IH].
    exfalso. apply Hk'. apply (List.in_map fst) in Hin. exact Hin.
Qed.

Lemma first_match_not_in (k : Z) (default : string) (table : list (Z * string)) :
  ¬ List.In k (List.map fst table) → first_match k table default = default.
Proof.
  induction table as [|[k' n'] table IH]; simpl; [reflexivity|].
  intros Hk. destruct (Z.eqb_spec k k') as [->|_]; [tauto|]. apply IH. tauto.
Qed.

End Kinds.

(** C5.  With pairwise distinct enumerators, a work kind or sync-region
    kind of the table is displayed under its name, any other value
    under "unknown"; the handlers are total and put that label in the
    record they write: the type field of the work record, the event
    field of the sync-region record. *)
Theorem unrecognized_kinds_are_unknown `{OT : omp_tools} :
  List.NoDup (List.map fst work_names) →
  List.NoDup (List.map fst sync_names) →
  (∀ k name, List.In (k, name) work_names → work_type_str k = name) ∧
  (∀ k, ¬ List.In k (List.map fst work_names) → work_type_str k = "unknown"%string) ∧
  (∀ k name, List.In (k, name) sync_names → sync_type_str k = name) ∧
  (∀ k, ¬ List.In k (List.map fst sync_names) → sync_type_str k = "unknown"%string) ∧
  (∀ work_type endpoint count w, ∃ event,
     exec (on_ompt_callback_work work_type endpoint count) w =
     emit (Stdout (record "OMPT" (thread_num w) event (now w)
                     (" (type: " +:+ work_type_str work_type +:+ ", count: "
                        +:+ dec (wrap_unsigned 64 count) +:+ ")")))
          (emit ClockGettime w)) ∧
  (∀ kind endpoint w, ∃ direction,
     exec (on_ompt_callback_sync_region kind endpoint) w =
     emit (Stdout (record "OMPT" (thread_num w)
                     (direction +:+ " " +:+ sync_type_str kind) (now w) ""))
          (emit ClockGettime w)).
Proof.
  intros Hw Hs. refine (conj _ (conj _ (conj _ (conj _ (conj _ _))))).
  - intros k name Hin. rewrite work_type_str_table. now apply first_match_in.
  - intros k Hk. rewrite work_type_str_table. now apply first_match_not_in.
  - intros k name Hin. rewrite sync_type_str_table. now apply first_match_in.
  - intros k Hk. rewrite sync_type_str_table. now apply first_match_not_in.
  - intros t e n w. eexists. apply work_eq.
  - intros k e w. eexists. apply sync_region_eq.
Qed.

Lemma openmp_5_0_work_distinct : List.NoDup (List.map fst (@work_names openmp_5_0)).
Proof. repeat constructor; simpl; intuition discriminate. Defined.

Lemma openmp_5_0_sync_distinct : List.NoDup (List.map fst (@sync_names openmp_5_0)).
Proof. repeat constructor; simpl; intuition discriminate. Defined.

Lemma unrecognized_kinds_are_unknown_witness :
  @work_type_str openmp_5_0 6 = "distribute"%string ∧
  @work_type_str openmp_5_0 8 = "unknown"%string ∧
  @sync_type_str openmp_5_0 5 = "taskwait"%string ∧
  @sync_type_str openmp_5_0 0 = "unknown"%string.
Proof.
  destruct (@unrecognized_kinds_are_unknown openmp_5_0
              openmp_5_0_work_distinct openmp_5_0_sync_distinct)
    as (Hw & Hwu & Hs & Hsu & _).
  refine (conj (Hw 6 _ _) (conj (Hwu 8 _) (conj (Hs 5 _ _) (Hsu 0 _)))).
  - simpl. tauto.
  - simpl. intuition discriminate.
  - simpl. tauto.
  - simpl. intuition discriminate.
Defined.

Example work_unknown_record :
  stdout (exec (@on_ompt_callback_work openmp_5_0 99 1 16) untraced)
  = "[OMPT] Thread 0 WORK START at 0.250 ms (type: unknown, count: 16)" +:+ LF.
Proof. vm_compute. reflexivity. Qed.

(** C6.  [check_ompt_loaded] sets [ompt_loaded] exactly when
    OMP_TOOL_LIBRARIES is in the environment at the time of the call, for
    every value it may have, the empty string included; when the variable
    is missing the flag is cleared, nothing is written and the look-up is
    the only thing the call does. *)
Theorem check_ompt_loaded_presence (w : world) :
  (ompt_loaded (exec check_ompt_loaded w) = true ↔
   is_Some (environ w !! "OMP_TOOL_LIBRARIES"%string)) ∧
  (∀ value,
     ompt_loaded (exec check_ompt_loaded
                    (with_environ (<["OMP_TOOL_LIBRARIES"%string := value]> (environ w)) w))
     = true) ∧
  ompt_loaded (exec check_ompt_loaded
                 (with_environ (delete "OMP_TOOL_LIBRARIES"%string (environ w)) w))
  = false ∧
  effects (exec check_ompt_loaded w) = effects w ++ [Getenv "OMP_TOOL_LIBRARIES"] ∧
  stdout (exec check_ompt_loaded w) = stdout w ∧
  environ (exec check_ompt_loaded w) = environ w.
Proof.
  unfold exec. refine (conj _ (conj _ (conj _ (conj _ (conj _ _))))).
  - rewrite check_ompt_loaded_eq. cbn [snd ompt_loaded with_ompt_loaded].
    unfold env_present. apply bool_decide_eq_true.
  - intros value. rewrite check_ompt_loaded_eq. cbn [snd ompt_loaded with_ompt_loaded].
    unfold env_present. apply bool_decide_eq_true. cbn [environ with_environ].
    rewrite lookup_insert_eq. eauto.
  - rewrite check_ompt_loaded_eq. cbn [snd ompt_loaded with_ompt_loaded].
    unfold env_present. apply bool_decide_eq_false. cbn [environ with_environ].
    rewrite lookup_delete_eq. intros [? ?]. discriminate.
  - rewrite check_ompt_loaded_eq. reflexivity.
  - rewrite check_ompt_loaded_eq. cbn [snd].
    change (stdout (with_ompt_loaded (env_present w) (emit (Getenv "OMP_TOOL_LIBRARIES") w)))
      with (stdout (emit (Getenv "OMP_TOOL_LIBRARIES") w)).
    apply stdout_emit_getenv.
  - rewrite check_ompt_loaded_eq. reflexivity.
Qed.

Example check_ompt_loaded_empty_value :
  ompt_loaded (exec check_ompt_loaded
                 (boot {[ "OMP_TOOL_LIBRARIES"%string := ""%string ]} tick_clock)) = true.
Proof. vm_compute. reflexivity. Qed.

(** * The records *)

(** C7.  In a process with OMP_TOOL_LIBRARIES set, the parallel-begin
    handler called with requested parallelism 4 on worker 2 queries the
    clock once and writes exactly one line; the line names the worker as
    "Thread 2", contains "PARALLEL BEGIN" and carries the 4 in
    "(requested threads: 4)". *)
Theorem parallel_begin_record (w : world) :
  env_present w = true →
  thread_num w = 2 →
  let line := "[OMPT] Thread 2 PARALLEL BEGIN at " +:+ ms_field (now w)
                +:+ " ms (requested threads: 4)" +:+ LF in
  effects (exec (on_ompt_callback_parallel_begin 4) w)
    = effects w ++ [ClockGettime; Stdout line] ∧
  stdout (exec (on_ompt_callback_parallel_begin 4) w) = stdout w +:+ line ∧
  one_line line = true ∧
  contains "PARALLEL BEGIN" line ∧
  contains "4" line ∧
  contains "(requested threads: 4)" line ∧
  (∃ rest, line = "[OMPT] Thread 2 " +:+ rest).
Proof.
  intros _ Htid line.
  assert (exec (on_ompt_callback_parallel_begin 4) w
          = emit (Stdout line) (emit ClockGettime w)) as E.
  { rewrite parallel_begin_eq, Htid. reflexivity. }
  refine (conj _ (conj _ (conj _ (conj _ (conj _ (conj _ _)))))).
  - rewrite E. apply effects_emit2.
  - rewrite E, stdout_emit_out, stdout_emit_clock. reflexivity.
  - subst line.
    change (one_line (("[OMPT] Thread 2 PARALLEL BEGIN at " +:+ ms_field (now w))
                        +:+ " ms (requested threads: 4)" +:+ LF) = true).
    rewrite one_line_label; [reflexivity|].
    rewrite lf_free_app, ms_field_lf_free. reflexivity.
  - now exists "[OMPT] Thread 2 "%string,
               (" at " +:+ ms_field (now w) +:+ " ms (requested threads: 4)" +:+ LF).
  - apply (contains_skip "[OMPT] Thread 2 PARALLEL BEGIN at ").
    apply contains_skip.
    now exists " ms (requested threads: "%string, (")" +:+ LF).
  - apply (contains_skip "[OMPT] Thread 2 PARALLEL BEGIN at ").
    apply contains_skip.
    now exists " ms "%string, LF.
  - eexists. reflexivity.
Qed.

Lemma parallel_begin_record_witness :
  let w := with_thread_num 2 traced in
  env_present w = true ∧ thread_num w = 2 ∧
  stdout (exec (on_ompt_callback_parallel_begin 4) w)
    = "[OMPT] Thread 2 PARALLEL BEGIN at 0.250 ms (requested threads: 4)" +:+ LF.
Proof.
  intros w. split; [reflexivity|]. split; [reflexivity|].
  destruct (parallel_begin_record w eq_refl eq_refl) as (_ & H & _).
  exact H.
Defined.

(** ** Begin and end *)

(** The two directions a record can name. *)
Inductive direction : Type := Entering | Leaving.

Definition work_label (d : direction) : string :=
  match d with Entering => "START" | Leaving => "END" end.
Definition task_label (d : direction) : string :=
  match d with Entering => "TASK START" | Leaving => "TASK FINISH" end.
Definition sync_label (d : direction) : string :=
  match d with Entering => "ENTER" | Leaving => "EXIT" end.

(** C10.  For every value of the endpoint argument the three handlers
    agree on one of two directions, the begin one exactly when the
    endpoint equals [ompt_scope_begin]; the work record then reads "WORK
    START" or "WORK END", the implicit-task record "TASK START" or "TASK
    FINISH", the sync-region record "ENTER" or "EXIT" before the kind.
    Every value other than [ompt_scope_begin] gives the end label. *)
Theorem endpoint_decides_direction `{OT : omp_tools} (endpoint : Z) :
  ∃ d : direction,
    (d = Entering ↔ endpoint = ompt_scope_begin) ∧
    (d = Leaving ↔ endpoint ≠ ompt_scope_begin) ∧
    (∀ work_type count w,
       exec (on_ompt_callback_work work_type endpoint count) w =
       emit (Stdout (record "OMPT" (thread_num w) ("WORK " +:+ work_label d) (now w)
                       (" (type: " +:+ work_type_str work_type +:+ ", count: "
                          +:+ dec (wrap_unsigned 64 count) +:+ ")")))
            (emit ClockGettime w)) ∧
    (∀ team_size w,
       exec (on_ompt_callback_implicit_task endpoint team_size) w =
       emit (Stdout (record "OMPT" (thread_num w) (task_label d) (now w)
                       (" (team size: " +:+ dec (wrap_unsigned 32 team_size) +:+ ")")))
            (emit ClockGettime w)) ∧
    (∀ kind w,
       exec (on_ompt_callback_sync_region kind endpoint) w =
       emit (Stdout (record "OMPT" (thread_num w)
                       (sync_label d +:+ " " +:+ sync_type_str kind) (now w) ""))
            (emit ClockGettime w)).
Proof.
  destruct (Z.eqb_spec endpoint ompt_scope_begin) as [Heq|Hne].
  - exists Entering. refine (conj _ (conj _ (conj _ (conj _ _)))).
    + tauto.
    + split; [discriminate | tauto].
    + intros t n w. rewrite work_eq. rewrite (proj2 (Z.eqb_eq _ _) Heq). reflexivity.
    + intros n w. rewrite implicit_task_eq. rewrite (proj2 (Z.eqb_eq _ _) Heq). reflexivity.
    + intros k w. rewrite sync_region_eq. rewrite (proj2 (Z.eqb_eq _ _) Heq). reflexivity.
  - exists Leaving. refine (conj _ (conj _ (conj _ (conj _ _)))).
    + split; [discriminate | tauto].
    + tauto.
    + intros t n w. rewrite work_eq. rewrite (proj2 (Z.eqb_neq _ _) Hne). reflexivity.
    + intros n w. rewrite implicit_task_eq. rewrite (proj2 (Z.eqb_neq _ _) Hne). reflexivity.
    + intros k w. rewrite sync_region_eq. rewrite (proj2 (Z.eqb_neq _ _) Hne). reflexivity.
Qed.

(** An endpoint that is neither begin (1) nor end (2). *)
Example endpoint_three :
  stdout (exec (@on_ompt_callback_sync_region openmp_5_0 3 3) untraced)
  = "[OMPT] Thread 0 EXIT explicit_barrier at 0.250 ms" +:+ LF.
Proof. vm_compute. reflexivity. Qed.

(** ** Annotations *)

Section Annotations.

Lemma ompt_annotate_enabled (annotation : string) (w : world) :
  activation w = true →
  exec (ompt_annotate annotation) w =
  emit (Stdout (record "OMPT_annotation" (thread_num w) "Annotation" (now w)
                  (": " +:+ annotation)))
       (emit ClockGettime (latch w)).
Proof. intros H. now rewrite ompt_annotate_eq, latch_ompt_loaded, H, latch_now. Qed.

Lemma annotation_contains (tid : Z) (ts : timespec) (annotation : string) :
  contains annotation (record "OMPT_annotation" tid "Annotation" ts (": " +:+ annotation)).
Proof.
  unfold record.
  apply (contains_skip "["), (contains_skip "OMPT_annotation"), (contains_skip "] Thread ").
  apply contains_skip, (contains_skip " "), (contains_skip "Annotation").
  apply (contains_skip " at "), contains_skip, (contains_skip " ms").
  rewrite append_assoc. apply (contains_skip ": "). apply contains_here.
Qed.

End Annotations.

(** The sentence "the annotation primitive, enabled, writes exactly one
    line containing the label", for one label in one world. *)
Definition one_line_with_label (annotation : string) (w : world) : Prop :=
  activation w = true →
  ∃ line, stdout (exec (ompt_annotate annotation) w) = stdout w +:+ line ∧
          one_line line = true ∧ contains annotation line.

(** C8, counterexample.  A label with a line feed in it goes to the
    output as it is, and the call writes two lines. *)
Lemma label_with_line_feed :
  stdout (exec (ompt_annotate ("a" +:+ LF +:+ "b")) traced)
    = "[OMPT_annotation] Thread 0 Annotation at 0.250 ms: a" +:+ LF +:+ "b" +:+ LF ∧
  ¬ one_line_with_label ("a" +:+ LF +:+ "b") traced.
Proof.
  split; [vm_compute; reflexivity|].
  intros H. destruct (H eq_refl) as (line & E & Hline & _).
  vm_compute in E. subst line. vm_compute in Hline. discriminate Hline.
Qed.

(** C8, amended.  Enabled, and with a valid reading of the clock,
    [ompt_annotate] writes the bytes "[OMPT_annotation] Thread <id>
    Annotation at <ms> ms: <label>" and a line feed, where <ms> is the
    timestamp divided by 1000 printed with three decimals and <label> is
    the argument, byte for byte.  That output is exactly one line if and
    only if the label contains no line feed.  [ompt_mark_roi_start]
    writes one line with the label ROI_START. *)
Theorem annotation_record (annotation : string) (w : world) :
  activation w = true →
  valid_timespec (now w) →
  let line_for (label : string) :=
    "[OMPT_annotation] Thread " +:+ dec (wrap_signed 32 (thread_num w))
      +:+ " Annotation at " +:+ ms_field (now w) +:+ " ms: " +:+ label +:+ LF in
  effects (exec (ompt_annotate annotation) w)
    = effects (latch w) ++ [ClockGettime; Stdout (line_for annotation)] ∧
  stdout (exec (ompt_annotate annotation) w) = stdout w +:+ line_for annotation ∧
  contains annotation (line_for annotation) ∧
  is_fixed3 (ms_field (now w)) ∧
  ms_field (now w) = fixed3 (ddiv (timestamp_of (now w)) d1000) ∧
  one_line (line_for annotation) = lf_free annotation ∧
  stdout (exec ompt_mark_roi_start w) = stdout w +:+ line_for "ROI_START" ∧
  one_line (line_for "ROI_START") = true ∧
  contains "ROI_START" (line_for "ROI_START").
Proof.
  intros Hon Hts line_for.
  assert (∀ label, line_for label =
            record "OMPT_annotation" (thread_num w) "Annotation" (now w) (": " +:+ label))
    as Hrec by (intros label; subst line_for; same_text).
  assert (∀ label, stdout (exec (ompt_annotate label) w) = stdout w +:+ line_for label)
    as Hout.
  { intros label. rewrite (ompt_annotate_enabled label w Hon), stdout_emit_out,
      stdout_emit_clock, latch_stdout, Hrec. reflexivity. }
  assert (∀ label, one_line (line_for label) = lf_free label) as Hone.
  { intros label. rewrite Hrec, record_one_line by reflexivity.
    rewrite lf_free_app. reflexivity. }
  refine (conj _ (conj (Hout _) (conj _ (conj _ (conj eq_refl
            (conj (Hone _) (conj (Hout _) (conj (Hone _) _)))))))).
  - rewrite (ompt_annotate_enabled annotation w Hon), effects_emit2, Hrec. reflexivity.
  - rewrite Hrec. apply annotation_contains.
  - now apply ms_field_fixed3.
  - rewrite Hrec. apply annotation_contains.
Qed.

Lemma annotation_record_witness :
  activation traced = true ∧ valid_timespec (now traced) ∧
  stdout (exec (ompt_annotate "ROI_START") traced)
    = "[OMPT_annotation] Thread 0 Annotation at 0.250 ms: ROI_START" +:+ LF.
Proof.
  assert (valid_timespec (now traced)) as Hts by (vm_compute; intuition discriminate).
  split; [reflexivity|]. split; [exact Hts|].
  destruct (annotation_record "ROI_START" traced eq_refl Hts) as (_ & H & _).
  exact H.
Defined.

(** ** The format of a record *)

(** [s] ends with [suffix]. *)
Fixpoint ends_with (suffix s : string) : bool :=
  String.eqb s suffix ||
  match s with
  | EmptyString => false
  | String _ rest => ends_with suffix rest
  end.

Lemma ends_with_app (suffix a b : string) :
  ends_with suffix b = true → ends_with suffix (a +:+ b) = true.
Proof.
  intros Hb. induction a as [|x a IH]; [exact Hb|].
  rewrite append_cons. simpl. rewrite IH. apply orb_true_r.
Qed.

(** The format "[PREFIX] Thread <id> <EVENT> at <timestamp>.<fraction> ms
    (<attributes>)", read generously: the parenthesised attributes may
    be missing. *)
Definition stated_format (line : string) : Prop :=
  ∃ prefix id event ts tail,
    line = "[" +:+ prefix +:+ "] Thread " +:+ id +:+ " " +:+ event +:+ " at " +:+ ts
             +:+ " ms" +:+ tail +:+ LF ∧
    is_fixed3 ts ∧
    (tail = ""%string ∨ ∃ attributes, tail = " (" +:+ attributes +:+ ")").

Lemma stated_format_end (line : string) :
  stated_format line →
  ends_with (" ms" +:+ LF) line = true ∨ ends_with (")" +:+ LF) line = true.
Proof.
  intros (prefix & id & event & ts & tail & -> & _ & [-> | (attributes & ->)]).
  - left. do 8 apply ends_with_app. reflexivity.
  - right. do 9 apply ends_with_app.
    rewrite !append_assoc. do 2 apply ends_with_app. reflexivity.
Qed.

(** C9, counterexample.  The record of an annotation carries its label
    after a colon, not between parentheses: it does not have the stated
    format. *)
Lemma annotation_record_format :
  stdout (exec ompt_mark_roi_start traced)
    = "[OMPT_annotation] Thread 0 Annotation at 0.250 ms: ROI_START" +:+ LF ∧
  ¬ stated_format ("[OMPT_annotation] Thread 0 Annotation at 0.250 ms: ROI_START" +:+ LF).
Proof.
  split; [vm_compute; reflexivity|].
  intros H. apply stated_format_end in H. vm_compute in H.
  destruct H; discriminate.
Qed.

(** The calls that write a record: the handlers always, the annotation
    interface when activation is enabled. *)
Definition writes_record (c : call) (w : world) : bool :=
  is_lifecycle c || is_annotation c && activation w.

(** C9, amended.  Every record written by a handler or by the
    annotation interface (with a valid reading of the clock) is the
    text "[PREFIX] Thread <id> <EVENT> at <ms> ms<TAIL>" and a line
    feed.  PREFIX is OMPT for the handlers and OMPT_annotation for
    annotations; <ms> is the microsecond timestamp divided by 1000 with
    three decimals.  EVENT and TAIL are, handler by handler:
    "PARALLEL BEGIN" and " (requested threads: <n>)"; "PARALLEL END" and
    nothing; "WORK START" or "WORK END" and " (type: <kind>, count:
    <n>)"; "TASK START" or "TASK FINISH" and " (team size: <n>)";
    "ENTER" or "EXIT", a space and the kind of the sync region, and
    nothing; for an annotation "Annotation" and ": <label>".  The record
    is one line, for an annotation provided its label has no line
    feed. *)
Theorem record_format `{OT : omp_tools} (c : call) (w : world) :
  valid_timespec (now w) →
  writes_record c w = true →
  ∃ prefix event tail,
    effects (exec (perform c) w)
      = effects (if is_annotation c then latch w else w)
          ++ [ClockGettime; Stdout (record prefix (thread_num w) event (now w) tail)] ∧
    prefix = (if is_annotation c then "OMPT_annotation" else "OMPT")%string ∧
    is_fixed3 (ms_field (now w)) ∧
    ms_field (now w) = fixed3 (ddiv (timestamp_of (now w)) d1000) ∧
    one_line (record prefix (thread_num w) event (now w) tail) = lf_free (label_of c) ∧
    (if is_annotation c
     then event = "Annotation"%string ∧ tail = ": " +:+ label_of c
     else tail = ""%string ∨ ∃ attributes, tail = " (" +:+ attributes +:+ ")") ∧
    (∀ kind endpoint, c = SyncRegion kind endpoint →
       event = (if endpoint =? ompt_scope_begin then "ENTER" else "EXIT")
                 +:+ " " +:+ sync_type_str kind ∧ tail = ""%string) ∧
    (∀ requested_parallelism, c = ParallelBegin requested_parallelism →
       event = "PARALLEL BEGIN"%string ∧
       tail = " (requested threads: " +:+ dec (wrap_unsigned 32 requested_parallelism)
                +:+ ")") ∧
    (c = ParallelEnd → event = "PARALLEL END"%string ∧ tail = ""%string) ∧
    (∀ work_type endpoint count, c = Work work_type endpoint count →
       event = "WORK " +:+ (if endpoint =? ompt_scope_begin then "START" else "END") ∧
       tail = " (type: " +:+ work_type_str work_type +:+ ", count: "
                +:+ dec (wrap_unsigned 64 count) +:+ ")") ∧
    (∀ endpoint team_size, c = ImplicitTask endpoint team_size →
       event = (if endpoint =? ompt_scope_begin then "TASK START"%string else "TASK FINISH"%string) ∧
       tail = " (team size: " +:+ dec (wrap_unsigned 32 team_size) +:+ ")").
Proof.
  intros Hts Hc. unfold writes_record in Hc.
  pose proof (ms_field_fixed3 (now w) Hts) as Hms.
  (* the clauses that name a handler, once the fields are known *)
  assert (∀ prefix event tail : string,
    (∀ kind endpoint, c = SyncRegion kind endpoint →
       event = (if endpoint =? ompt_scope_begin then "ENTER" else "EXIT")
                 +:+ " " +:+ sync_type_str kind ∧ tail = ""%string) →
    (∀ requested_parallelism, c = ParallelBegin requested_parallelism →
       event = "PARALLEL BEGIN"%string ∧
       tail = " (requested threads: " +:+ dec (wrap_unsigned 32 requested_parallelism)
                +:+ ")") →
    (c = ParallelEnd → event = "PARALLEL END"%string ∧ tail = ""%string) →
    (∀ work_type endpoint count, c = Work work_type endpoint count →
       event = "WORK " +:+ (if endpoint =? ompt_scope_begin then "START" else "END") ∧
       tail = " (type: " +:+ work_type_str work_type +:+ ", count: "
                +:+ dec (wrap_unsigned 64 count) +:+ ")") →
    (∀ endpoint team_size, c = ImplicitTask endpoint team_size →
       event = (if endpoint =? ompt_scope_begin then "TASK START"%string else "TASK FINISH"%string) ∧
       tail = " (team size: " +:+ dec (wrap_unsigned 32 team_size) +:+ ")") →
    effects (exec (perform c) w)
      = effects (if is_annotation c then latch w else w)
          ++ [ClockGettime; Stdout (record prefix (thread_num w) event (now w) tail)] →
    prefix = (if is_annotation c then "OMPT_annotation" else "OMPT")%string →
    one_line (record prefix (thread_num w) event (now w) tail) = lf_free (label_of c) →
    (if is_annotation c
     then event = "Annotation"%string ∧ tail = ": " +:+ label_of c
     else tail = ""%string ∨ ∃ attributes, tail = " (" +:+ attributes +:+ ")") →
    ∃ prefix event tail,
    effects (exec (perform c) w)
      = effects (if is_annotation c then latch w else w)
          ++ [ClockGettime; Stdout (record prefix (thread_num w) event (now w) tail)] ∧
    prefix = (if is_annotation c then "OMPT_annotation" else "OMPT")%string ∧
    is_fixed3 (ms_field (now w)) ∧
    ms_field (now w) = fixed3 (ddiv (timestamp_of (now w)) d1000) ∧
    one_line (record prefix (thread_num w) event (now w) tail) = lf_free (label_of c) ∧
    (if is_annotation c
     then event = "Annotation"%string ∧ tail = ": " +:+ label_of c
     else tail = ""%string ∨ ∃ attributes, tail = " (" +:+ attributes +:+ ")") ∧
    (∀ kind endpoint, c = SyncRegion kind endpoint →
       event = (if endpoint =? ompt_scope_begin then "ENTER" else "EXIT")
                 +:+ " " +:+ sync_type_str kind ∧ tail = ""%string) ∧
    (∀ requested_parallelism, c = ParallelBegin requested_parallelism →
       event = "PARALLEL BEGIN"%string ∧
       tail = " (requested threads: " +:+ dec (wrap_unsigned 32 requested_parallelism)
                +:+ ")") ∧
    (c = ParallelEnd → event = "PARALLEL END"%string ∧ tail = ""%string) ∧
    (∀ work_type endpoint count, c = Work work_type endpoint count →
       event = "WORK " +:+ (if endpoint =? ompt_scope_begin then "START" else "END") ∧
       tail = " (type: " +:+ work_type_str work_type +:+ ", count: "
                +:+ dec (wrap_unsigned 64 count) +:+ ")") ∧
    (∀ endpoint team_size, c = ImplicitTask endpoint team_size →
       event = (if endpoint =? ompt_scope_begin then "TASK START"%string else "TASK FINISH"%string) ∧
       tail = " (team size: " +:+ dec (wrap_unsigned 32 team_size) +:+ ")")) as Hpack.
  { intros prefix event tail K1 K2 K3 K4 K5 E P L T. exists prefix, event, tail.
    exact (conj E (conj P (conj Hms (conj eq_refl (conj L (conj T
            (conj K1 (conj K2 (conj K3 (conj K4 K5)))))))))). }
  destruct c as [a| | |n| |t e n|e n|k e|n v|n]; try discriminate Hc.
  - assert (activation w = true) as Hon by exact Hc.
    apply (Hpack "OMPT_annotation"%string "Annotation"%string (": " +:+ a)); try (intros; discriminate);
      [|reflexivity| |split; reflexivity].
    + cbn [perform is_annotation]. rewrite (ompt_annotate_enabled a w Hon). apply effects_emit2.
    + rewrite record_one_line by reflexivity. rewrite lf_free_app. reflexivity.
  - assert (activation w = true) as Hon by exact Hc.
    apply (Hpack "OMPT_annotation"%string "Annotation"%string (": " +:+ "ROI_START")); try (intros; discriminate);
      [|reflexivity| |split; reflexivity].
    + cbn [perform is_annotation]. unfold ompt_mark_roi_start.
      rewrite (ompt_annotate_enabled "ROI_START" w Hon). apply effects_emit2.
    + rewrite record_one_line by reflexivity. reflexivity.
  - assert (activation w = true) as Hon by exact Hc.
    apply (Hpack "OMPT_annotation"%string "Annotation"%string (": " +:+ "ROI_END")); try (intros; discriminate);
      [|reflexivity| |split; reflexivity].
    + cbn [perform is_annotation]. unfold ompt_mark_roi_end.
      rewrite (ompt_annotate_enabled "ROI_END" w Hon). apply effects_emit2.
    + rewrite record_one_line by reflexivity. reflexivity.
  - apply (Hpack "OMPT"%string "PARALLEL BEGIN"%string
             (" (requested threads: " +:+ dec (wrap_unsigned 32 n) +:+ ")"));
      try (intros; discriminate); [| |reflexivity| |].
    + intros n' [= <-]. split; reflexivity.
    + cbn [perform is_annotation]. rewrite parallel_begin_eq. apply effects_emit2.
    + rewrite record_one_line by reflexivity. rewrite !lf_free_app, dec_lf_free. reflexivity.
    + right. exists ("requested threads: " +:+ dec (wrap_unsigned 32 n)). reflexivity.
  - apply (Hpack "OMPT"%string "PARALLEL END"%string ""%string);
      try (intros; discriminate); [| |reflexivity| |].
    + intros _. split; reflexivity.
    + cbn [perform is_annotation]. rewrite parallel_end_eq. apply effects_emit2.
    + rewrite record_one_line by reflexivity. reflexivity.
    + left. reflexivity.
  - apply (Hpack "OMPT"%string ("WORK " +:+ (if e =? ompt_scope_begin then "START" else "END"))
             (" (type: " +:+ work_type_str t +:+ ", count: " +:+ dec (wrap_unsigned 64 n)
                +:+ ")"));
      try (intros; discriminate); [| |reflexivity| |].
    + intros t' e' n' [= <- <- <-]. split; reflexivity.
    + cbn [perform is_annotation]. rewrite work_eq. apply effects_emit2.
    + rewrite record_one_line; [|reflexivity|destruct (e =? _); reflexivity].
      rewrite !lf_free_app, dec_lf_free, work_type_str_lf_free. reflexivity.
    + right.
      exists ("type: " +:+ work_type_str t +:+ ", count: " +:+ dec (wrap_unsigned 64 n)).
      rewrite ?append_assoc. reflexivity.
  - apply (Hpack "OMPT"%string (if (e =? ompt_scope_begin)%Z then "TASK START"%string
                  else "TASK FINISH"%string)
             (" (team size: " +:+ dec (wrap_unsigned 32 n) +:+ ")"));
      try (intros; discriminate); [| |reflexivity| |].
    + intros e' n' [= <- <-]. split; reflexivity.
    + cbn [perform is_annotation]. rewrite implicit_task_eq. apply effects_emit2.
    + rewrite record_one_line; [|reflexivity|destruct (e =? _); reflexivity].
      rewrite !lf_free_app, dec_lf_free. reflexivity.
    + right. exists ("team size: " +:+ dec (wrap_unsigned 32 n)). reflexivity.
  - apply (Hpack "OMPT"%string ((if e =? ompt_scope_begin then "ENTER" else "EXIT") +:+ " "
                    +:+ sync_type_str k) ""%string);
      try (intros; discriminate); [| |reflexivity| |].
    + intros k' e' [= <- <-]. split; reflexivity.
    + cbn [perform is_annotation]. rewrite sync_region_eq. apply effects_emit2.
    + rewrite record_one_line; [reflexivity|reflexivity|].
      rewrite !lf_free_app, sync_type_str_lf_free. destruct (e =? _); reflexivity.
    + left. reflexivity.
Qed.

Lemma record_format_witness :
  valid_timespec (now untraced) ∧ writes_record (SyncRegion 5 2) untraced = true ∧
  ∃ prefix event tail,
    effects (exec (@perform openmp_5_0 (SyncRegion 5 2)) untraced)
      = [ClockGettime; Stdout (record prefix 0 event (Timespec 0 250000) tail)] ∧
    prefix = "OMPT"%string.
Proof.
  assert (valid_timespec (now untraced)) as Hts by (vm_compute; intuition discriminate).
  split; [exact Hts|]. split; [reflexivity|].
  destruct (@record_format openmp_5_0 (SyncRegion 5 2) untraced Hts eq_refl)
    as (prefix & event & tail & H1 & H2 & _).
  exists prefix, event, tail. split; [exact H1 | exact H2].
Defined.

Example sync_region_record :
  stdout (exec (@perform openmp_5_0 (SyncRegion 5 2)) traced)
  = "[OMPT] Thread 0 EXIT taskwait at 0.250 ms" +:+ LF.
Proof. vm_compute. reflexivity. Qed.

(** * Successive timestamps *)



Section Successive.






End Successive.



(** The last readings of a clock that counts nanoseconds in 64 bits,
    one nanosecond before a full second and at it: beyond [2^53]
    microseconds, where a double no longer holds every microsecond. *)
Example successive_timestamps_late :
  in_clock_range (Timespec 9223372035 999999999) ∧
  in_clock_range (Timespec 9223372036 0) ∧
  SFleb (timestamp_of (Timespec 9223372035 999999999))
        (timestamp_of (Timespec 9223372036 0)) = true.
Proof.
  split; [unfold in_clock_range; simpl; lia|]. split; [unfold in_clock_range; simpl; lia|].
  vm_compute. reflexivity.
Qed.

(** * Attaching and detaching the tool *)

Section Registration.
Context `{OT : omp_tools}.

(** The status [initializer] returns does not depend on [lookup]. *)
Lemma initializer_status (lookup : string → option ompt_set_callback_t) (w : world) :
  fst (initializer lookup w) = 1.
Proof.
  unfold initializer, bind, printf, ret.
  destruct (lookup "ompt_set_callback"%string) as [f|]; [|reflexivity].
  repeat match goal with |- context [f ?e ?cb ?x] => destruct (f e cb x) end.
  reflexivity.
Qed.

(** The events [initializer] registers for, in the order of its calls. *)
Definition callback_ids : list Z :=
  [ ompt_callback_parallel_begin; ompt_callback_parallel_end; ompt_callback_work;
    ompt_callback_implicit_task; ompt_callback_sync_region ].

Definition registered (tbl : gmap Z callback) : gmap Z callback :=
  <[ompt_callback_sync_region := cb_sync_region]>
    (<[ompt_callback_implicit_task := cb_implicit_task]>
       (<[ompt_callback_work := cb_work]>
          (<[ompt_callback_parallel_end := cb_parallel_end]>
             (<[ompt_callback_parallel_begin := cb_parallel_begin]> tbl)))).

Lemma initializer_runtime_eq (w : world) :
  initializer runtime_lookup w =
  (1, emit (Stdout ("OMPT callbacks registered successfully" +:+ LF))
        (with_callback_table (registered (callback_table w))
           (emit (Stdout ("OMPT Tool Initialized" +:+ LF)) w))).
Proof. reflexivity. Qed.

Lemma finalizer_eq (w : world) :
  finalizer w = (tt, emit (Stdout ("OMPT Tool Finalized" +:+ LF)) w).
Proof. reflexivity. Qed.

End Registration.

(** A runtime that turns every registration down: the table is left as it
    is and the answer is [ompt_set_error] (0). *)
Definition refusing_set_callback : ompt_set_callback_t := λ _ _ w, (0, w).

(** X1.  [initializer] does not look at what the registration function
    answers.  When [lookup] resolves "ompt_set_callback" to a function
    that writes nothing itself, [initializer] returns 1 and writes the two
    lines "OMPT Tool Initialized" and "OMPT callbacks registered
    successfully", whatever status each of the five registrations
    returned, a refusal included. *)
Theorem initializer_disregards_registration_status `{OT : omp_tools}
    (lookup : string → option ompt_set_callback_t) (set_callback : ompt_set_callback_t)
    (w : world) :
  lookup "ompt_set_callback"%string = Some set_callback →
  (∀ event cb w', stdout (exec (set_callback event cb) w') = stdout w') →
  fst (initializer lookup w) = 1 ∧
  stdout (exec (initializer lookup) w) =
    stdout w +:+ "OMPT Tool Initialized" +:+ LF
             +:+ "OMPT callbacks registered successfully" +:+ LF.
Proof.
  intros Hsome Hquiet. split; [apply initializer_status|].
  unfold exec in *. unfold initializer, bind, printf, ret. rewrite Hsome.
  repeat match goal with
         | |- context [set_callback ?e ?cb ?x] =>
             let H := fresh "H" in
             pose proof (Hquiet e cb x) as H; destruct (set_callback e cb x); cbn [snd] in H
         end.
  cbn [snd]. rewrite stdout_emit_out.
  repeat match goal with H : stdout _ = stdout _ |- _ => rewrite H; clear H end.
  rewrite stdout_emit_out, append_assoc. reflexivity.
Qed.

Lemma initializer_disregards_registration_status_witness :
  (λ _ : string, Some refusing_set_callback) "ompt_set_callback"%string
    = Some refusing_set_callback ∧
  (∀ event cb w', stdout (exec (refusing_set_callback event cb) w') = stdout w') ∧
  callback_table (exec (@initializer openmp_5_0 (λ _, Some refusing_set_callback)) untraced) = ∅ ∧
  stdout (exec (@initializer openmp_5_0 (λ _, Some refusing_set_callback)) untraced) =
    stdout untraced +:+ "OMPT Tool Initialized" +:+ LF
      +:+ "OMPT callbacks registered successfully" +:+ LF.
Proof.
  split; [reflexivity|]. split; [reflexivity|]. split; [reflexivity|].
  exact (proj2 (@initializer_disregards_registration_status openmp_5_0
                  (λ _, Some refusing_set_callback) refusing_set_callback untraced
                  eq_refl (λ _ _ _, eq_refl))).
Defined.

(** X2.  With a runtime that stores what is registered, and the five
    callback identifiers pairwise distinct, [initializer] leaves each of
    the five events bound to the handler of that event, every other
    entry of the table as it was, and the activation flag, the latch,
    the environment and the clock untouched. *)
Theorem initializer_binds_each_handler `{OT : omp_tools} (w : world) :
  List.NoDup callback_ids →
  let w' := exec (initializer runtime_lookup) w in
  callback_table w' !! ompt_callback_parallel_begin = Some cb_parallel_begin ∧
  callback_table w' !! ompt_callback_parallel_end = Some cb_parallel_end ∧
  callback_table w' !! ompt_callback_work = Some cb_work ∧
  callback_table w' !! ompt_callback_implicit_task = Some cb_implicit_task ∧
  callback_table w' !! ompt_callback_sync_region = Some cb_sync_region ∧
  (∀ event, ¬ List.In event callback_ids →
     callback_table w' !! event = callback_table w !! event) ∧
  ompt_loaded w' = ompt_loaded w ∧ first_call w' = first_call w ∧
  environ w' = environ w ∧ clock_reads w' = clock_reads w.
Proof.
  intros Hnd w'. subst w'. unfold exec. rewrite initializer_runtime_eq.
  cbn [snd callback_table emit with_callback_table ompt_loaded first_call environ].
  unfold callback_ids in Hnd.
  repeat match goal with
         | H : List.NoDup (_ :: _) |- _ => apply List.NoDup_cons_iff in H as [? H]
         end.
  cbn [List.In] in *.
  unfold registered.
  refine (conj _ (conj _ (conj _ (conj _ (conj _ (conj _ (conj eq_refl (conj eq_refl
            (conj eq_refl _))))))))).
  - rewrite !lookup_insert_ne by intuition congruence. apply lookup_insert_eq.
  - rewrite !lookup_insert_ne by intuition congruence. apply lookup_insert_eq.
  - rewrite !lookup_insert_ne by intuition congruence. apply lookup_insert_eq.
  - rewrite !lookup_insert_ne by intuition congruence. apply lookup_insert_eq.
  - apply lookup_insert_eq.
  - intros event Hev. unfold callback_ids in Hev. cbn [List.In] in Hev.
    rewrite !lookup_insert_ne by intuition congruence. reflexivity.
  - rewrite !clock_reads_emit. cbn [is_clock_read].
    change (clock_reads (with_callback_table _ ?x)) with (clock_reads x).
    rewrite clock_reads_emit. simpl. lia.
Qed.

Lemma openmp_5_0_callbacks_distinct : List.NoDup (@callback_ids openmp_5_0).
Proof. repeat constructor; simpl; intuition discriminate. Defined.

Lemma initializer_binds_each_handler_witness :
  List.NoDup (@callback_ids openmp_5_0) ∧
  callback_table (exec (@initializer openmp_5_0 runtime_lookup) untraced) !! 20
    = Some cb_work.
Proof.
  split; [exact openmp_5_0_callbacks_distinct|].
  destruct (@initializer_binds_each_handler openmp_5_0 untraced
              openmp_5_0_callbacks_distinct) as (_ & _ & H & _).
  exact H.
Defined.

(** X3.  With a runtime that stores what is registered (the
    registration function of X2), initialising a second time changes
    nothing but the output: the world after the second call is the
    world after the first with the two lines written once more, and no
    other difference; the table of callbacks in particular is the
    same. *)
Theorem initializer_again `{OT : omp_tools} (w : world) :
  let w1 := exec (initializer runtime_lookup) w in
  let w2 := exec (initializer runtime_lookup) w1 in
  w2 = emit (Stdout ("OMPT callbacks registered successfully" +:+ LF))
         (emit (Stdout ("OMPT Tool Initialized" +:+ LF)) w1) ∧
  callback_table w2 = callback_table w1 ∧
  stdout w2 = stdout w1 +:+ "OMPT Tool Initialized" +:+ LF
                +:+ "OMPT callbacks registered successfully" +:+ LF.
Proof.
  intros w1 w2.
  assert (registered (callback_table w1) = callback_table w1) as Htbl.
  { subst w1. unfold exec. rewrite initializer_runtime_eq.
    cbn [snd callback_table emit with_callback_table].
    apply map_eq. intros k. unfold registered.
    rewrite !lookup_insert. repeat case_decide; reflexivity. }
  assert (w2 = emit (Stdout ("OMPT callbacks registered successfully" +:+ LF))
                 (emit (Stdout ("OMPT Tool Initialized" +:+ LF)) w1)) as E.
  { subst w2. unfold exec at 1. rewrite initializer_runtime_eq. cbn [snd].
    unfold with_callback_table. cbn [callback_table emit]. rewrite Htbl. reflexivity. }
  split; [exact E|]. rewrite E. split; [reflexivity|].
  rewrite !stdout_emit_out, append_assoc. reflexivity.
Qed.

(** * Whole runs *)

Section RunShape.
Context `{OT : omp_tools}.

(** What one call appends to the history of the process. *)
Lemma step_lifecycle_record (t : Z) (c : call) (w : world) :
  is_lifecycle c = true →
  ∃ event tail,
    step w (t, c) = emit (Stdout (record "OMPT" t event (now w) tail))
                         (emit ClockGettime (with_thread_num t w)).
Proof.
  destruct c; try discriminate; intros _; unfold step; cbn [snd fst perform].
  - rewrite parallel_begin_eq. eexists _, _. reflexivity.
  - rewrite parallel_end_eq. eexists _, _. reflexivity.
  - rewrite work_eq. eexists _, _. reflexivity.
  - rewrite implicit_task_eq. eexists _, _. reflexivity.
  - rewrite sync_region_eq. eexists _, _. reflexivity.
Qed.

Lemma step_annotation_record (t : Z) (c : call) (w : world) :
  is_annotation c = true →
  step w (t, c) =
  if activation w
  then emit (Stdout (record "OMPT_annotation" t "Annotation" (now w) (": " +:+ label_of c)))
            (emit ClockGettime (latch (with_thread_num t w)))
  else latch (with_thread_num t w).
Proof.
  intros Hc. unfold step. cbn [fst snd]. rewrite (perform_annotation c Hc).
  rewrite ompt_annotate_eq, latch_ompt_loaded, latch_now. reflexivity.
Qed.

Lemma step_environment (t : Z) (c : call) (w : world) :
  is_annotation c = false → is_lifecycle c = false →
  effects (step w (t, c)) = effects w ∧ first_call (step w (t, c)) = first_call w ∧
  ompt_loaded (step w (t, c)) = ompt_loaded w ∧
  callback_table (step w (t, c)) = callback_table w ∧
  monotonic_clock (step w (t, c)) = monotonic_clock w.
Proof. destruct c; try discriminate; intros _ _; repeat split. Qed.

Lemma latch_frame (w : world) :
  callback_table (latch w) = callback_table w ∧ monotonic_clock (latch w) = monotonic_clock w.
Proof. unfold latch. destruct (first_call w); split; reflexivity. Qed.

(** No call of a run touches the table of callbacks or the clock, and the
    history only grows. *)
Lemma step_frame (t : Z) (c : call) (w : world) :
  callback_table (step w (t, c)) = callback_table w ∧
  monotonic_clock (step w (t, c)) = monotonic_clock w ∧
  ∃ es, effects (step w (t, c)) = effects w ++ es.
Proof.
  destruct (is_annotation c) eqn:Ha; [|destruct (is_lifecycle c) eqn:Hl].
  - rewrite (step_annotation_record t c w Ha).
    destruct (latch_frame (with_thread_num t w)) as [F1 F2].
    pose proof (latch_effects (with_thread_num t w)) as F3.
    destruct (activation w).
    + cbn [callback_table monotonic_clock emit]. rewrite F1, F2.
      split; [reflexivity|]. split; [reflexivity|].
      rewrite effects_emit2, F3, <- List.app_assoc. eexists. reflexivity.
    + rewrite F1, F2, F3. split; [reflexivity|]. split; [reflexivity|].
      eexists. reflexivity.
  - destruct (step_lifecycle_record t c w Hl) as (event & tail & ->).
    split; [reflexivity|]. split; [reflexivity|].
    rewrite effects_emit2. eexists. reflexivity.
  - destruct (step_environment t c w Ha Hl) as (E & _ & _ & T & C).
    rewrite E, T, C. split; [reflexivity|]. split; [reflexivity|].
    exists []. now rewrite List.app_nil_r.
Qed.

Lemma run_frame (cs : list (Z * call)) (w : world) :
  callback_table (run cs w) = callback_table w ∧
  monotonic_clock (run cs w) = monotonic_clock w ∧
  ∃ es, effects (run cs w) = effects w ++ es.
Proof.
  revert w. induction cs as [|[t c] cs IH]; intros w.
  - split; [reflexivity|]. split; [reflexivity|]. exists []. symmetry. apply List.app_nil_r.
  - change (run ((t, c) :: cs) w) with (run cs (step w (t, c))).
    destruct (IH (step w (t, c))) as (T & C & es & E).
    destruct (step_frame t c w) as (T' & C' & es' & E').
    rewrite T, C, E, T', C', E'. split; [reflexivity|]. split; [reflexivity|].
    exists (es' ++ es). now rewrite List.app_assoc.
Qed.

End RunShape.

(** X4.  [ompt_start_tool] answers every OpenMP version and every
    runtime version string alike, and whatever its static [result] held
    before: it returns the address of that object, never a null pointer,
    with [initialize] set to [initializer], [finalize] to [finalizer] and
    the tool data zeroed.  A runtime that follows the protocol therefore
    always keeps the tool: the session is [initializer], then the events,
    then [finalizer], which writes "OMPT Tool Finalized" as the last line
    and leaves the callbacks registered. *)
Theorem tool_attaches_for_every_runtime `{OT : omp_tools}
    (omp_version : Z) (runtime_version : string)
    (lookup : string → option ompt_set_callback_t) (events : list (Z * call))
    (result : ompt_start_tool_result_t) (w : world) :
  ompt_start_tool omp_version runtime_version result
    = (address_of_result, StartToolResult (Some initializer) (Some finalizer) 0) ∧
  let w1 := exec (initializer lookup) w in
  let w2 := exec (session omp_version runtime_version lookup events result) w in
  fst (session omp_version runtime_version lookup events result w) = true ∧
  w2 = exec finalizer (run events w1) ∧
  callback_table w2 = callback_table w1 ∧
  ∃ es, effects (run events w1) = effects w1 ++ es ∧
        effects w2 = effects w1 ++ es ++ [Stdout ("OMPT Tool Finalized" +:+ LF)].
Proof.
  split; [reflexivity|]. intros w1 w2.
  assert (session omp_version runtime_version lookup events result w
          = (true, exec finalizer (run events w1))) as E.
  { unfold session. cbn [ompt_start_tool initialize finalize]. unfold bind at 1.
    pose proof (initializer_status lookup w) as Hs. subst w1. unfold exec at 2.
    destruct (initializer lookup w) as [status w1]. cbn [fst snd] in *. subst status.
    reflexivity. }
  assert (w2 = exec finalizer (run events w1)) as E2.
  { subst w2. unfold exec at 1. rewrite E. reflexivity. }
  destruct (run_frame events w1) as (T & _ & es & Hes).
  split; [now rewrite E|]. split; [exact E2|]. split.
  - rewrite E2. unfold exec. rewrite finalizer_eq. exact T.
  - exists es. split; [exact Hes|]. rewrite E2. unfold exec. rewrite finalizer_eq.
    cbn [snd effects emit]. rewrite Hes, List.app_assoc. reflexivity.
Qed.

(** ** Counting the records of a run *)

Definition is_write (e : effect) : bool :=
  match e with Stdout _ => true | _ => false end.

(** Number of [printf] calls so far. *)
Definition records_written (w : world) : nat := List.length (List.filter is_write (effects w)).

Definition lifecycle_count (cs : list (Z * call)) : nat :=
  List.length (List.filter (λ tc, is_lifecycle (snd tc)) cs).
Definition annotation_count (cs : list (Z * call)) : nat :=
  List.length (List.filter (λ tc, is_annotation (snd tc)) cs).

(** The environment after a call that is not an annotation. *)
Definition environ_after (c : call) (env : gmap string string) : gmap string string :=
  match c with
  | Setenv n v => <[n := v]> env
  | Unsetenv n => delete n env
  | _ => env
  end.

(** Whether OMP_TOOL_LIBRARIES is set when the first call of the
    annotation interface is made, in a run that starts with the
    environment [env]; [false] when there is no such call. *)
Fixpoint set_at_first_annotation (cs : list (Z * call)) (env : gmap string string) : bool :=
  match cs with
  | [] => false
  | (_, c) :: rest =>
      if is_annotation c then bool_decide (is_Some (env !! "OMP_TOOL_LIBRARIES"%string))
      else set_at_first_annotation rest (environ_after c env)
  end.

(** A history of [n] records, each written right after a reading of the
    clock and carrying that reading: the first one the reading number 0,
    the next one the reading number 1, and so on; look-ups of the
    environment may come in between. *)
Inductive stamped (clock : nat → timespec) : nat → list effect → Prop :=
  | stamped_nil : stamped clock 0 []
  | stamped_lookup (n : nat) (es : list effect) (name : string) :
      stamped clock n es → stamped clock n (es ++ [Getenv name])
  | stamped_record (n : nat) (es : list effect) (prefix : string) (tid : Z)
        (event tail : string) :
      stamped clock n es →
      stamped clock (S n)
        (es ++ [ClockGettime; Stdout (record prefix tid event (clock n) tail)]).

Section Counting.
Context `{OT : omp_tools}.

Lemma records_written_emit (e : effect) (w : world) :
  records_written (emit e w) = (records_written w + (if is_write e then 1 else 0))%nat.
Proof.
  unfold records_written. simpl. rewrite List.filter_app, List.length_app. simpl.
  now destruct (is_write e).
Qed.

Lemma latch_records_written (w : world) : records_written (latch w) = records_written w.
Proof.
  unfold latch. destruct (first_call w); [|reflexivity].
  change (records_written (emit (Getenv "OMP_TOOL_LIBRARIES") w) = records_written w).
  rewrite records_written_emit. simpl. lia.
Qed.

Lemma exclusive_kinds (c : call) : is_annotation c = true → is_lifecycle c = false.
Proof. destruct c; try discriminate; reflexivity. Qed.

(** One call: one reading of the clock and one record when it writes,
    nothing otherwise. *)
Lemma step_counts (t : Z) (c : call) (w : world) :
  clock_reads (step w (t, c)) = (clock_reads w + if writes_record c w then 1 else 0)%nat ∧
  records_written (step w (t, c))
    = (records_written w + if writes_record c w then 1 else 0)%nat.
Proof.
  unfold writes_record.
  destruct (is_annotation c) eqn:Ha; [|destruct (is_lifecycle c) eqn:Hl].
  - rewrite (exclusive_kinds c Ha), (step_annotation_record t c w Ha). cbn [orb andb].
    pose proof (latch_clock_reads (with_thread_num t w)) as L1.
    pose proof (latch_records_written (with_thread_num t w)) as L2.
    change (clock_reads (with_thread_num t w)) with (clock_reads w) in L1.
    change (records_written (with_thread_num t w)) with (records_written w) in L2.
    destruct (activation w).
    + rewrite !clock_reads_emit, !records_written_emit, L1, L2. simpl. lia.
    + rewrite L1, L2. lia.
  - destruct (step_lifecycle_record t c w Hl) as (event & tail & ->). cbn [orb].
    rewrite !clock_reads_emit, !records_written_emit. simpl.
    change (clock_reads (with_thread_num t w)) with (clock_reads w).
    change (records_written (with_thread_num t w)) with (records_written w). lia.
  - destruct (step_environment t c w Ha Hl) as (E & _). cbn [orb andb].
    unfold clock_reads, records_written. rewrite E. lia.
Qed.

Lemma count_cons (P : Z * call → bool) (tc : Z * call) (cs : list (Z * call)) :
  List.length (List.filter P (tc :: cs))
  = ((if P tc then 1 else 0) + List.length (List.filter P cs))%nat.
Proof. simpl. now destruct (P tc). Qed.

(** After the latch, a run writes one record for each call of a handler
    and, when the latched state is on, one for each annotation. *)
Lemma run_counts_latched (cs : list (Z * call)) (w : world) :
  first_call w = false →
  let k := (lifecycle_count cs + if ompt_loaded w then annotation_count cs else 0)%nat in
  clock_reads (run cs w) = (clock_reads w + k)%nat ∧
  records_written (run cs w) = (records_written w + k)%nat.
Proof.
  revert w. induction cs as [|[t c] cs IH]; intros w Hfc k; subst k.
  - unfold lifecycle_count, annotation_count. simpl. destruct (ompt_loaded w); split; lia.
  - change (run ((t, c) :: cs) w) with (run cs (step w (t, c))).
    destruct (step_latched t c w Hfc) as (F1 & F2 & _).
    destruct (IH (step w (t, c)) F1) as [I1 I2]. rewrite I1, I2, F2.
    destruct (step_counts t c w) as [S1 S2]. rewrite S1, S2.
    unfold writes_record, activation. rewrite Hfc.
    unfold lifecycle_count, annotation_count. rewrite !count_cons. cbn [snd].
    destruct (is_annotation c) eqn:Ha.
    + rewrite (exclusive_kinds c Ha). destruct (ompt_loaded w); simpl; split; lia.
    + destruct (is_lifecycle c), (ompt_loaded w); simpl; split; lia.
Qed.

Lemma run_counts (cs : list (Z * call)) (w : world) :
  first_call w = true →
  let k := (lifecycle_count cs
            + if set_at_first_annotation cs (environ w) then annotation_count cs else 0)%nat in
  clock_reads (run cs w) = (clock_reads w + k)%nat ∧
  records_written (run cs w) = (records_written w + k)%nat.
Proof.
  revert w. induction cs as [|[t c] cs IH]; intros w Hfc k; subst k.
  - unfold lifecycle_count, annotation_count. simpl. split; lia.
  - change (run ((t, c) :: cs) w) with (run cs (step w (t, c))).
    destruct (step_counts t c w) as [S1 S2].
    unfold lifecycle_count, annotation_count. rewrite !count_cons.
    cbn [snd set_at_first_annotation].
    destruct (is_annotation c) eqn:Ha.
    + rewrite (exclusive_kinds c Ha) in *.
      assert (first_call (step w (t, c)) = false ∧
              ompt_loaded (step w (t, c)) = env_present w) as [F1 F2].
      { unfold step. cbn [fst snd]. rewrite (perform_annotation c Ha).
        destruct (ompt_annotate_flags (label_of c) (with_thread_num t w)) as (G1 & G2 & _).
        rewrite G1, G2. unfold activation.
        change (first_call (with_thread_num t w)) with (first_call w). rewrite Hfc.
        split; reflexivity. }
      destruct (run_counts_latched cs (step w (t, c)) F1) as [I1 I2].
      rewrite I1, I2, F2, S1, S2. unfold writes_record, activation.
      rewrite (exclusive_kinds c Ha), Ha, Hfc. fold (env_present w).
      unfold lifecycle_count, annotation_count.
      destruct (env_present w); simpl; split; lia.
    + assert (first_call (step w (t, c)) = true ∧
              environ (step w (t, c)) = environ_after c (environ w)) as [F1 F2].
      { destruct (is_lifecycle c) eqn:Hl.
        - destruct (step_lifecycle_record t c w Hl) as (event & tail & ->).
          split; [exact Hfc|]. destruct c; try discriminate; reflexivity.
        - destruct c; try discriminate; split; try exact Hfc; reflexivity. }
      destruct (IH (step w (t, c)) F1) as [I1 I2]. rewrite I1, I2, F2, S1, S2.
      unfold writes_record. rewrite Ha.
      unfold lifecycle_count, annotation_count.
      destruct (is_lifecycle c); simpl; split; lia.
Qed.

(** Every run keeps the history stamped. *)
Lemma stamped_step (t : Z) (c : call) (w : world) :
  stamped (monotonic_clock w) (clock_reads w) (effects w) →
  stamped (monotonic_clock (step w (t, c))) (clock_reads (step w (t, c)))
          (effects (step w (t, c))).
Proof.
  intros Hw.
  destruct (is_annotation c) eqn:Ha; [|destruct (is_lifecycle c) eqn:Hl].
  - rewrite (step_annotation_record t c w Ha).
    assert (stamped (monotonic_clock w) (clock_reads w) (effects (latch (with_thread_num t w))))
      as Hl.
    { rewrite latch_effects. change (effects (with_thread_num t w)) with (effects w).
      destruct (first_call (with_thread_num t w)).
      - now apply stamped_lookup.
      - now rewrite List.app_nil_r. }
    pose proof (latch_clock_reads (with_thread_num t w)) as L1.
    change (clock_reads (with_thread_num t w)) with (clock_reads w) in L1.
    destruct (latch_frame (with_thread_num t w)) as [_ L2].
    change (monotonic_clock (with_thread_num t w)) with (monotonic_clock w) in L2.
    destruct (activation w).
    + rewrite !clock_reads_emit, effects_emit2, L1. cbn [monotonic_clock emit is_clock_read].
      rewrite L2. replace (clock_reads w + 1 + 0)%nat with (S (clock_reads w)) by lia.
      unfold now. now apply stamped_record.
    + rewrite L1, L2. exact Hl.
  - destruct (step_lifecycle_record t c w Hl) as (event & tail & ->).
    rewrite !clock_reads_emit, effects_emit2. cbn [monotonic_clock emit is_clock_read].
    change (clock_reads (with_thread_num t w)) with (clock_reads w).
    change (effects (with_thread_num t w)) with (effects w).
    change (monotonic_clock (with_thread_num t w)) with (monotonic_clock w).
    replace (clock_reads w + 1 + 0)%nat with (S (clock_reads w)) by lia.
    unfold now. now apply stamped_record.
  - destruct (step_environment t c w Ha Hl) as (E & _ & _ & _ & C).
    unfold clock_reads. rewrite E, C. exact Hw.
Qed.

Lemma stamped_run (cs : list (Z * call)) (w : world) :
  stamped (monotonic_clock w) (clock_reads w) (effects w) →
  stamped (monotonic_clock (run cs w)) (clock_reads (run cs w)) (effects (run cs w)).
Proof.
  revert w. induction cs as [|[t c] cs IH]; intros w Hw; [exact Hw|].
  change (run ((t, c) :: cs) w) with (run cs (step w (t, c))).
  apply IH. apply stamped_step. exact Hw.
Qed.

End Counting.

(** X5.  Annotations are all or nothing.  In a run of a freshly started
    process every call of a handler writes one record, and either every
    call of the annotation interface writes one or none does: all of
    them when OMP_TOOL_LIBRARIES is set at the first such call, none
    otherwise, whatever is done to the environment later.  The clock is
    read exactly once for each record written. *)
Theorem annotations_all_or_nothing `{OT : omp_tools}
    (cs : list (Z * call)) (env : gmap string string) (clock : nat → timespec) :
  let w := run cs (boot env clock) in
  let records :=
    (lifecycle_count cs
     + if set_at_first_annotation cs env then annotation_count cs else 0)%nat in
  records_written w = records ∧ clock_reads w = records.
Proof.
  intros w records. subst w records.
  destruct (run_counts cs (boot env clock) eq_refl) as [H1 H2].
  rewrite H1, H2. split; reflexivity.
Qed.

Example late_variable_writes_nothing :
  let cs := [(0, MarkRoiStart); (0, Setenv "OMP_TOOL_LIBRARIES" "x"); (1, ParallelBegin 2);
             (1, Annotate "late"); (0, MarkRoiEnd)] in
  set_at_first_annotation cs ∅ = false ∧
  records_written (@run openmp_5_0 cs untraced) = 1%nat.
Proof. vm_compute. split; reflexivity. Qed.

(** The records of a history, in the order they were written. *)
Fixpoint lines (es : list effect) : list string :=
  match es with
  | [] => []
  | Stdout s :: r => s :: lines r
  | _ :: r => lines r
  end.

Section Stamps.

Lemma lines_app (es fs : list effect) : lines (es ++ fs) = lines es ++ lines fs.
Proof.
  induction es as [|[] es IH]; simpl; try assumption; [reflexivity|]. now rewrite IH.
Qed.

Lemma stamped_lines (clock : nat → timespec) (n : nat) (es : list effect) :
  stamped clock n es →
  List.length (lines es) = n ∧
  ∀ k line, List.nth_error (lines es) k = Some line →
    ∃ prefix tid event tail, line = record prefix tid event (clock k) tail.
Proof.
  induction 1 as [|n es name _ [IHl IHr]|n es prefix tid event tail _ [IHl IHr]].
  - split; [reflexivity|]. intros [|k] line; discriminate.
  - rewrite lines_app. simpl. rewrite List.app_nil_r. split; assumption.
  - rewrite lines_app. simpl. split.
    + rewrite List.length_app. simpl. lia.
    + intros k line Hk. destruct (Nat.lt_ge_cases k (List.length (lines es))) as [Hlt|Hge].
      * rewrite List.nth_error_app1 in Hk by assumption. now apply IHr.
      * rewrite List.nth_error_app2 in Hk by assumption.
        destruct (k - List.length (lines es))%nat as [|j] eqn:Ek.
        -- injection Hk as <-. replace k with n by lia. eauto.
        -- destruct j; discriminate.
Qed.

End Stamps.

(** * Workers that run at the same time *)

(** The records worker [i] wrote, in the order it wrote them. *)
Fixpoint lines_of (i : nat) (tr : list (nat * effect)) : list string :=
  match tr with
  | [] => []
  | (j, Stdout s) :: r => if Nat.eqb j i then s :: lines_of i r else lines_of i r
  | _ :: r => lines_of i r
  end.

(** The readings of the clock worker [i] took, in the order it took
    them; a reading is named by the number of readings all workers took
    before it, starting from [n]. *)
Fixpoint readings_of (i : nat) (n : nat) (tr : list (nat * effect)) : list nat :=
  match tr with
  | [] => []
  | (j, ClockGettime) :: r =>
      if Nat.eqb j i then n :: readings_of i (S n) r else readings_of i (S n) r
  | _ :: r => readings_of i n r
  end.

Definition count_reads (tr : list (nat * effect)) : nat :=
  List.length (List.filter (λ x, is_clock_read (snd x)) tr).

(** Two workers, one call each; the second worker reads the clock and
    writes between the two halves of the first worker's call.  The
    output is not in the order of the readings. *)
Example two_workers_out_of_order :
  let m := @interleave openmp_5_0 [0; 1; 1; 0]%nat
             (start [[(0, ParallelBegin 4)]; [(1, ParallelEnd)]] untraced) in
  stdout (shared m) =
    "[OMPT] Thread 1 PARALLEL END at 1000.250 ms" +:+ LF
    +:+ "[OMPT] Thread 0 PARALLEL BEGIN at 0.250 ms (requested threads: 4)" +:+ LF ∧
  lines_of 0 (trace m)
    = ["[OMPT] Thread 0 PARALLEL BEGIN at 0.250 ms (requested threads: 4)" +:+ LF] ∧
  readings_of 0 0 (trace m) = [0%nat] ∧ readings_of 1 0 (trace m) = [1%nat].
Proof. vm_compute. repeat split; reflexivity. Qed.

(** Two workers in their first annotation at the same time, with the
    variable set: the second worker writes its record between the
    reading of the first worker and its record. *)
Example two_workers_annotate :
  let m := @interleave openmp_5_0 [0; 0; 0; 0; 0; 0; 1; 1; 1; 1; 0]%nat
             (start [[(0, MarkRoiStart)]; [(1, MarkRoiEnd)]] traced) in
  stdout (shared m) =
    "[OMPT_annotation] Thread 1 Annotation at 1000.250 ms: ROI_END" +:+ LF
    +:+ "[OMPT_annotation] Thread 0 Annotation at 0.250 ms: ROI_START" +:+ LF ∧
  readings_of 0 0 (trace m) = [0%nat] ∧ readings_of 1 0 (trace m) = [1%nat] ∧
  List.map ahead (workers m) = [[]; []] ∧ List.map inside (workers m) = [None; None].
Proof. vm_compute. repeat split; reflexivity. Qed.

(** The record shows the reading number [n] of the clock. *)
Definition carried (clock : nat → timespec) (line : string) (n : nat) : Prop :=
  ∃ prefix tid event tail, line = record prefix tid event (clock n) tail.

(** The calls that write a record. *)
Definition reports (c : call) : bool := is_lifecycle c || is_annotation c.

(** The timestamp a worker holds, and that the call it is inside is one
    that writes a record. *)
Definition holding (x : worker) : option double :=
  match inside x with
  | Some (_, _, Holding timestamp) => Some timestamp
  | _ => None
  end.
Definition reporting (x : worker) : Prop :=
  match inside x with
  | Some (_, c, _) => reports c = true
  | None => True
  end.

(** Worker [i] has written a record for each of its readings, in order,
    but for the reading it holds. *)
Definition settled (clock : nat → timespec) (m : machine) (i : nat) : Prop :=
  ∃ paid : list nat,
    Forall2 (carried clock) (lines_of i (trace m)) paid ∧
    match workers m !! i with
    | Some x =>
        reporting x ∧
        match holding x with
        | Some timestamp =>
            ∃ n, readings_of i 0 (trace m) = paid ++ [n] ∧ timestamp = timestamp_of (clock n)
        | None => readings_of i 0 (trace m) = paid
        end
    | None => readings_of i 0 (trace m) = paid
    end.

Definition consistent (clock : nat → timespec) (m : machine) : Prop :=
  monotonic_clock (shared m) = clock ∧
  clock_reads (shared m) = count_reads (trace m) ∧
  effects (shared m) = List.map snd (trace m) ∧
  ∀ i, settled clock m i.

Section Attribution.
Context `{OT : omp_tools}.

Lemma lines_of_app (i : nat) (tr1 tr2 : list (nat * effect)) :
  lines_of i (tr1 ++ tr2) = lines_of i tr1 ++ lines_of i tr2.
Proof.
  induction tr1 as [|[j [name| |s]] tr1 IH]; [reflexivity|exact IH|exact IH|].
  cbn [lines_of app]. destruct (Nat.eqb j i); [|exact IH].
  rewrite IH. reflexivity.
Qed.

Lemma count_reads_app (tr1 tr2 : list (nat * effect)) :
  count_reads (tr1 ++ tr2) = (count_reads tr1 + count_reads tr2)%nat.
Proof. unfold count_reads. now rewrite List.filter_app, List.length_app. Qed.

Lemma count_reads_own (i : nat) (es : list effect) :
  count_reads (List.map (pair i) es) = List.length (List.filter is_clock_read es).
Proof.
  unfold count_reads. induction es as [|e es IH]; [reflexivity|].
  cbn [List.map List.filter snd]. destruct (is_clock_read e); cbn [List.length]; now rewrite IH.
Qed.

Lemma readings_of_app (i n : nat) (tr1 tr2 : list (nat * effect)) :
  readings_of i n (tr1 ++ tr2)
  = readings_of i n tr1 ++ readings_of i (n + count_reads tr1) tr2.
Proof.
  revert n. induction tr1 as [|[j [name| |s]] tr1 IH]; intros n.
  - cbn [app readings_of]. change (count_reads []) with 0%nat. now rewrite Nat.add_0_r.
  - exact (IH n).
  - change (count_reads ((j, ClockGettime) :: tr1)) with (S (count_reads tr1)).
    rewrite Nat.add_succ_r. cbn [app readings_of]. rewrite (IH (S n)).
    destruct (Nat.eqb j i); reflexivity.
  - exact (IH n).
Qed.

Lemma news_app (w w' : world) (es : list effect) :
  effects w' = effects w ++ es → news w w' = es.
Proof. intros E. unfold news. rewrite E. apply drop_app_length. Qed.

(** A handler is [get_timestamp] followed by its report. *)
Lemma handler_halves (c : call) :
  is_lifecycle c = true →
  perform c = (let* timestamp := get_timestamp in report c timestamp).
Proof. destruct c; try discriminate; reflexivity. Qed.

(** The report of a call that holds the timestamp of a reading is the
    record of that reading. *)
Lemma report_eq (c : call) (ts : timespec) (w : world) :
  reports c = true →
  ∃ prefix event tail,
    report c (timestamp_of ts) w
    = (tt, emit (Stdout (record prefix (thread_num w) event ts tail)) w).
Proof.
  destruct c as [a| | |n| |t e n|e n|k e|n v|n]; try discriminate; intros _.
  - exists "OMPT_annotation"%string, "Annotation"%string, (": " +:+ a).
    unfold report, annotation_report. same_text.
  - exists "OMPT_annotation"%string, "Annotation"%string, (": " +:+ "ROI_START").
    unfold report, annotation_report. same_text.
  - exists "OMPT_annotation"%string, "Annotation"%string, (": " +:+ "ROI_END").
    unfold report, annotation_report. same_text.
  - exists "OMPT"%string, "PARALLEL BEGIN"%string,
      (" (requested threads: " +:+ dec (wrap_unsigned 32 n) +:+ ")").
    unfold report. same_text.
  - exists "OMPT"%string, "PARALLEL END"%string, ""%string. reflexivity.
  - exists "OMPT"%string, ("WORK " +:+ (if e =? ompt_scope_begin then "START" else "END")),
      (" (type: " +:+ work_type_str t +:+ ", count: " +:+ dec (wrap_unsigned 64 n) +:+ ")").
    unfold report. destruct (e =? ompt_scope_begin); same_text.
  - exists "OMPT"%string,
      (if (e =? ompt_scope_begin)%Z then "TASK START"%string else "TASK FINISH"%string),
      (" (team size: " +:+ dec (wrap_unsigned 32 n) +:+ ")").
    unfold report. destruct (e =? ompt_scope_begin); same_text.
  - exists "OMPT"%string,
      ((if e =? ompt_scope_begin then "ENTER" else "EXIT") +:+ " " +:+ sync_type_str k),
      ""%string.
    unfold report. destruct (e =? ompt_scope_begin); same_text.
Qed.

(** One access of a worker: what it adds to the history, and what the
    worker holds after it.  An access that is not the [printf] of a
    held timestamp adds at most a look-up of the variable, or reads the
    clock and leaves the worker holding the timestamp of that reading;
    the [printf] adds the record of the reading whose timestamp is
    held. *)
Lemma next_cases (x : worker) (w : world) :
  reporting x →
  ∃ (x' : worker) (w' : world) (es : list effect),
    next x w = (x', w') ∧ effects w' = effects w ++ es ∧
    monotonic_clock w' = monotonic_clock w ∧ reporting x' ∧
    match holding x with
    | Some timestamp =>
        holding x' = None ∧
        ∀ ts, timestamp = timestamp_of ts →
          ∃ prefix tid event tail, es = [Stdout (record prefix tid event ts tail)]
    | None =>
        (holding x' = None ∧ (es = [] ∨ es = [Getenv "OMP_TOOL_LIBRARIES"])) ∨
        (holding x' = Some (timestamp_of (now w)) ∧ es = [ClockGettime])
    end.
Proof.
  assert (∀ l : list effect, l = l ++ []) as Hnil by (intros l; now rewrite List.app_nil_r).
  destruct x as [[[[t c] s]|] rest]; intros Hrep.
  - change (reports c = true) in Hrep. destruct s as [|v| | | |timestamp].
    + eexists _, _, [Getenv "OMP_TOOL_LIBRARIES"].
      split; [reflexivity|]. split; [reflexivity|]. split; [reflexivity|].
      split; [exact Hrep|]. left. split; [reflexivity | right; reflexivity].
    + destruct v; eexists _, _, [];
        (split; [reflexivity|]); (split; [apply Hnil|]); (split; [reflexivity|]);
        (split; [exact Hrep|]); left; (split; [reflexivity | left; reflexivity]).
    + eexists _, _, [].
      split; [reflexivity|]. split; [apply Hnil|]. split; [reflexivity|].
      split; [exact Hrep|]. left. split; [reflexivity | left; reflexivity].
    + unfold next, on, bind, load_ompt_loaded, ret.
      change (ompt_loaded (with_thread_num t w)) with (ompt_loaded w).
      destruct (ompt_loaded w); eexists _, _, [];
        (split; [reflexivity|]); (split; [apply Hnil|]); (split; [reflexivity|]);
        (split; [try exact Hrep; exact I|]); left; (split; [reflexivity | left; reflexivity]).
    + eexists _, _, [ClockGettime].
      split; [reflexivity|]. split; [reflexivity|]. split; [reflexivity|].
      split; [exact Hrep|]. right. split; reflexivity.
    + cbn [holding inside]. unfold next, on, bind.
      destruct (report c timestamp (with_thread_num t w)) as [[] w'] eqn:E.
      eexists _, w', (news w w'). split; [reflexivity|].
      assert (∀ ts, timestamp = timestamp_of ts →
                ∃ prefix tid event tail,
                  w' = emit (Stdout (record prefix tid event ts tail)) (with_thread_num t w))
        as Hw.
      { intros ts ->.
        destruct (report_eq c ts (with_thread_num t w) Hrep) as (prefix & event & tail & E').
        rewrite E' in E. injection E as <-. now exists prefix, t, event, tail. }
      assert (∃ line, w' = emit (Stdout line) (with_thread_num t w)) as (line & Hline).
      { clear Hw. revert E. destruct c; try discriminate Hrep;
          unfold report, annotation_report, bind, omp_get_thread_num, printf;
          intros E; injection E as <-; eexists; reflexivity. }
      assert (news w w' = [Stdout line]) as Hnews.
      { apply news_app. rewrite Hline. reflexivity. }
      split; [rewrite Hnews, Hline; reflexivity|].
      split; [rewrite Hline; reflexivity|]. split; [exact I|]. split; [reflexivity|].
      intros ts Hts. destruct (Hw ts Hts) as (prefix & tid & event & tail & Hw').
      exists prefix, tid, event, tail. rewrite Hnews. f_equal. f_equal.
      rewrite Hline in Hw'. apply (f_equal effects) in Hw'. cbn [effects emit] in Hw'.
      apply List.app_inv_head in Hw'. now injection Hw'.
  - destruct rest as [|[t c] rest].
    + eexists _, _, [].
      split; [reflexivity|]. split; [apply Hnil|]. split; [reflexivity|].
      split; [exact I|]. left. split; [reflexivity | left; reflexivity].
    + assert (∀ c' : call, is_annotation c' = true →
                ∃ x' : worker,
                  (let* fc := load_first_call in
                   ret (if fc then Worker (Some (t, c', Checking)) rest
                        else Worker (Some (t, c', Testing)) rest)) (with_thread_num t w)
                  = (x', with_thread_num t w) ∧ reporting x' ∧ holding x' = None) as Hfirst.
      { intros c' Hc'. unfold bind, load_first_call, ret.
        change (first_call (with_thread_num t w)) with (first_call w).
        destruct (first_call w); eexists; (split; [reflexivity|]);
          (split; [|reflexivity]); unfold reporting, reports; cbn [inside];
          rewrite Hc'; apply orb_true_r. }
      destruct c as [a| | |n| |wt e n|e n|k e|n v|n];
        try (eexists _, _, [ClockGettime];
             (split; [reflexivity|]); (split; [reflexivity|]); (split; [reflexivity|]);
             (split; [reflexivity|]); right; split; reflexivity);
        try (eexists _, _, [];
             (split; [reflexivity|]); (split; [apply Hnil|]); (split; [reflexivity|]);
             (split; [exact I|]); left; split; [reflexivity | left; reflexivity]).
      * destruct (Hfirst (Annotate a) eq_refl) as (x' & E & Hr & Hh).
        exists x', (with_thread_num t w), []. split; [exact E|]. split; [apply Hnil|].
        split; [reflexivity|]. split; [exact Hr|]. left. split; [exact Hh | left; reflexivity].
      * destruct (Hfirst MarkRoiStart eq_refl) as (x' & E & Hr & Hh).
        exists x', (with_thread_num t w), []. split; [exact E|]. split; [apply Hnil|].
        split; [reflexivity|]. split; [exact Hr|]. left. split; [exact Hh | left; reflexivity].
      * destruct (Hfirst MarkRoiEnd eq_refl) as (x' & E & Hr & Hh).
        exists x', (with_thread_num t w), []. split; [exact E|]. split; [apply Hnil|].
        split; [reflexivity|]. split; [exact Hr|]. left. split; [exact Hh | left; reflexivity].
Qed.

(** What a turn of another worker leaves of [settled]. *)
Lemma settled_other (clock : nat → timespec) (m : machine) (i j : nat) (x : worker)
    (w : world) (es : list effect) :
  i ≠ j → settled clock m j →
  settled clock (Machine (<[i := x]> (workers m)) w (trace m ++ List.map (pair i) es)) j.
Proof.
  intros Hij (paid & Hp & Hw). exists paid. cbn [trace workers].
  rewrite lines_of_app, readings_of_app, list_lookup_insert_ne by exact Hij.
  assert (Nat.eqb i j = false) as Hne by (apply Nat.eqb_neq; exact Hij).
  assert (lines_of j (List.map (pair i) es) = []) as ->.
  { induction es as [|[name| |s] es IH]; cbn [List.map lines_of]; now rewrite ?Hne. }
  assert (∀ n, readings_of j n (List.map (pair i) es) = []) as ->.
  { induction es as [|[name| |s] es IH]; intros n; cbn [List.map readings_of];
      now rewrite ?Hne. }
  rewrite !List.app_nil_r. split; assumption.
Qed.

Lemma consistent_turn (clock : nat → timespec) (i : nat) (m : machine) :
  consistent clock m → consistent clock (turn i m).
Proof.
  intros Hm. pose proof Hm as (Hc & Hr & He & Hs). unfold turn.
  destruct (workers m !! i) as [x|] eqn:Hi; [|exact Hm].
  pose proof (lookup_lt_Some _ _ _ Hi) as Hlt.
  destruct (Hs i) as (paid & Hp & Hw). rewrite Hi in Hw. destruct Hw as (Hrep & Hw).
  destruct (next_cases x (shared m) Hrep) as (x' & w' & es & E & Ees & Hck & Hrep' & Hcase).
  rewrite E, (news_app _ _ _ Ees).
  assert (clock_reads w'
          = (clock_reads (shared m) + List.length (List.filter is_clock_read es))%nat)
    as Hreads.
  { unfold clock_reads. now rewrite Ees, List.filter_app, List.length_app. }
  split; [cbn [shared]; now rewrite Hck|]. split; [|split].
  - cbn [shared trace]. now rewrite Hreads, count_reads_app, count_reads_own, Hr.
  - cbn [shared trace]. rewrite Ees, He, List.map_app, List.map_map. cbn [snd].
    now rewrite List.map_id.
  - intros j. destruct (Nat.eq_dec i j) as [<-|Hij];
      [|exact (settled_other clock m i j _ _ es Hij (Hs j))].
    destruct (holding x) as [timestamp|].
    + (* the printf of the timestamp the worker holds *)
      destruct Hw as (n & Hn & Hts). destruct Hcase as (Hh' & Hline).
      destruct (Hline (clock n) Hts) as (prefix & tid & event & tail & ->).
      exists (paid ++ [n]). cbn [trace workers].
      rewrite lines_of_app, readings_of_app, list_lookup_insert_eq by exact Hlt.
      cbn [List.map lines_of readings_of]. rewrite Nat.eqb_refl, List.app_nil_r, Hh'.
      split; [|split; [exact Hrep' | exact Hn]].
      apply Forall2_app; [exact Hp|]. constructor; [|constructor].
      now exists prefix, tid, event, tail.
    + exists paid. cbn [trace workers].
      rewrite lines_of_app, readings_of_app, list_lookup_insert_eq by exact Hlt.
      destruct Hcase as [(Hh' & [-> | ->]) | (Hh' & ->)];
        cbn [List.map lines_of readings_of]; rewrite ?Nat.eqb_refl, ?List.app_nil_r, Hh';
        (split; [exact Hp|]); (split; [exact Hrep'|]); try exact Hw.
      (* the clock is read *)
      exists (count_reads (trace m)). split; [now rewrite Hw|].
      unfold now. now rewrite Hc, Hr.
Qed.

Lemma consistent_interleave (clock : nat → timespec) (schedule : list nat) (m : machine) :
  consistent clock m → consistent clock (interleave schedule m).
Proof.
  revert m. induction schedule as [|i schedule IH]; intros m Hm; [exact Hm|].
  change (interleave (i :: schedule) m) with (interleave schedule (turn i m)).
  apply IH. now apply consistent_turn.
Qed.

Lemma consistent_start (programs : list (list (Z * call))) (env : gmap string string)
    (clock : nat → timespec) :
  consistent clock (start programs (boot env clock)).
Proof.
  split; [reflexivity|]. split; [reflexivity|]. split; [reflexivity|].
  intros i. exists []. split; [constructor|]. cbn [start workers trace].
  rewrite list_lookup_fmap. destruct (programs !! i); [|reflexivity].
  split; [exact I | reflexivity].
Qed.

End Attribution.

Section Order.
Context `{OT : omp_tools}.

Lemma nth_error_lookup {A : Type} (l : list A) (k : nat) : List.nth_error l k = l !! k.
Proof. revert k. induction l as [|x l IH]; intros [|k]; try reflexivity. apply IH. Qed.

(** The readings of a worker are readings that were taken, and it took
    them one after the other. *)
Lemma readings_of_range (i n : nat) (tr : list (nat * effect)) (k x : nat) :
  readings_of i n tr !! k = Some x → (n ≤ x < n + count_reads tr)%nat.
Proof.
  revert n k. induction tr as [|[j [name| |s]] tr IH]; intros n k Hk.
  - discriminate.
  - exact (IH n k Hk).
  - change (count_reads ((j, ClockGettime) :: tr)) with (S (count_reads tr)).
    cbn [readings_of] in Hk. destruct (Nat.eqb j i).
    + destruct k as [|k]; [injection Hk as <-; lia|].
      specialize (IH (S n) k Hk). lia.
    + specialize (IH (S n) k Hk). lia.
  - exact (IH n k Hk).
Qed.


(** The accesses of one call, made without another worker in between,
    are the call as [step] runs it: two accesses for a handler, one for
    a change of the environment, up to seven for an annotation. *)
Lemma alone_is_step (t : Z) (c : call) (rest : list (Z * call)) (w : world) :
  ∃ k, (1 ≤ k ≤ 7)%nat ∧ (is_lifecycle c = true → k = 2%nat) ∧
    alone k (Worker None ((t, c) :: rest)) w = (Worker None rest, step w (t, c)).
Proof.
  destruct w as [env clock tn tbl loaded fc es].
  destruct c as [a| | |n| |wt e n|e n|k e|n v|n];
    try (exists 2%nat; split; [lia|]; split; [reflexivity|]; reflexivity);
    try (exists 1%nat; split; [lia|]; split; [discriminate|]; reflexivity);
    (destruct fc;
     [ destruct (env !! "OMP_TOOL_LIBRARIES"%string) as [value|] eqn:Hv;
       [ exists 7%nat | exists 5%nat ]
     | destruct loaded; [ exists 4%nat | exists 2%nat ] ];
     (split; [lia|]); (split; [discriminate|]);
     unfold step, exec, perform, ompt_mark_roi_start, ompt_mark_roi_end, ompt_annotate,
       check_ompt_loaded, alone, next, on, report, annotation_report, bind, ret,
       load_first_call, load_ompt_loaded, store_first_call, store_ompt_loaded, getenv,
       get_timestamp, clock_gettime, omp_get_thread_num, printf;
     cbn [fst snd first_call ompt_loaded environ with_thread_num with_first_call
          with_ompt_loaded emit effects thread_num monotonic_clock callback_table negb];
     rewrite ?Hv;
     cbn [fst snd first_call ompt_loaded environ with_thread_num with_first_call
          with_ompt_loaded emit effects thread_num monotonic_clock callback_table negb];
     reflexivity).
Qed.

(** The same in the machine. *)
Lemma turns_alone (i : nat) (k : nat) (x : worker) (m : machine) :
  workers m !! i = Some x →
  shared (interleave (replicate k i) m) = snd (alone k x (shared m)) ∧
  workers (interleave (replicate k i) m) = <[i := fst (alone k x (shared m))]> (workers m).
Proof.
  revert x m. induction k as [|k IH]; intros x m Hi.
  - cbn [replicate interleave fold_left alone ret fst snd]. split; [reflexivity|].
    symmetry. now apply list_insert_id.
  - pose proof (lookup_lt_Some _ _ _ Hi) as Hlt.
    change (interleave (replicate (S k) i) m) with (interleave (replicate k i) (turn i m)).
    cbn [alone]. unfold bind at 1 2.
    assert (∃ x' w', next x (shared m) = (x', w')) as (x' & w' & E)
      by (destruct (next x (shared m)); eauto).
    assert (turn i m = Machine (<[i := x']> (workers m)) w'
                               (trace m ++ List.map (pair i) (news (shared m) w'))) as Hturn.
    { unfold turn. now rewrite Hi, E. }
    rewrite E.
    destruct (IH x' (turn i m)) as (Hs & Hw).
    { rewrite Hturn. cbn [workers]. now apply list_lookup_insert_eq. }
    rewrite Hs, Hw, Hturn. cbn [shared workers]. split; [reflexivity|].
    apply list_insert_insert_eq.
Qed.

Lemma turns_of_one_call (i : nat) (t : Z) (c : call) (rest : list (Z * call)) (m : machine) :
  workers m !! i = Some (Worker None ((t, c) :: rest)) →
  ∃ k, (1 ≤ k ≤ 7)%nat ∧ (is_lifecycle c = true → k = 2%nat) ∧
    shared (interleave (replicate k i) m) = step (shared m) (t, c) ∧
    workers (interleave (replicate k i) m) = <[i := Worker None rest]> (workers m).
Proof.
  intros Hi. destruct (alone_is_step t c rest (shared m)) as (k & Hk & Hl & E).
  exists k. split; [exact Hk|]. split; [exact Hl|].
  destruct (turns_alone i k _ m Hi) as (Hs & Hw). rewrite Hs, Hw, E. split; reflexivity.
Qed.

(** Under every schedule each record a worker writes shows a reading
    that worker took: its first record its first reading, and so on. *)
Lemma interleaved_records (programs : list (list (Z * call))) (schedule : list nat)
    (env : gmap string string) (clock : nat → timespec) :
  let m := interleave schedule (start programs (boot env clock)) in
  effects (shared m) = List.map snd (trace m) ∧
  ∀ i k line, List.nth_error (lines_of i (trace m)) k = Some line →
    ∃ n prefix tid event tail,
      List.nth_error (readings_of i 0 (trace m)) k = Some n ∧
      (n < clock_reads (shared m))%nat ∧
      line = record prefix tid event (clock n) tail.
Proof.
  intros m.
  destruct (consistent_interleave clock schedule _ (consistent_start programs env clock))
    as (_ & Hr & He & Hs).
  fold m in Hr, He, Hs. split; [exact He|].
  intros i k line Hk. rewrite nth_error_lookup in Hk.
  destruct (Hs i) as (paid & Hp & Hw).
  destruct (Forall2_lookup_l _ _ _ _ _ Hp Hk) as (n & Hn & prefix & tid & event & tail & ->).
  assert (readings_of i 0 (trace m) !! k = Some n) as Hread.
  { destruct (workers m !! i) as [x|]; [|now rewrite Hw].
    destruct Hw as (_ & Hw). destruct (holding x); [|now rewrite Hw].
    destruct Hw as (n' & -> & _). now apply lookup_app_l_Some. }
  exists n, prefix, tid, event, tail. rewrite nth_error_lookup. split; [exact Hread|].
  split; [|reflexivity].
  pose proof (readings_of_range i 0 (trace m) k n Hread). lia.
Qed.

End Order.

(** X6.  Each record shows the reading of the clock taken for it, by the
    call that writes it.  When the calls do not overlap ([run]: handlers
    and annotations, each returning before the next is made) a record is
    written right after its reading, and the first record of the output
    shows the first reading of the clock, the second record the second
    reading, and so on.  When calls overlap on several workers, under
    every schedule, the first record a worker writes shows the first
    reading that worker took, its second record its second reading, and
    so on; nothing is said of the order of records of different workers
    ([two_workers_out_of_order]). *)
Theorem records_carry_successive_readings `{OT : omp_tools}
    (cs : list (Z * call)) (programs : list (list (Z * call))) (schedule : list nat)
    (env : gmap string string) (clock : nat → timespec) :
  (let w := run cs (boot env clock) in
   stamped clock (clock_reads w) (effects w) ∧
   List.length (lines (effects w)) = clock_reads w ∧
   ∀ k line, List.nth_error (lines (effects w)) k = Some line →
     ∃ prefix tid event tail, line = record prefix tid event (clock k) tail) ∧
  (let m := interleave schedule (start programs (boot env clock)) in
   effects (shared m) = List.map snd (trace m) ∧
   ∀ i k line, List.nth_error (lines_of i (trace m)) k = Some line →
     ∃ n prefix tid event tail,
       List.nth_error (readings_of i 0 (trace m)) k = Some n ∧
       (n < clock_reads (shared m))%nat ∧
       line = record prefix tid event (clock n) tail).
Proof.
  split.
  - intros w. subst w.
    pose proof (stamped_run cs (boot env clock) (stamped_nil clock)) as H.
    destruct (run_frame cs (boot env clock)) as (_ & C & _).
    rewrite C in H. split; [exact H|]. exact (stamped_lines _ _ _ H).
  - exact (interleaved_records programs schedule env clock).
Qed.

(** * The annotation interface, call by call *)

Section Interface.

Lemma exec_bind {A B : Type} (m : M A) (k : M B) (w : world) :
  exec (m ;;; k) w = exec k (exec m w).
Proof. unfold exec, bind. now destruct (m w). Qed.

Lemma now_emit_getenv (name : string) (w : world) : now (emit (Getenv name) w) = now w.
Proof. unfold now. rewrite clock_reads_emit. simpl. now rewrite Nat.add_0_r. Qed.

End Interface.

(** X7.  A direct call of [check_ompt_loaded] overrides the latch: it
    leaves [first_call] alone and sets the state that the next call of
    [ompt_annotate] sees to the presence of OMP_TOOL_LIBRARIES now,
    whatever was latched before.  That next call writes its record if
    the variable is set and is silent if it is not. *)
Theorem check_ompt_loaded_overrides_latch (annotation : string) (w : world) :
  let w1 := exec check_ompt_loaded w in
  first_call w1 = first_call w ∧
  activation w1 = env_present w ∧
  (env_present w = true →
     stdout (exec (ompt_annotate annotation) w1) =
     stdout w +:+ record "OMPT_annotation" (thread_num w) "Annotation" (now w)
                    (": " +:+ annotation)) ∧
  (env_present w = false → silent (ompt_annotate annotation) w1).
Proof.
  intros w1.
  assert (w1 = with_ompt_loaded (env_present w) (emit (Getenv "OMP_TOOL_LIBRARIES") w)) as E.
  { subst w1. unfold exec. now rewrite check_ompt_loaded_eq. }
  assert (activation w1 = env_present w) as Hact.
  { rewrite E. unfold activation. cbn [first_call with_ompt_loaded emit ompt_loaded].
    destruct (first_call w); reflexivity. }
  split; [rewrite E; reflexivity|]. split; [exact Hact|]. split.
  - intros Hon. rewrite Hon in Hact.
    rewrite (ompt_annotate_enabled annotation w1 Hact), stdout_emit_out, stdout_emit_clock,
      latch_stdout.
    assert (stdout w1 = stdout w) as -> by (rewrite E; apply stdout_emit_getenv).
    assert (now w1 = now w) as -> by (rewrite E; apply now_emit_getenv).
    rewrite E. reflexivity.
  - intros Hoff. rewrite Hoff in Hact. now apply ompt_annotate_silent.
Qed.

(** A process that latched the state off, in which the variable is then
    set and the check called again: the next annotation is written. *)
Example check_after_latch :
  let w := exec (ompt_annotate "first" ;;; setenv "OMP_TOOL_LIBRARIES" "x" ;;;
                 check_ompt_loaded ;;; ompt_annotate "second") untraced in
  first_call w = false ∧
  stdout w = "[OMPT_annotation] Thread 0 Annotation at 0.250 ms: second" +:+ LF.
Proof. vm_compute. split; reflexivity. Qed.

(** X8.  [ompt_mark_roi_start] followed by [ompt_mark_roi_end] looks the
    environment up at most once, in the first of the two calls if the
    latch is still open.  Enabled, the pair writes two records, labelled
    ROI_START and ROI_END in that order, that carry two consecutive
    readings of the clock; disabled, it writes nothing and does not read
    the clock. *)
Theorem roi_pair (w : world) :
  let w2 := exec (ompt_mark_roi_start ;;; ompt_mark_roi_end) w in
  let mark (label : string) (reading : nat) :=
    Stdout (record "OMPT_annotation" (thread_num w) "Annotation"
              (monotonic_clock w reading) (": " +:+ label)) in
  effects w2 =
    effects w ++ (if first_call w then [Getenv "OMP_TOOL_LIBRARIES"] else [])
      ++ (if activation w
          then [ClockGettime; mark "ROI_START" (clock_reads w);
                ClockGettime; mark "ROI_END" (S (clock_reads w))]
          else []) ∧
  first_call w2 = false ∧ ompt_loaded w2 = activation w.
Proof.
  intros w2 mark. subst w2 mark. rewrite exec_bind. unfold ompt_mark_roi_start, ompt_mark_roi_end.
  destruct (ompt_annotate_flags "ROI_START" w) as (F1 & F2 & _).
  set (w1 := exec (ompt_annotate "ROI_START") w) in *.
  assert (activation w1 = activation w) as A1.
  { unfold activation at 1. now rewrite F1, F2. }
  assert (latch w1 = w1) as L1 by (unfold latch; now rewrite F1).
  destruct (ompt_annotate_flags "ROI_END" w1) as (G1 & G2 & _).
  split; [|split; [exact G1 | now rewrite G2]].
  destruct (activation w) eqn:Hact.
  - rewrite (ompt_annotate_enabled "ROI_END" w1 A1), L1, effects_emit2.
    assert (w1 = emit (Stdout (record "OMPT_annotation" (thread_num w) "Annotation" (now w)
                                 (": " +:+ "ROI_START")))
                      (emit ClockGettime (latch w))) as E1.
    { subst w1. now apply ompt_annotate_enabled. }
    assert (now w1 = monotonic_clock w (S (clock_reads w))) as ->.
    { rewrite E1. unfold now. rewrite !clock_reads_emit, latch_clock_reads.
      cbn [monotonic_clock emit is_clock_read]. destruct (latch_frame w) as [_ ->].
      f_equal. lia. }
    assert (thread_num w1 = thread_num w) as ->.
    { rewrite E1. cbn [thread_num emit]. unfold latch. now destruct (first_call w). }
    rewrite E1 at 1. rewrite effects_emit2, latch_effects, <- !List.app_assoc. reflexivity.
  - rewrite (ompt_annotate_disabled "ROI_END" w1 A1), L1. subst w1.
    rewrite (ompt_annotate_disabled "ROI_START" w Hact), latch_effects, List.app_nil_r.
    reflexivity.
Qed.

(** * Exact timestamps *)

Section Exact.

(** A quotient that has at most 53 significant bits is returned
    unchanged. *)
Lemma rounded_exact_quotient (N D e M : Z) :
  roundable N D e → 0 < M < 2 ^ 53 → N * 2 ^ (e + scale) = M * D * 2 ^ scale →
  rounded N D e = M * 2 ^ scale.
Proof.
  intros (HN & HD & Hd & HE & He) HM HV.
  assert (0 < N / D) as Hq.
  { pose proof (Z.div_pos N D HN HD). destruct (N / D); simpl in Hd; lia. }
  pose proof (Zdigits2_lower (N / D) Hq) as Hl.
  unfold rounded. set (k := Zdigits2 (N / D) - 53) in *.
  assert (0 ≤ k) as Hk by (subst k; lia).
  assert (0 < 2 ^ k) as Hpk by (apply Z.pow_pos_nonneg; lia).
  assert (0 < 2 ^ (e + scale)) as HpeK by (apply Z.pow_pos_nonneg; unfold scale; lia).
  assert (0 < 2 ^ scale) as HpK by (apply Z.pow_pos_nonneg; unfold scale; lia).
  assert (D * 2 ^ (52 + k) ≤ N) as HlN.
  { replace (Zdigits2 (N / D) - 1) with (52 + k) in Hl by (subst k; lia).
    pose proof (Z.mul_div_le N D HD). 
    assert (0 < 2 ^ (52 + k)) by (apply Z.pow_pos_nonneg; lia). nia. }
  assert (e + k ≤ 0) as Hek.
  { destruct (Z_lt_le_dec 0 (e + k)) as [Hpos|]; [exfalso|assumption].
    assert (D * 2 ^ (52 + k) * 2 ^ (e + scale) ≤ M * D * 2 ^ scale) as H1.
    { rewrite <- HV. apply Z.mul_le_mono_nonneg_r; lia. }
    rewrite <- Z.mul_assoc, <- Z.pow_add_r in H1 by (unfold scale; lia).
    assert (2 ^ (53 + scale) ≤ 2 ^ (52 + k + (e + scale))) as H2 by (apply Z.pow_le_mono_r; lia).
    rewrite (Z.pow_add_r 2 53 scale) in H2 by (unfold scale; lia).
    assert (0 < D * 2 ^ scale) as HDK by (apply Z.mul_pos_pos; lia).
    assert (D * (2 ^ 53 * 2 ^ scale) ≤ D * 2 ^ (52 + k + (e + scale))) as H3
      by (apply Z.mul_le_mono_nonneg_l; lia).
    assert (M * (D * 2 ^ scale) < 2 ^ 53 * (D * 2 ^ scale)) as H4
      by (apply Z.mul_lt_mono_pos_r; lia).
    lia. }
  assert (N = M * D * 2 ^ (- e)) as EN.
  { assert (2 ^ scale = 2 ^ (- e) * 2 ^ (e + scale)) as EK.
    { rewrite <- Z.pow_add_r by (unfold scale; lia). f_equal. lia. }
    rewrite EK, Z.mul_assoc in HV. apply Z.mul_reg_r in HV; lia. }
  assert (2 ^ (- e) = 2 ^ (- e - k) * 2 ^ k) as Esplit.
  { rewrite <- Z.pow_add_r by lia. f_equal. lia. }
  assert (N = M * 2 ^ (- e - k) * (D * 2 ^ k)) as EN' by (rewrite EN, Esplit; ring).
  assert (N mod (D * 2 ^ k) = 0) as Hmod by (rewrite EN'; apply Z.mod_mul; lia).
  assert (N / (D * 2 ^ k) = M * 2 ^ (- e - k)) as Hdiv
    by (rewrite EN' at 1; apply Z.div_mul; lia).
  cbv zeta. unfold nearest. rewrite Hmod, Hdiv. simpl round_nearest_even.
  rewrite <- Z.mul_assoc, <- Z.pow_add_r by (unfold scale; lia). do 2 f_equal. lia.
Qed.

(** A zero or normal double is determined by its value. *)
Lemma normal_value_inj (x y : spec_float) :
  normal x → normal y → value x = value y → x = y.
Proof.
  intros Hx Hy Hv.
  assert (∀ m e, normal (S754_finite false m e) → 0 < value (S754_finite false m e)) as Hpos.
  { intros m e (_ & _ & He). unfold value.
    apply Z.mul_pos_pos; [lia | apply Z.pow_pos_nonneg; unfold scale; lia]. }
  destruct x as [sx| | |sx mx ex]; simpl in Hx; try contradiction;
  destruct y as [sy| | |sy my ey]; simpl in Hy; try contradiction.
  - now subst.
  - destruct Hy as (-> & Hy). pose proof (Hpos my ey (conj eq_refl Hy)) as Hp.
    rewrite <- Hv in Hp. unfold value in Hp. lia.
  - destruct Hx as (-> & Hx). pose proof (Hpos mx ex (conj eq_refl Hx)) as Hp.
    rewrite Hv in Hp. unfold value in Hp. lia.
  - destruct Hx as (-> & Hdx & Hex). destruct Hy as (-> & Hdy & Hey).
    apply mantissa_bounds in Hdx, Hdy. unfold value in Hv.
    assert (ex = ey) as ->.
    { destruct (Z.lt_trichotomy ex ey) as [Hlt|[Heq|Hgt]]; [exfalso|exact Heq|exfalso].
      - assert (2 ^ (ex + scale) * 2 ≤ 2 ^ (ey + scale)) as Hp.
        { replace (ey + scale) with ((ex + scale) + (ey - ex)) by lia.
          rewrite (Z.pow_add_r 2 (ex + scale) (ey - ex)) by (unfold scale; lia).
          assert (2 ^ 1 ≤ 2 ^ (ey - ex)) by (apply Z.pow_le_mono_r; lia).
          assert (0 < 2 ^ (ex + scale)) by (apply Z.pow_pos_nonneg; unfold scale; lia).
          nia. }
        assert (0 < 2 ^ (ex + scale)) by (apply Z.pow_pos_nonneg; unfold scale; lia).
        nia.
      - assert (2 ^ (ey + scale) * 2 ≤ 2 ^ (ex + scale)) as Hp.
        { replace (ex + scale) with ((ey + scale) + (ex - ey)) by lia.
          rewrite (Z.pow_add_r 2 (ey + scale) (ex - ey)) by (unfold scale; lia).
          assert (2 ^ 1 ≤ 2 ^ (ex - ey)) by (apply Z.pow_le_mono_r; lia).
          assert (0 < 2 ^ (ey + scale)) by (apply Z.pow_pos_nonneg; unfold scale; lia).
          nia. }
        assert (0 < 2 ^ (ey + scale)) by (apply Z.pow_pos_nonneg; unfold scale; lia).
        nia. }
    apply Z.mul_reg_r in Hv; [|assert (0 < 2 ^ (ey + scale)) by (apply Z.pow_pos_nonneg; unfold scale; lia); lia].
    congruence.
Qed.

(** Comparison of zero or normal doubles is comparison of their values. *)
Lemma SFcompare_value (x y : spec_float) :
  normal x → normal y → SFcompare x y = Some (value x ?= value y).
Proof.
  intros Hx Hy.
  assert (∀ m e, -1000 ≤ e → 0 < Z.pos m * 2 ^ (e + scale)) as Hpos.
  { intros m e He. apply Z.mul_pos_pos; [lia | apply Z.pow_pos_nonneg; unfold scale; lia]. }
  assert (∀ m1 e1 m2 e2, 2 ^ 52 ≤ Z.pos m1 < 2 ^ 53 → 2 ^ 52 ≤ Z.pos m2 < 2 ^ 53 →
            -1000 ≤ e1 → e1 < e2 →
            Z.pos m1 * 2 ^ (e1 + scale) < Z.pos m2 * 2 ^ (e2 + scale)) as Hexp.
  { intros m1 e1 m2 e2 H1 H2 He Hlt.
    assert (2 ^ (e1 + scale) * 2 ≤ 2 ^ (e2 + scale)) as Hp.
    { replace (e2 + scale) with ((e1 + scale) + (e2 - e1)) by lia.
      rewrite (Z.pow_add_r 2 (e1 + scale) (e2 - e1)) by (unfold scale; lia).
      assert (2 ^ 1 ≤ 2 ^ (e2 - e1)) by (apply Z.pow_le_mono_r; lia).
      assert (0 < 2 ^ (e1 + scale)) by (apply Z.pow_pos_nonneg; unfold scale; lia).
      nia. }
    assert (0 < 2 ^ (e1 + scale)) by (apply Z.pow_pos_nonneg; unfold scale; lia).
    nia. }
  destruct x as [sx| | |sx mx ex]; simpl in Hx; try contradiction;
  destruct y as [sy| | |sy my ey]; simpl in Hy; try contradiction.
  - reflexivity.
  - destruct Hy as (-> & _ & He). unfold value, SFcompare.
    pose proof (Hpos my ey ltac:(lia)) as Hp. f_equal. symmetry. now apply Z.compare_lt_iff.
  - destruct Hx as (-> & _ & He). unfold value, SFcompare.
    pose proof (Hpos mx ex ltac:(lia)) as Hp. f_equal. symmetry. now apply Z.compare_gt_iff.
  - destruct Hx as (-> & Hdx & Hex). destruct Hy as (-> & Hdy & Hey).
    apply mantissa_bounds in Hdx, Hdy. unfold value, SFcompare. f_equal.
    destruct (Z.compare_spec ex ey) as [Heq|Hlt|Hgt].
    + subst ey. rewrite Pos.compare_cont_spec. simpl.
      assert (0 < 2 ^ (ex + scale)) by (apply Z.pow_pos_nonneg; unfold scale; lia).
      change (mx ?= my)%positive with (Z.pos mx ?= Z.pos my).
      destruct (Z.compare_spec (Z.pos mx) (Z.pos my)) as [E|L|G]; symmetry.
      * apply Z.compare_eq_iff. now rewrite E.
      * apply Z.compare_lt_iff. now apply Z.mul_lt_mono_pos_r.
      * apply Z.compare_gt_iff. now apply Z.mul_lt_mono_pos_r.
    + symmetry. apply Z.compare_lt_iff. apply Hexp; lia.
    + symmetry. apply Z.compare_gt_iff. apply Hexp; lia.
Qed.

(** Division by 1000.0 of a whole number of thousands is exact. *)
Lemma nanoseconds_part_exact (us : Z) :
  0 ≤ us → 1000 * us < 2 ^ 53 →
  normal (nanoseconds_part (1000 * us)) ∧ value (nanoseconds_part (1000 * us)) = us * 2 ^ scale.
Proof.
  intros Hus Hb. destruct (Z.eq_dec us 0) as [->|Hne]; [split; reflexivity|].
  destruct (nanoseconds_part_rounds (1000 * us) ltac:(lia)) as (Hnf & N & e & R & E & ->).
  split; [exact Hnf|]. apply rounded_exact_quotient; [exact R | lia|].
  rewrite E. unfold C1000. change 8796093022208000 with (1000 * 2 ^ 43). ring.
Qed.

(** The whole microseconds of a reading, and the readings that have
    nothing beyond them. *)
Definition microseconds (ts : timespec) : Z := tv_sec ts * 1000000 + tv_nsec ts / 1000.

Definition whole_microseconds (ts : timespec) : Prop :=
  0 ≤ tv_sec ts ∧ 0 ≤ tv_nsec ts < 10 ^ 9 ∧ tv_nsec ts mod 1000 = 0.

Lemma timestamp_of_exact (ts : timespec) :
  whole_microseconds ts → microseconds ts < 2 ^ 53 →
  normal (timestamp_of ts) ∧ value (timestamp_of ts) = microseconds ts * 2 ^ scale.
Proof.
  intros (Hs & Hn & Hm) Hb. unfold microseconds in *.
  pose proof (Z.div_mod (tv_nsec ts) 1000 ltac:(lia)) as Hdm. rewrite Hm, Z.add_0_r in Hdm.
  set (us := tv_nsec ts / 1000) in *.
  assert (0 ≤ us < 1000000) as Hus by (subst us; split; [apply Z.div_pos | apply Z.div_lt_upper_bound]; lia).
  assert (exact_microseconds ts) as Hex by (unfold exact_microseconds; lia).
  destruct (nanoseconds_part_exact us ltac:(lia) ltac:(lia)) as [_ HVn].
  rewrite <- Hdm in HVn.
  destruct (timestamp_of_rounds ts Hex) as [Hnf Hr]. split; [exact Hnf|].
  cbv zeta in Hr. rewrite HVn in Hr.
  destruct Hr as [[X0 ->]|(N & e & R & E & ->)]; [lia|].
  apply rounded_exact; [exact R| |rewrite E; ring].
  pose proof (roundable_pos _ _ _ R) as Hp. rewrite E in Hp.
  assert (0 < 2 ^ scale) by (apply Z.pow_pos_nonneg; unfold scale; lia). nia.
Qed.

End Exact.

Section Printing.

Lemma nearest_error (N D : Z) :
  0 ≤ N → 0 < D → - D ≤ 2 * (nearest N D * D - N) ≤ D.
Proof.
  intros HN HD. unfold nearest.
  pose proof (Z.div_mod N D ltac:(lia)) as E. pose proof (Z.mod_pos_bound N D HD) as B.
  set (q := N / D) in *. set (r := N mod D) in *.
  unfold loc_of, round_nearest_even.
  destruct (Z.eqb_spec r 0) as [Hr|Hr]; [nia|].
  destruct (Z.compare_spec (2 * r) D); [destruct (Z.even q)| |]; nia.
Qed.

Lemma rne_div_near (a b n : Z) :
  0 < b → - b < 2 * (a - n * b) < b → rne_div a b = n.
Proof.
  intros Hb H. unfold rne_div.
  destruct (Z_le_gt_dec (n * b) a) as [Hge|Hlt].
  - assert (a / b = n) as Eq by (symmetry; apply (Z.div_unique_pos a b n (a - n * b)); lia).
    assert (a mod b = a - n * b) as Em
      by (symmetry; apply (Z.mod_unique_pos a b n (a - n * b)); lia).
    rewrite Eq, Em. destruct (Z.compare_spec (2 * (a - n * b)) b); lia.
  - assert (a / b = n - 1) as Eq
      by (symmetry; apply (Z.div_unique_pos a b (n - 1) (a - n * b + b)); lia).
    assert (a mod b = a - n * b + b) as Em
      by (symmetry; apply (Z.mod_unique_pos a b (n - 1) (a - n * b + b)); lia).
    rewrite Eq, Em. destruct (Z.compare_spec (2 * (a - n * b + b)) b); lia.
Qed.

(** The number of thousandths [%.3f] prints. *)
Definition printed_thousandths (x : double) : Z :=
  match x with
  | S754_finite _ m e => thousandths m e
  | _ => 0
  end.

Lemma fixed3_printed (x : double) :
  normal x →
  fixed3 x = dec (printed_thousandths x / 1000) +:+ "."
               +:+ pad3 (printed_thousandths x mod 1000).
Proof.
  destruct x as [s| | |s m e]; unfold normal; try contradiction.
  - intros ->. reflexivity.
  - intros (-> & _). reflexivity.
Qed.

(** One thousandth of a whole number [n] below [1000 * 2^43], held
    exactly in a double, is printed with the digits of [n]. *)
Lemma printed_exact (x : double) (n : Z) :
  normal x → value x = n * 2 ^ scale → 0 < n < 1000 * 2 ^ 43 →
  normal (ddiv x d1000) ∧ printed_thousandths (ddiv x d1000) = n.
Proof.
  intros Hx HV Hn.
  assert (0 < 2 ^ scale) as HpK by (apply Z.pow_pos_nonneg; unfold scale; lia).
  destruct x as [s| | |s mx ex]; unfold normal in Hx; try contradiction.
  { unfold value in HV. nia. }
  pose proof Hx as (-> & Hd & He).
  assert (ex + 52 < 53) as Hup.
  { apply (exponent_upper mx ex 53 Hx); [lia|]. rewrite HV.
    apply Z.mul_lt_mono_pos_r; [exact HpK | lia]. }
  assert (0 < ex + 53) as Hlo.
  { apply (exponent_lower mx ex 0 Hx); [lia|]. rewrite HV. simpl (2 ^ 0). nia. }
  pose proof (mantissa_bounds mx Hd) as Hm.
  destruct (ddiv_value mx ex Hx ltac:(lia)) as (R & Hnq & HVq).
  set (N := Z.pos mx * 2 ^ 53) in *.
  pose proof R as (HN & _ & Hd53 & _).
  unfold rounded in HVq. set (k := Zdigits2 (N / C1000) - 53) in *.
  assert (0 ≤ k) as Hk0 by (subst k; lia).
  assert (k ≤ - ex) as Hk1.
  { assert (Zdigits2 (N / C1000) ≤ 53 - ex); [|subst k; lia].
    apply Zdigits2_le.
    - pose proof (Z.div_pos N C1000 HN ltac:(unfold C1000; lia)).
      destruct (N / C1000); simpl in Hd53; lia.
    - apply Z.div_lt_upper_bound; [unfold C1000; lia|].
      subst N. unfold C1000.
      destruct (Z.eq_dec ex 0) as [->|Hne].
      + unfold value in HV. rewrite Z.add_0_l in HV.
        apply Z.mul_reg_r in HV; [|lia]. simpl (53 - 0). lia.
      + assert (2 ^ 54 ≤ 2 ^ (53 - ex)) by (apply Z.pow_le_mono_r; lia). lia. }
  set (D := C1000 * 2 ^ k) in *.
  assert (0 < 2 ^ k) as Hpk by (apply Z.pow_pos_nonneg; lia).
  assert (0 < D) as HD by (subst D; unfold C1000; lia).
  pose proof (nearest_error N D HN HD) as Herr.
  pose proof (nearest_bounds N C1000 HN ltac:(unfold C1000; lia) Hd53) as Hnb.
  fold k in Hnb. fold D in Hnb.
  set (m := nearest N D) in *.
  set (P := 2 ^ (ex - 53 + scale)).
  assert (0 < P) as HP by (apply Z.pow_pos_nonneg; unfold scale; lia).
  assert (n * 2 ^ scale = N * P) as EN.
  { rewrite <- HV. unfold value. subst N P.
    rewrite <- Z.mul_assoc, <- Z.pow_add_r by (unfold scale; lia). do 2 f_equal. lia. }
  assert (2 ^ (ex - 10 + k + scale) * 1000 = D * P) as ED.
  { subst D P. unfold C1000. change 8796093022208000 with (1000 * 2 ^ 43).
    replace (ex - 10 + k + scale) with (43 + k + (ex - 53 + scale)) by lia.
    rewrite !Z.pow_add_r by (unfold scale; lia). ring. }
  assert (2 ^ scale = 2 ^ (53 - ex) * P) as EK.
  { subst P. rewrite <- Z.pow_add_r by (unfold scale; lia). f_equal. lia. }
  assert (D < 2 ^ (53 - ex)) as HDlt.
  { subst D. unfold C1000. change 8796093022208000 with (1000 * 2 ^ 43).
    assert (2 ^ k ≤ 2 ^ (- ex)) by (apply Z.pow_le_mono_r; lia).
    replace (53 - ex) with (10 + 43 + (- ex)) by lia.
    rewrite !Z.pow_add_r by lia. assert (0 < 2 ^ (- ex)) by (apply Z.pow_pos_nonneg; lia).
    change (2 ^ 10) with 1024. nia. }
  assert (- 2 ^ scale < 2 * (value (ddiv (S754_finite false mx ex) d1000) * 1000 - n * 2 ^ scale)
          < 2 ^ scale) as Hclose.
  { rewrite HVq, EN, EK. 
    replace (m * 2 ^ (ex - 10 + k + scale) * 1000) with (m * (2 ^ (ex - 10 + k + scale) * 1000))
      by ring.
    rewrite ED.
    replace (2 * (m * (D * P) - N * P)) with (2 * (m * D - N) * P) by ring.
    split; nia. }
  split; [exact Hnq|].
  destruct (ddiv (S754_finite false mx ex) d1000) as [sq| | |sq mq eq];
    unfold normal in Hnq; try contradiction.
  { exfalso. unfold value in HVq.
    assert (0 < m * 2 ^ (ex - 10 + k + scale)); [|lia].
    apply Z.mul_pos_pos; [lia | apply Z.pow_pos_nonneg; unfold scale; lia]. }
  destruct Hnq as (-> & _ & Heq). unfold value in Hclose.
  unfold printed_thousandths, thousandths. destruct (Z.leb_spec 0 eq) as [Hpos|Hneg].
  - rewrite (Z.pow_add_r 2 eq scale) in Hclose by (unfold scale; lia). nia.
  - apply rne_div_near; [apply Z.pow_pos_nonneg; lia|].
    set (Q := 2 ^ (eq + scale)) in *.
    assert (0 < Q) as HQ by (apply Z.pow_pos_nonneg; unfold scale; lia).
    assert (2 ^ scale = 2 ^ (- eq) * Q) as EQ.
    { subst Q. rewrite <- Z.pow_add_r by (unfold scale; lia). f_equal. lia. }
    rewrite EQ in Hclose. assert (0 < 2 ^ (- eq)) by (apply Z.pow_pos_nonneg; lia).
    split; nia.
Qed.

End Printing.

(** X9.  For every reading that [clock_gettime] can store, seconds up to
    the end of the range of a 64-bit [time_t] included, [get_timestamp]
    returns a finite double that is not negative: never a NaN, never an
    infinity, never a negative zero. *)
Theorem get_timestamp_finite (w : world) :
  valid_timespec (now w) →
  let t := fst (get_timestamp w) in
  is_finite t = true ∧ SFleb (S754_zero false) t = true ∧ SFltb t (S754_zero false) = false ∧
  t ≠ S754_zero true.
Proof.
  intros Hts t. subst t. rewrite get_timestamp_eq. cbn [fst].
  pose proof (timestamp_of_below (now w) Hts) as Hb.
  split; [exact (below_is_finite 87 _ Hb)|].
  destruct (timestamp_of (now w)) as [s| | |s m e]; simpl in Hb; try contradiction.
  - subst s. split; [reflexivity|]. split; [reflexivity | discriminate].
  - destruct Hb as (-> & _). split; [reflexivity|]. split; [reflexivity | discriminate].
Qed.

(** A clock close to the end of the range of [time_t]. *)
Definition far_clock (n : nat) : timespec := Timespec (2 ^ 63 - 1) 999999999.

Lemma get_timestamp_finite_witness :
  valid_timespec (now (boot ∅ far_clock)) ∧
  is_finite (fst (get_timestamp (boot ∅ far_clock))) = true.
Proof.
  assert (valid_timespec (now (boot ∅ far_clock))) as Hts
    by (vm_compute; intuition discriminate).
  split; [exact Hts|]. exact (proj1 (get_timestamp_finite _ Hts)).
Defined.

(** X10.  A reading of a whole number of microseconds, below [2^53]
    microseconds in all, is returned exactly: [get_timestamp] returns
    the double that [tv_sec * 1000000 + tv_nsec / 1000] converts to, a
    mantissa and an exponent whose value is that integer. *)
Theorem whole_microseconds_exact (w : world) :
  whole_microseconds (now w) → microseconds (now w) < 2 ^ 53 →
  let t := fst (get_timestamp w) in
  t = double_of_long (microseconds (now w)) ∧
  ((microseconds (now w) = 0 ∧ t = S754_zero false) ∨
   ∃ m e, t = S754_finite false m e ∧ e ≤ 0 ∧ Z.pos m = microseconds (now w) * 2 ^ (- e)).
Proof.
  intros Hw Hb t. subst t. rewrite get_timestamp_eq. cbn [fst].
  destruct (timestamp_of_exact (now w) Hw Hb) as [Hnf HV].
  assert (0 ≤ microseconds (now w)) as H0.
  { destruct Hw as (Hs & Hn & _). unfold microseconds.
    pose proof (Z.div_pos (tv_nsec (now w)) 1000 ltac:(lia) ltac:(lia)). lia. }
  destruct (double_of_long_value (microseconds (now w)) ltac:(lia)) as [Hnf' HV'].
  split; [apply normal_value_inj; [assumption | assumption | congruence]|].
  assert (0 < 2 ^ scale) as HpK by (apply Z.pow_pos_nonneg; unfold scale; lia).
  destruct (timestamp_of (now w)) as [s| | |s m e] eqn:Et; unfold normal in Hnf;
    try contradiction.
  - left. subst s. unfold value in HV. split; [nia | reflexivity].
  - right. pose proof Hnf as (-> & Hd & He). exists m, e. split; [reflexivity|].
    assert (e + 52 < 53) as Hup.
    { apply (exponent_upper m e 53 Hnf); [lia|]. rewrite HV.
      apply Z.mul_lt_mono_pos_r; [exact HpK | lia]. }
    split; [lia|]. unfold value in HV.
    assert (2 ^ scale = 2 ^ (- e) * 2 ^ (e + scale)) as EK.
    { rewrite <- Z.pow_add_r by (unfold scale; lia). f_equal. lia. }
    rewrite EK, Z.mul_assoc in HV. apply Z.mul_reg_r in HV; [exact HV|].
    assert (0 < 2 ^ (e + scale)) by (apply Z.pow_pos_nonneg; unfold scale; lia). lia.
Qed.

Lemma whole_microseconds_exact_witness :
  whole_microseconds (now untraced) ∧ microseconds (now untraced) < 2 ^ 53 ∧
  fst (get_timestamp untraced) = double_of_long 250.
Proof.
  assert (whole_microseconds (now untraced)) as Hw by (vm_compute; intuition discriminate).
  assert (microseconds (now untraced) < 2 ^ 53) as Hb by reflexivity.
  split; [exact Hw|]. split; [exact Hb|].
  exact (proj1 (whole_microseconds_exact untraced Hw Hb)).
Defined.

(** X11.  Two readings of whole microseconds below [2^53] microseconds
    that differ get different timestamps, ordered like the readings. *)
Theorem whole_microseconds_strictly_ordered (a b : timespec) :
  whole_microseconds a → whole_microseconds b →
  microseconds a < microseconds b → microseconds b < 2 ^ 53 →
  SFltb (timestamp_of a) (timestamp_of b) = true ∧
  SFleb (timestamp_of b) (timestamp_of a) = false.
Proof.
  intros Ha Hb Hlt Hbound.
  destruct (timestamp_of_exact a Ha ltac:(lia)) as [Hna HVa].
  destruct (timestamp_of_exact b Hb Hbound) as [Hnb HVb].
  assert (0 < 2 ^ scale) as HpK by (apply Z.pow_pos_nonneg; unfold scale; lia).
  assert (value (timestamp_of a) < value (timestamp_of b)) as Hv.
  { rewrite HVa, HVb. apply Z.mul_lt_mono_pos_r; assumption. }
  unfold SFltb, SFleb. rewrite !SFcompare_value by assumption.
  rewrite (proj2 (Z.compare_lt_iff _ _) Hv), (proj2 (Z.compare_gt_iff _ _) Hv).
  split; reflexivity.
Qed.

Lemma whole_microseconds_strictly_ordered_witness :
  whole_microseconds (Timespec 7 1000) ∧ whole_microseconds (Timespec 7 2000) ∧
  microseconds (Timespec 7 1000) < microseconds (Timespec 7 2000) ∧
  microseconds (Timespec 7 2000) < 2 ^ 53 ∧
  SFltb (timestamp_of (Timespec 7 1000)) (timestamp_of (Timespec 7 2000)) = true.
Proof.
  assert (whole_microseconds (Timespec 7 1000)) as Ha by (vm_compute; intuition discriminate).
  assert (whole_microseconds (Timespec 7 2000)) as Hb by (vm_compute; intuition discriminate).
  split; [exact Ha|]. split; [exact Hb|]. split; [reflexivity|]. split; [reflexivity|].
  exact (proj1 (whole_microseconds_strictly_ordered _ _ Ha Hb eq_refl eq_refl)).
Defined.

(** X12.  For a reading of a whole number [u] of microseconds below
    [1000 * 2^43] (some 278 years) the time field of a record shows [u]
    exactly: the decimal digits of [u / 1000], a point, and [u mod 1000]
    on three digits.  The parallel-end record is then, byte for byte,
    "[OMPT] Thread <id> PARALLEL END at <those digits> ms". *)
Theorem whole_microseconds_printed (w : world) :
  whole_microseconds (now w) → microseconds (now w) < 1000 * 2 ^ 43 →
  let shown := dec (microseconds (now w) / 1000) +:+ "."
                  +:+ pad3 (microseconds (now w) mod 1000) in
  ms_field (now w) = shown ∧
  stdout (exec on_ompt_callback_parallel_end w) =
    stdout w +:+ "[OMPT] Thread " +:+ dec (wrap_signed 32 (thread_num w))
             +:+ " PARALLEL END at " +:+ shown +:+ " ms" +:+ LF.
Proof.
  intros Hw Hb shown.
  assert (ms_field (now w) = shown) as E.
  { subst shown. unfold ms_field.
    destruct (timestamp_of_exact (now w) Hw ltac:(lia)) as [Hnf HV].
    destruct (Z.eq_dec (microseconds (now w)) 0) as [E0|Hne].
    - rewrite E0 in *. 
      assert (timestamp_of (now w) = S754_zero false) as ->
        by (apply normal_value_inj; [assumption | reflexivity | exact HV]).
      reflexivity.
    - assert (0 < microseconds (now w) < 1000 * 2 ^ 43) as Hr.
      { destruct Hw as (Hs & Hn & _). unfold microseconds in *.
        pose proof (Z.div_pos (tv_nsec (now w)) 1000 ltac:(lia) ltac:(lia)). lia. }
      destruct (printed_exact _ _ Hnf HV Hr) as [Hq Hp].
      rewrite (fixed3_printed _ Hq), Hp. reflexivity. }
  split; [exact E|].
  rewrite parallel_end_eq, stdout_emit_out, stdout_emit_clock. unfold record. rewrite E.
  rewrite ?append_assoc. reflexivity.
Qed.

Lemma whole_microseconds_printed_witness :
  let w := boot ∅ (λ _, Timespec 12 345678000) in
  whole_microseconds (now w) ∧ microseconds (now w) < 1000 * 2 ^ 43 ∧
  ms_field (now w) = "12345.678"%string.
Proof.
  intros w.
  assert (whole_microseconds (now w)) as Hw by (vm_compute; intuition discriminate).
  assert (microseconds (now w) < 1000 * 2 ^ 43) as Hb by reflexivity.
  split; [exact Hw|]. split; [exact Hb|].
  exact (proj1 (whole_microseconds_printed w Hw Hb)).
Defined.

(** * Accuracy of the printed time *)

Section Accuracy.

Lemma nearest_scale (a b Q : Z) : 0 < b → 0 < Q → nearest (a * Q) (b * Q) = nearest a b.
Proof.
  intros Hb HQ. unfold nearest.
  rewrite Z.div_mul_cancel_r, Z.mul_mod_distr_r by lia.
  f_equal. unfold loc_of.
  destruct (Z.eqb_spec (a mod b) 0) as [->|Hr]; [reflexivity|].
  assert ((a mod b * Q =? 0) = false) as -> by (apply Z.eqb_neq; nia).
  f_equal.
  destruct (Z.compare_spec (2 * (a mod b)) b);
    destruct (Z.compare_spec (2 * (a mod b * Q)) (b * Q)); try reflexivity; exfalso; nia.
Qed.

Lemma nearest_whole (n D : Z) : 0 < D → nearest (n * D) D = n.
Proof.
  intros HD. unfold nearest. rewrite Z.div_mul, Z.mod_mul by lia. reflexivity.
Qed.

Lemma rne_div_nearest (a b : Z) : 0 < b → rne_div a b = nearest a b.
Proof.
  intros Hb. unfold rne_div, nearest, loc_of, round_nearest_even.
  pose proof (Z.mod_pos_bound a b Hb).
  destruct (Z.eqb_spec (a mod b) 0) as [E|E].
  - rewrite E. destruct (Z.compare_spec (2 * 0) b); lia.
  - destruct (2 * (a mod b) ?= b); reflexivity.
Qed.

(** [%.3f] rounds one thousand times the value to the nearest integer. *)
Lemma thousandths_value (m : positive) (e : Z) :
  - scale ≤ e → thousandths m e = nearest (Z.pos m * 2 ^ (e + scale) * 1000) (2 ^ scale).
Proof.
  intros He. unfold thousandths.
  assert (0 < 2 ^ scale) as HpK by (apply Z.pow_pos_nonneg; unfold scale; lia).
  destruct (Z.leb_spec 0 e) as [Hpos|Hneg].
  - rewrite Z.pow_add_r by (unfold scale; lia).
    replace (Z.pos m * (2 ^ e * 2 ^ scale) * 1000) with (Z.pos m * 1000 * 2 ^ e * 2 ^ scale)
      by ring.
    now rewrite nearest_whole.
  - rewrite rne_div_nearest by (apply Z.pow_pos_nonneg; lia).
    assert (2 ^ scale = 2 ^ (- e) * 2 ^ (e + scale)) as EK.
    { rewrite <- Z.pow_add_r by lia. f_equal. lia. }
    rewrite EK.
    replace (Z.pos m * 2 ^ (e + scale) * 1000) with (Z.pos m * 1000 * 2 ^ (e + scale)) by ring.
    rewrite nearest_scale; [reflexivity | apply Z.pow_pos_nonneg; lia
                           | apply Z.pow_pos_nonneg; lia].
Qed.

Lemma printed_mono (x y : double) :
  normal x → normal y → value x ≤ value y → printed_thousandths x ≤ printed_thousandths y.
Proof.
  intros Hx Hy Hv.
  assert (0 < 2 ^ scale) as HpK by (apply Z.pow_pos_nonneg; unfold scale; lia).
  destruct y as [sy| | |sy my ey]; unfold normal in Hy; try contradiction.
  { destruct x as [sx| | |sx mx ex]; unfold normal in Hx; try contradiction; [reflexivity|].
    exfalso. destruct Hx as (_ & _ & He). unfold value in Hv.
    assert (0 < Z.pos mx * 2 ^ (ex + scale)); [|lia].
    apply Z.mul_pos_pos; [lia | apply Z.pow_pos_nonneg; unfold scale; lia]. }
  destruct Hy as (_ & _ & Hey).
  destruct x as [sx| | |sx mx ex]; unfold normal in Hx; try contradiction.
  { apply thousandths_nonneg. }
  destruct Hx as (_ & _ & Hex). unfold printed_thousandths, value in *.
  rewrite !thousandths_value by (unfold scale; lia).
  apply nearest_mono; try assumption.
  - assert (0 < 2 ^ (ex + scale)) by (apply Z.pow_pos_nonneg; unfold scale; lia). nia.
  - apply Z.mul_le_mono_nonneg_r; [lia|]. apply Z.mul_le_mono_nonneg_r; [lia | exact Hv].
Qed.

(** Exponents for which [ddiv_value] describes the division. *)
Definition ranged (x : double) : Prop :=
  match x with
  | S754_finite _ _ e => -900 ≤ e ≤ 800
  | _ => True
  end.

Lemma milliseconds_mono (x y : double) :
  normal x → normal y → ranged x → ranged y → value x ≤ value y →
  normal (ddiv x d1000) ∧ normal (ddiv y d1000) ∧
  value (ddiv x d1000) ≤ value (ddiv y d1000).
Proof.
  intros Hx Hy Rx Ry Hv.
  assert (∀ z, normal z → ranged z → normal (ddiv z d1000)) as Hn.
  { intros z Hz Rz. destruct z as [s| | |s m e]; unfold normal in Hz; try contradiction.
    - subst s. reflexivity.
    - pose proof Hz as (-> & _). now apply ddiv_value. }
  split; [now apply Hn|]. split; [now apply Hn|].
  destruct x as [sx| | |sx mx ex]; unfold normal in Hx; try contradiction.
  { subst sx. change (value (ddiv (S754_zero false) d1000)) with 0. apply value_nonneg. }
  pose proof Hx as (-> & _ & Hex).
  destruct y as [sy| | |sy my ey]; unfold normal in Hy; try contradiction.
  { exfalso. unfold value in Hv.
    assert (0 < Z.pos mx * 2 ^ (ex + scale)); [|lia].
    apply Z.mul_pos_pos; [lia | apply Z.pow_pos_nonneg; unfold scale; lia]. }
  pose proof Hy as (-> & _ & Hey). simpl in Rx, Ry.
  destruct (ddiv_value mx ex Hx Rx) as (R1 & _ & ->).
  destruct (ddiv_value my ey Hy Ry) as (R2 & _ & ->).
  apply rounded_mono; try assumption.
  unfold value in Hv.
  assert (∀ e, -900 ≤ e → 2 ^ (e + scale) = 2 ^ 10 * 2 ^ (e - 10 + scale)) as Ep.
  { intros e He. rewrite <- Z.pow_add_r by (unfold scale; lia). f_equal. lia. }
  rewrite (Ep ex), (Ep ey) in Hv by lia.
  assert (0 < 2 ^ (ex - 10 + scale)) by (apply Z.pow_pos_nonneg; unfold scale; lia).
  assert (0 < 2 ^ (ey - 10 + scale)) by (apply Z.pow_pos_nonneg; unfold scale; lia).
  assert (Z.pos mx * 2 ^ (ex - 10 + scale) ≤ Z.pos my * 2 ^ (ey - 10 + scale)) as Hv' by lia.
  unfold C1000.
  replace (Z.pos mx * 2 ^ 53 * 2 ^ (ex - 10 + scale) * 8796093022208000)
    with (Z.pos mx * 2 ^ (ex - 10 + scale) * (2 ^ 53 * 8796093022208000)) by ring.
  replace (Z.pos my * 2 ^ 53 * 2 ^ (ey - 10 + scale) * 8796093022208000)
    with (Z.pos my * 2 ^ (ey - 10 + scale) * (2 ^ 53 * 8796093022208000)) by ring.
  apply Z.mul_le_mono_nonneg_r; [lia | exact Hv'].
Qed.

(** Order of two timestamps, as an order of their values. *)
Lemma timestamp_of_value_mono (a b : timespec) :
  exact_microseconds a → exact_microseconds b → timespec_le a b →
  value (timestamp_of a) ≤ value (timestamp_of b).
Proof.
  intros Ha Hb Hab.
  pose proof (timestamp_of_mono a b Ha Hb Hab) as H.
  destruct (timestamp_of_rounds a Ha) as [Hna _].
  destruct (timestamp_of_rounds b Hb) as [Hnb _].
  unfold SFleb in H. rewrite (SFcompare_value _ _ Hna Hnb) in H.
  destruct (Z.compare_spec (value (timestamp_of a)) (value (timestamp_of b)));
    [lia | lia | discriminate H].
Qed.

Lemma smallest_timestamp : 2 ^ 3900 ≤ value (timestamp_of (Timespec 0 1)).
Proof. apply Z.leb_le. vm_compute. reflexivity. Qed.

Lemma ranged_above (x : double) :
  normal x → below 87 x → value (timestamp_of (Timespec 0 1)) ≤ value x → ranged x.
Proof.
  intros Hn Hbel Hlow. pose proof smallest_timestamp as H0.
  set (v0 := value (timestamp_of (Timespec 0 1))) in *.
  destruct x as [s| | |s m e]; try exact I.
  pose proof Hn as (_ & Hd & He). destruct Hbel as (_ & Hup & _).
  change (Z.pos (digits2_pos m)) with (Zdigits2 (Z.pos m)) in Hup.
  pose proof (mantissa_bounds m Hd) as Hm. unfold value in Hlow. unfold ranged.
  assert (3900 < e + scale + 53); [|unfold scale in *; lia].
  apply (pow2_lt_inv 3900 (e + scale + 53)); [unfold scale; lia|].
  rewrite (Z.pow_add_r 2 (e + scale) 53) by (unfold scale; lia).
  assert (0 < 2 ^ (e + scale)) by (apply Z.pow_pos_nonneg; unfold scale; lia). nia.
Qed.

Lemma timestamp_of_ranged (ts : timespec) :
  exact_microseconds ts → ranged (timestamp_of ts).
Proof.
  intros Hex. destruct (timestamp_of_rounds ts Hex) as [Hn _].
  pose proof Hex as (Hs & Hb & Hns).
  assert (valid_timespec ts) as Hv.
  { split; [|exact Hns]. split; [exact Hs|]. change (2 ^ 63) with (2 ^ 53 * 1024). lia. }
  pose proof (timestamp_of_below ts Hv) as Hbel.
  destruct (Z.eq_dec (tv_sec ts) 0) as [Hs0|Hs0];
    [destruct (Z.eq_dec (tv_nsec ts) 0) as [Hn0|Hn0]|].
  - destruct ts as [s n]. simpl in Hs0, Hn0. subst. exact I.
  - assert (timespec_le (Timespec 0 1) ts) as Hle by (right; simpl; lia).
    pose proof (timestamp_of_value_mono (Timespec 0 1) ts
                  ltac:(unfold exact_microseconds; simpl; lia) Hex Hle) as Hlow.
    now apply (ranged_above (timestamp_of ts)).
  - assert (timespec_le (Timespec 0 1) ts) as Hle by (left; simpl; lia).
    pose proof (timestamp_of_value_mono (Timespec 0 1) ts
                  ltac:(unfold exact_microseconds; simpl; lia) Hex Hle) as Hlow.
    now apply (ranged_above (timestamp_of ts)).
Qed.

End Accuracy.

Section Microseconds.

Lemma whole_exact_range (ts : timespec) :
  whole_microseconds ts → microseconds ts < 2 ^ 53 → exact_microseconds ts.
Proof.
  intros (Hs & Hn & _) Hb. unfold microseconds in Hb.
  pose proof (Z.div_pos (tv_nsec ts) 1000 ltac:(lia) ltac:(lia)).
  unfold exact_microseconds. lia.
Qed.

(** The thousandths printed for a whole number of microseconds are that
    number. *)
Lemma printed_whole (ts : timespec) :
  whole_microseconds ts → microseconds ts < 1000 * 2 ^ 43 →
  normal (ddiv (timestamp_of ts) d1000) ∧
  printed_thousandths (ddiv (timestamp_of ts) d1000) = microseconds ts.
Proof.
  intros Hw Hb.
  destruct (timestamp_of_exact ts Hw ltac:(lia)) as [Hnf HV].
  destruct (Z.eq_dec (microseconds ts) 0) as [E0|Hne].
  - rewrite E0 in *.
    assert (timestamp_of ts = S754_zero false) as ->
      by (apply normal_value_inj; [assumption | reflexivity | exact HV]).
    split; reflexivity.
  - apply printed_exact; [assumption | assumption|].
    destruct Hw as (Hs & Hn & _). unfold microseconds in *.
    pose proof (Z.div_pos (tv_nsec ts) 1000 ltac:(lia) ltac:(lia)). lia.
Qed.

(** The whole microsecond at or before a reading, and the next one. *)
Definition floor_microsecond (ts : timespec) : timespec :=
  Timespec (tv_sec ts) (1000 * (tv_nsec ts / 1000)).
Definition next_microsecond (ts : timespec) : timespec :=
  if tv_nsec ts / 1000 + 1 <? 1000000
  then Timespec (tv_sec ts) (1000 * (tv_nsec ts / 1000 + 1))
  else Timespec (tv_sec ts + 1) 0.

Lemma floor_microsecond_spec (ts : timespec) :
  0 ≤ tv_sec ts → 0 ≤ tv_nsec ts < 10 ^ 9 →
  whole_microseconds (floor_microsecond ts) ∧
  microseconds (floor_microsecond ts) = microseconds ts ∧
  timespec_le (floor_microsecond ts) ts.
Proof.
  intros Hs Hn. unfold floor_microsecond, whole_microseconds, microseconds, timespec_le.
  cbn [tv_sec tv_nsec].
  pose proof (Z.div_mod (tv_nsec ts) 1000 ltac:(lia)) as Hdm.
  pose proof (Z.mod_pos_bound (tv_nsec ts) 1000 ltac:(lia)) as Hmb.
  pose proof (Z.div_pos (tv_nsec ts) 1000 ltac:(lia) ltac:(lia)) as Hq.
  rewrite (Z.mul_comm 1000), Z.mod_mul, Z.div_mul by lia.
  repeat split; try lia.
Qed.

Lemma next_microsecond_spec (ts : timespec) :
  0 ≤ tv_sec ts → 0 ≤ tv_nsec ts < 10 ^ 9 →
  whole_microseconds (next_microsecond ts) ∧
  microseconds (next_microsecond ts) = microseconds ts + 1 ∧
  timespec_le ts (next_microsecond ts).
Proof.
  intros Hs Hn. unfold next_microsecond, whole_microseconds, microseconds, timespec_le.
  pose proof (Z.div_mod (tv_nsec ts) 1000 ltac:(lia)) as Hdm.
  pose proof (Z.mod_pos_bound (tv_nsec ts) 1000 ltac:(lia)) as Hmb.
  pose proof (Z.div_pos (tv_nsec ts) 1000 ltac:(lia) ltac:(lia)) as Hq.
  assert (tv_nsec ts / 1000 < 1000000) as Hu by (apply Z.div_lt_upper_bound; lia).
  destruct (Z.ltb_spec (tv_nsec ts / 1000 + 1) 1000000) as [Hlt|Hge]; cbn [tv_sec tv_nsec].
  - rewrite (Z.mul_comm 1000), Z.mod_mul, Z.div_mul by lia. repeat split; try lia.
  - change (0 mod 1000) with 0. change (0 / 1000) with 0. repeat split; try lia.
Qed.

End Microseconds.

(** X13.  For every reading below [1000 * 2^43] microseconds, whole
    microseconds or not, the time field of a record is at most one
    microsecond off: it shows
    [n / 1000], a point and [n mod 1000] on three digits, where [n] is
    the number of whole microseconds of the reading or that number plus
    one. *)
Theorem printed_time_within_a_microsecond (ts : timespec) :
  0 ≤ tv_sec ts → 0 ≤ tv_nsec ts < 10 ^ 9 → microseconds ts + 1 < 1000 * 2 ^ 43 →
  ∃ n, microseconds ts ≤ n ≤ microseconds ts + 1 ∧
       ms_field ts = dec (n / 1000) +:+ "." +:+ pad3 (n mod 1000).
Proof.
  intros Hs Hn Hb.
  destruct (floor_microsecond_spec ts Hs Hn) as (Wl & Ml & Ll).
  destruct (next_microsecond_spec ts Hs Hn) as (Wh & Mh & Lh).
  set (lo := floor_microsecond ts) in *. set (hi := next_microsecond ts) in *.
  assert (exact_microseconds lo) as El by (apply whole_exact_range; [assumption | lia]).
  assert (exact_microseconds hi) as Eh by (apply whole_exact_range; [assumption | lia]).
  assert (exact_microseconds ts) as Et.
  { unfold exact_microseconds, microseconds in *.
    pose proof (Z.div_pos (tv_nsec ts) 1000 ltac:(lia) ltac:(lia)). lia. }
  pose proof (timestamp_of_value_mono lo ts El Et Ll) as V1.
  pose proof (timestamp_of_value_mono ts hi Et Eh Lh) as V2.
  destruct (timestamp_of_rounds lo El) as [Nl _].
  destruct (timestamp_of_rounds ts Et) as [Nt _].
  destruct (timestamp_of_rounds hi Eh) as [Nh _].
  pose proof (timestamp_of_ranged lo El) as Rl.
  pose proof (timestamp_of_ranged ts Et) as Rt.
  pose proof (timestamp_of_ranged hi Eh) as Rh.
  destruct (milliseconds_mono _ _ Nl Nt Rl Rt V1) as (Ql & Qt & Q1).
  destruct (milliseconds_mono _ _ Nt Nh Rt Rh V2) as (_ & Qh & Q2).
  pose proof (printed_mono _ _ Ql Qt Q1) as P1.
  pose proof (printed_mono _ _ Qt Qh Q2) as P2.
  destruct (printed_whole lo Wl ltac:(lia)) as [_ Pl].
  destruct (printed_whole hi Wh ltac:(lia)) as [_ Ph].
  exists (printed_thousandths (ddiv (timestamp_of ts) d1000)).
  split; [lia|]. unfold ms_field. now apply fixed3_printed.
Qed.

Lemma printed_time_within_a_microsecond_witness :
  0 ≤ tv_sec (Timespec 12 345678999) ∧ 0 ≤ tv_nsec (Timespec 12 345678999) < 10 ^ 9 ∧
  microseconds (Timespec 12 345678999) + 1 < 1000 * 2 ^ 43 ∧
  ∃ n, 12345678 ≤ n ≤ 12345679 ∧
       ms_field (Timespec 12 345678999) = dec (n / 1000) +:+ "." +:+ pad3 (n mod 1000).
Proof.
  assert (0 ≤ tv_sec (Timespec 12 345678999)) as Hs by (simpl; lia).
  assert (0 ≤ tv_nsec (Timespec 12 345678999) < 10 ^ 9) as Hn by (simpl; lia).
  assert (microseconds (Timespec 12 345678999) + 1 < 1000 * 2 ^ 43) as Hb by reflexivity.
  split; [exact Hs|]. split; [exact Hn|]. split; [exact Hb|].
  exact (printed_time_within_a_microsecond (Timespec 12 345678999) Hs Hn Hb).
Defined.

(** * Records in the order of time *)



Section TimeOrder.



End TimeOrder.



(** * Accuracy of the timestamp *)

Section Between.

Lemma timestamp_of_whole (ts : timespec) :
  whole_microseconds ts → microseconds ts < 2 ^ 53 →
  timestamp_of ts = double_of_long (microseconds ts).
Proof.
  intros Hw Hb. destruct (timestamp_of_exact ts Hw Hb) as [Hnf HV].
  assert (0 ≤ microseconds ts) as H0.
  { destruct Hw as (Hs & Hn & _). unfold microseconds.
    pose proof (Z.div_pos (tv_nsec ts) 1000 ltac:(lia) ltac:(lia)). lia. }
  destruct (double_of_long_value (microseconds ts) ltac:(lia)) as [Hnf' HV'].
  apply normal_value_inj; [assumption | assumption | congruence].
Qed.

End Between.

(** X15.  Below [2^53] microseconds [get_timestamp] is never more than
    one microsecond away from the reading of the clock: the double it
    returns lies between the number of whole microseconds of the
    reading and that number plus one, both of which a double holds
    exactly. *)
Theorem timestamp_within_a_microsecond (w : world) :
  0 ≤ tv_sec (now w) → 0 ≤ tv_nsec (now w) < 10 ^ 9 → microseconds (now w) + 1 < 2 ^ 53 →
  let t := fst (get_timestamp w) in
  SFleb (double_of_long (microseconds (now w))) t = true ∧
  SFleb t (double_of_long (microseconds (now w) + 1)) = true.
Proof.
  intros Hs Hn Hb t. subst t. rewrite get_timestamp_eq. cbn [fst].
  destruct (floor_microsecond_spec (now w) Hs Hn) as (Wl & Ml & Ll).
  destruct (next_microsecond_spec (now w) Hs Hn) as (Wh & Mh & Lh).
  assert (exact_microseconds (floor_microsecond (now w))) as El
    by (apply whole_exact_range; [assumption | lia]).
  assert (exact_microseconds (next_microsecond (now w))) as Eh
    by (apply whole_exact_range; [assumption | lia]).
  assert (exact_microseconds (now w)) as Et.
  { unfold exact_microseconds, microseconds in *.
    pose proof (Z.div_pos (tv_nsec (now w)) 1000 ltac:(lia) ltac:(lia)). lia. }
  rewrite <- Mh, <- Ml.
  rewrite <- (timestamp_of_whole _ Wl) by lia. rewrite <- (timestamp_of_whole _ Wh) by lia.
  split; apply timestamp_of_mono; assumption.
Qed.

Lemma timestamp_within_a_microsecond_witness :
  let w := boot ∅ (λ _, Timespec 12 345678999) in
  0 ≤ tv_sec (now w) ∧ 0 ≤ tv_nsec (now w) < 10 ^ 9 ∧ microseconds (now w) + 1 < 2 ^ 53 ∧
  SFleb (double_of_long 12345678) (fst (get_timestamp w)) = true ∧
  SFleb (fst (get_timestamp w)) (double_of_long 12345679) = true.
Proof.
  intros w.
  assert (0 ≤ tv_sec (now w)) as Hs by (vm_compute; discriminate).
  assert (0 ≤ tv_nsec (now w) < 10 ^ 9) as Hn by (vm_compute; intuition discriminate).
  assert (microseconds (now w) + 1 < 2 ^ 53) as Hb by reflexivity.
  split; [exact Hs|]. split; [exact Hn|]. split; [exact Hb|].
  exact (timestamp_within_a_microsecond w Hs Hn Hb).
Defined.
